(** * AI-Travel-Planner: the message bus, the state store and the orchestrator

  A shallow embedding of the coordination core of the planner:
  - [src/a2a/protocol.py]            signed envelopes (canonical JSON, HMAC-SHA256),
  - [src/a2a/adapters/in_memory.py]  the in-memory message bus,
  - [src/state/store.py]             the keyed state store with expiry,
  - [src/workflows/dynamic_planner.py] the orchestrator,
  - [src/callbacks/monitoring.py]    the monitoring events it emits and their listeners,
  - [src/agents/adk_agent/agent.py]  the consumer's writes to the store and its
                                     conversion of prices,
  - [src/agents/crewai_agent/agent.py] the parsing of a reply of the language model.

  Python objects are modelled as values of [pyval], dictionaries as
  finite maps or association lists, exceptions as values of [exn] carried
  by [result], and the clock as an explicit reading.  A string is a
  sequence of code points below 256; a float is identified by its [repr];
  SHA-256 and HMAC are computed as the standard defines them. *)

From Stdlib Require Import ZArith NArith List String Ascii Lia Bool DecimalString.
From Stdlib Require OrderedTypeEx.
From stdpp Require Import gmap strings list.

Set Warnings "-register-all".

Local Open Scope string_scope.
Local Open Scope Z_scope.

(* ===================================================================== *)
(** * Python values, exceptions and strings *)
(* ===================================================================== *)

Module Py.

(** An exception object: its class name, [str(e)], and whether the class
    derives from [Exception] (an [except Exception] clause lets the others
    pass: [asyncio.CancelledError], [KeyboardInterrupt], [SystemExit]). *)
Record exn := Exn {
  exn_type : string;
  exn_msg : string;
  exn_is_Exception : bool
}.

Definition TypeError (msg : string) : exn := Exn "TypeError" msg true.
Definition ValueError (msg : string) : exn := Exn "ValueError" msg true.
Definition OverflowError (msg : string) : exn := Exn "OverflowError" msg true.
Definition AttributeError (msg : string) : exn := Exn "AttributeError" msg true.
Definition NotImplementedError (msg : string) : exn := Exn "NotImplementedError" msg true.

(** The outcome of a call: a value, or a raised exception. *)
Inductive result (A : Type) : Type :=
| Ok (a : A)
| Raise (e : exn).
Arguments Ok {A} a.
Arguments Raise {A} e.

Definition bind {A B} (r : result A) (k : A -> result B) : result B :=
  match r with
  | Ok a => k a
  | Raise e => Raise e
  end.

Definition is_ok {A} (r : result A) : bool :=
  match r with Ok _ => true | Raise _ => false end.

(** [try: body  except Exception: handler] *)
Definition try_except_Exception {A} (body : result A) (handler : exn -> result A)
  : result A :=
  match body with
  | Ok a => Ok a
  | Raise e => if exn_is_Exception e then handler e else Raise e
  end.

(** A call raises, if anything, an exception that [except Exception] catches. *)
Definition raises_only_Exception {A} (r : result A) : Prop :=
match r with
| Ok _ => True
| Raise e => exn_is_Exception e = true
end.

(** A [float], identified by the text [float.__repr__] prints for it (which
    determines the binary64 value); floating-point arithmetic itself is not
    part of the embedding. *)
Record pyfloat := PyFloat { float_repr : string }.

Definition float_nonzero (x : pyfloat) : bool :=
  negb (String.eqb (float_repr x) "0.0" || String.eqb (float_repr x) "-0.0").

(** A [decimal.Decimal], by what the code observes of it: [str(d)], the
    float [float(d)] converts it to ([None] for a signalling NaN, where
    [float] raises [ValueError]), and whether it is non-zero. *)
Record Decimal := PyDecimal {
  dec_text : string;
  dec_float : option pyfloat;
  dec_nonzero : bool
}.

(** [datetime.date] and a naive [datetime.datetime]. *)
Record date := Date { d_year : Z; d_month : Z; d_day : Z }.

Record datetime := Datetime {
  year : Z; month : Z; day : Z;
  hour : Z; minute : Z; second : Z; microsecond : Z
}.

(** The values a payload, a stored entry or a message field can hold.  A
    [dict] keeps its insertion order and has string keys; [PModel] is an
    instance of a pydantic model or of a dataclass, with its class name and
    its fields in the order of declaration; [PObject] stands for an object
    of any other class ([set], [bytes], a user class), of which the code
    observes the class name and the truth value. *)
Inductive pyval : Type :=
| PNone
| PBool (b : bool)
| PInt (n : Z)
| PFloat (x : pyfloat)
| PStr (s : string)
| PDecimal (d : Decimal)
| PDatetime (t : datetime)
| PDate (d : date)
| PList (items : list pyval)
| PTuple (items : list pyval)
| PDict (items : list (string * pyval))
| PModel (type_name : string) (fields : list (string * pyval))
| PObject (type_name : string) (truth : bool).

(** [bool(v)], as [if v:], [not v] and [a or b] test it. *)
Definition truthy (v : pyval) : bool :=
  match v with
  | PNone => false
  | PBool b => b
  | PInt n => negb (Z.eqb n 0)
  | PFloat x => float_nonzero x
  | PStr s => negb (String.eqb s "")
  | PDecimal d => dec_nonzero d
  | PDatetime _ => true
  | PDate _ => true
  | PList l => match l with [] => false | _ => true end
  | PTuple l => match l with [] => false | _ => true end
  | PDict l => match l with [] => false | _ => true end
  | PModel _ _ => true
  | PObject _ b => b
  end.

(** Induction on values that reaches the items of lists and dictionaries. *)
Section PyvalInduction.
Variable P : pyval -> Prop.
Hypothesis HNone : P PNone.
Hypothesis HBool : forall b, P (PBool b).
Hypothesis HInt : forall n, P (PInt n).
Hypothesis HFloat : forall x, P (PFloat x).
Hypothesis HStr : forall s, P (PStr s).
Hypothesis HDecimal : forall d, P (PDecimal d).
Hypothesis HDatetime : forall t, P (PDatetime t).
Hypothesis HDate : forall d, P (PDate d).
Hypothesis HList : forall items, Forall P items -> P (PList items).
Hypothesis HTuple : forall items, Forall P items -> P (PTuple items).
Hypothesis HDict :
  forall items, Forall (fun kv : string * pyval => P kv.2) items -> P (PDict items).
Hypothesis HModel :
  forall type_name fields,
    Forall (fun kv : string * pyval => P kv.2) fields -> P (PModel type_name fields).
Hypothesis HObject : forall type_name truth, P (PObject type_name truth).

Fixpoint pyval_nested_ind (v : pyval) : P v :=
match v with
| PNone => HNone
| PBool b => HBool b
| PInt n => HInt n
| PFloat x => HFloat x
| PStr s => HStr s
| PDecimal d => HDecimal d
| PDatetime t => HDatetime t
| PDate d => HDate d
| PList items =>
    HList items
      ((fix all (l : list pyval) : Forall P l :=
          match l with
          | [] => @List.Forall_nil _ P
          | x :: rest => @List.Forall_cons _ P x rest (pyval_nested_ind x) (all rest)
          end) items)
| PTuple items =>
    HTuple items
      ((fix all (l : list pyval) : Forall P l :=
          match l with
          | [] => @List.Forall_nil _ P
          | x :: rest => @List.Forall_cons _ P x rest (pyval_nested_ind x) (all rest)
          end) items)
| PDict items =>
    HDict items
      ((fix all (l : list (string * pyval)) : Forall (fun kv => P kv.2) l :=
          match l with
          | [] => @List.Forall_nil _ _
          | kv :: rest => @List.Forall_cons _ _ kv rest (pyval_nested_ind kv.2) (all rest)
          end) items)
| PModel type_name fields =>
    HModel type_name fields
      ((fix all (l : list (string * pyval)) : Forall (fun kv => P kv.2) l :=
          match l with
          | [] => @List.Forall_nil _ _
          | kv :: rest => @List.Forall_cons _ _ kv rest (pyval_nested_ind kv.2) (all rest)
          end) fields)
| PObject type_name truth => HObject type_name truth
end.
End PyvalInduction.

(** Truth of an [Optional[str]]: [None] and the empty string are false. *)
Definition truthy_opt_str (o : option string) : bool :=
  match o with
  | None => false
  | Some s => negb (String.eqb s "")
  end.

(** [a or b] on [Optional[str]] operands. *)
Definition or_opt_str (a b : option string) : option string :=
  if truthy_opt_str a then a else b.

(** ** String methods *)

(** [s.startswith(p)] *)
Definition startswith (s p : string) : bool := String.prefix p s.

Fixpoint rev_string_acc (s acc : string) : string :=
  match s with
  | EmptyString => acc
  | String c r => rev_string_acc r (String c acc)
  end.

Definition rev_string (s : string) : string := rev_string_acc s EmptyString.

(** [s.endswith(p)] *)
Definition endswith (s p : string) : bool :=
  String.prefix (rev_string p) (rev_string s).

(** [p in s] for strings. *)
Fixpoint contains (s p : string) : bool :=
  String.prefix p s ||
  match s with
  | EmptyString => false
  | String _ r => contains r p
  end.

(** [s[1:]] and [s[:-1]] *)
Definition drop_first (s : string) : string :=
  match s with
  | EmptyString => EmptyString
  | String _ r => r
  end.

Definition drop_last (s : string) : string :=
  rev_string (drop_first (rev_string s)).

End Py.

Import Py.

(* ===================================================================== *)
(** * The keyed state store ([src/state/store.py]) *)
(* ===================================================================== *)

Module Store.

(** A [datetime] of the store is modelled by the number of microseconds
    since 0001-01-01T00:00:00, the order and the arithmetic of which are
    those of [datetime]; [datetime.max] is 9999-12-31T23:59:59.999999. *)
Definition MICROS : Z := 1000000.
Definition datetime_min : Z := 0.
Definition datetime_max : Z := 3652059 * 86400 * MICROS - 1.
Definition timedelta_max_days : Z := 999999999.

(** [timedelta(seconds=n)]: in microseconds; [OverflowError] when the
    number of days leaves [-999999999, 999999999]. *)
Definition timedelta_seconds (n : Z) : result Z :=
  if (Z.abs (n / 86400) <=? timedelta_max_days)
  then Ok (n * MICROS)
  else Raise (OverflowError ("days=" ++ NilZero.string_of_int (Z.to_int (n / 86400))
                             ++ "; must have magnitude <= 999999999")).

(** [t + delta] on a [datetime]: [OverflowError] outside the range. *)
Definition datetime_add (t delta : Z) : result Z :=
  if (datetime_min <=? t + delta) && (t + delta <=? datetime_max)
  then Ok (t + delta)
  else Raise (OverflowError "date value out of range").

(** [InMemoryStateStore]: the two dictionaries [_store] and [_expiry]. *)
Record InMemoryStateStore := Mk {
  _store : gmap string pyval;
  _expiry : gmap string Z
}.

(** [__init__] *)
Definition init : InMemoryStateStore := Mk ∅ ∅.

(** [expired = [key for key, expiry in self._expiry.items() if expiry <= now]] *)
Definition expired_keys (now : Z) (s : InMemoryStateStore) : list string :=
  (filter (fun kv : string * Z => bool_decide (kv.2 <= now)) (map_to_list (_expiry s))).*1.

(** One turn of [for key in expired:]: pop the key from both dictionaries. *)
Definition pop_key (s : InMemoryStateStore) (key : string) : InMemoryStateStore :=
  Mk (delete key (_store s)) (delete key (_expiry s)).

(** [_cleanup_expired], with [now] the reading of [datetime.utcnow()]. *)
Definition _cleanup_expired (now : Z) (s : InMemoryStateStore) : InMemoryStateStore :=
  foldl pop_key s (expired_keys now s).

(** [get]: [dict.get] returns [None] for a missing key. *)
Definition get (now : Z) (key : string) (s : InMemoryStateStore)
  : InMemoryStateStore * pyval :=
  let s1 := _cleanup_expired now s in
  (s1, default PNone (_store s1 !! key)).

(** [set]: the value is written before the expiry is computed, so an
    [OverflowError] of the date arithmetic leaves the value in place.  The
    clock is read once for the operation ([now]). *)
Definition set (now : Z) (key : string) (value : pyval) (ttl : option Z)
    (s : InMemoryStateStore) : InMemoryStateStore * result bool :=
  let s1 := _cleanup_expired now s in
  let s2 := Mk (<[key := value]> (_store s1)) (_expiry s1) in
  match ttl with
  | Some n =>
      match bind (timedelta_seconds n) (datetime_add now) with
      | Ok e => (Mk (_store s2) (<[key := e]> (_expiry s2)), Ok true)
      | Raise err => (s2, Raise err)
      end
  | None => (Mk (_store s2) (delete key (_expiry s2)), Ok true)
  end.

(** [delete] (named [delete_key] here, [delete] being the map operation) *)
Definition delete_key (now : Z) (key : string) (s : InMemoryStateStore)
  : InMemoryStateStore * bool :=
  let s1 := _cleanup_expired now s in
  match _store s1 !! key with
  | Some _ => (Mk (delete key (_store s1)) (delete key (_expiry s1)), true)
  | None => (s1, false)
  end.

(** [exists] (a reserved word here) *)
Definition key_exists (now : Z) (key : string) (s : InMemoryStateStore)
  : InMemoryStateStore * bool :=
  let s1 := _cleanup_expired now s in
  (s1, bool_decide (is_Some (_store s1 !! key))).

(** The filter of [list_keys]: a trailing [*] is a prefix pattern, a
    leading [*] a suffix pattern, anything else a substring. *)
Definition key_matches (pattern key : string) : bool :=
  if endswith pattern "*" then startswith key (drop_last pattern)
  else if startswith pattern "*" then endswith key (drop_first pattern)
  else contains key pattern.

(** [list_keys]; the keys come in the order of the finite map, which is
    not the insertion order of the Python dictionary. *)
Definition list_keys (now : Z) (pattern : option string) (s : InMemoryStateStore)
  : InMemoryStateStore * list string :=
  let s1 := _cleanup_expired now s in
  let keys := (map_to_list (_store s1)).*1 in
  (s1, if truthy_opt_str pattern
       then filter (fun k => Is_true (key_matches (default "" pattern) k)) keys
       else keys).

(** [clear]: no expiry pass; the count is the size of [_store] as it is. *)
Definition clear (s : InMemoryStateStore) : InMemoryStateStore * Z :=
  (Mk ∅ ∅, Z.of_nat (size (_store s))).


(** No expiry entry without a value. *)
Definition no_orphan_expiry (s : InMemoryStateStore) : Prop :=
  forall key, is_Some (_expiry s !! key) -> is_Some (_store s !! key).

(** The operations of the store interface. *)
Inductive op :=
| OpGet (key : string)
| OpSet (key : string) (value : pyval) (ttl : option Z)
| OpDelete (key : string)
| OpExists (key : string)
| OpListKeys (pattern : option string)
| OpClear.

(** What an operation returns. *)
Inductive retval :=
| RValue (v : pyval)
| RDone (r : result bool)
| RBool (b : bool)
| RKeys (keys : list string)
| RCount (n : Z).

(** An operation issued when the clock reads [now]: the store it leaves
    and what it returns. *)
Definition run (now : Z) (o : op) (s : InMemoryStateStore)
  : InMemoryStateStore * retval :=
  match o with
  | OpGet k => let r := get now k s in (r.1, RValue r.2)
  | OpSet k v ttl => let r := set now k v ttl s in (r.1, RDone r.2)
  | OpDelete k => let r := delete_key now k s in (r.1, RBool r.2)
  | OpExists k => let r := key_exists now k s in (r.1, RBool r.2)
  | OpListKeys p => let r := list_keys now p s in (r.1, RKeys r.2)
  | OpClear => let r := clear s in (r.1, RCount r.2)
  end.

Definition step (now : Z) (o : op) (s : InMemoryStateStore) : InMemoryStateStore :=
  (run now o s).1.

End Store.

(* ===================================================================== *)
(** * Dates and times ([datetime], [time.strptime]) *)
(* ===================================================================== *)

Module Time.

(** ** The calendar *)

Definition is_leap (y : Z) : bool :=
(y mod 4 =? 0) && (negb (y mod 100 =? 0) || (y mod 400 =? 0)).

Definition days_in_month (y m : Z) : Z :=
if m =? 2 then (if is_leap y then 29 else 28)
else if (m =? 4) || (m =? 6) || (m =? 9) || (m =? 11) then 30
else 31.

Definition MINYEAR : Z := 1.
Definition MAXYEAR : Z := 9999.

Definition between (lo x hi : Z) : bool := (lo <=? x) && (x <=? hi).

(** The checks of the [datetime] constructor on its fields. *)
Definition check_date_fields (y m d : Z) : result unit :=
if negb (between MINYEAR y MAXYEAR) then Raise (ValueError "year is out of range")
else if negb (between 1 m 12) then Raise (ValueError "month must be in 1..12")
else if negb (between 1 d (days_in_month y m))
     then Raise (ValueError "day is out of range for month")
else Ok tt.

Definition check_time_fields (h mi sec us : Z) : result unit :=
if negb (between 0 h 23) then Raise (ValueError "hour must be in 0..23")
else if negb (between 0 mi 59) then Raise (ValueError "minute must be in 0..59")
else if negb (between 0 sec 59) then Raise (ValueError "second must be in 0..59")
else if negb (between 0 us 999999) then Raise (ValueError "microsecond must be in 0..999999")
else Ok tt.

(** [datetime(y, m, d, h, mi, sec, us)] *)
Definition new_datetime (y m d h mi sec us : Z) : result datetime :=
bind (check_date_fields y m d) (fun _ =>
bind (check_time_fields h mi sec us) (fun _ =>
Ok (Datetime y m d h mi sec us))).

(** The datetimes Python can hold. *)
Definition valid_datetime (t : datetime) : bool :=
is_ok (new_datetime (year t) (month t) (day t) (hour t) (minute t) (second t)
         (microsecond t)).


(** [t.replace(hour=.., minute=.., second=.., microsecond=..)]: a new
    [datetime] from the fields, those not given taken from [t]. *)
Definition replace (t : datetime) (h mi sec us : option Z) : result datetime :=
new_datetime (year t) (month t) (day t)
  (default (hour t) h) (default (minute t) mi)
  (default (second t) sec) (default (microsecond t) us).

(** [a <= b] on naive datetimes: field by field. *)
Definition fields (t : datetime) : list Z :=
[year t; month t; day t; hour t; minute t; second t; microsecond t].

Fixpoint lex_leb (a b : list Z) : bool :=
match a, b with
| x :: a', y :: b' => if x <? y then true else if y <? x then false else lex_leb a' b'
| _, _ => true
end.

Definition datetime_leb (a b : datetime) : bool := lex_leb (fields a) (fields b).

(** The day after [(y, m, d)]; [OverflowError] past 9999-12-31. *)
Definition next_day (y m d : Z) : result (Z * Z * Z) :=
if d <? days_in_month y m then Ok (y, m, d + 1)
else if m <? 12 then Ok (y, m + 1, 1)
else if y <? MAXYEAR then Ok (y + 1, 1, 1)
else Raise (OverflowError "date value out of range").

(** [t + timedelta(hours=1)]: the hour carries into the day. *)
Definition plus_one_hour (t : datetime) : result datetime :=
if hour t + 1 <? 24
then Ok (Datetime (year t) (month t) (day t) (hour t + 1) (minute t) (second t)
           (microsecond t))
else bind (next_day (year t) (month t) (day t)) (fun '(y, m, d) =>
     Ok (Datetime y m d (hour t + 1 - 24) (minute t) (second t) (microsecond t))).

(** ** [isoformat] *)

Definition digit_char (n : Z) : ascii := ascii_of_N (Z.to_N (48 + n mod 10)).

(** [n] in decimal, zero-padded to [width] digits (the fields of a valid
    date or time are never wider). *)
Fixpoint zero_padded (width : nat) (n : Z) : string :=
match width with
| O => EmptyString
| S w => (zero_padded w (n / 10) ++ String (digit_char n) EmptyString)%string
end.

Definition date_isoformat (y m d : Z) : string :=
(zero_padded 4 y ++ "-" ++ zero_padded 2 m ++ "-" ++ zero_padded 2 d)%string.

(** [datetime.isoformat()]: the microseconds only when not zero. *)
Definition isoformat (t : datetime) : string :=
(date_isoformat (year t) (month t) (day t) ++ "T"
 ++ zero_padded 2 (hour t) ++ ":" ++ zero_padded 2 (minute t) ++ ":"
 ++ zero_padded 2 (second t)
 ++ (if Z.eqb (microsecond t) 0 then "" else "." ++ zero_padded 6 (microsecond t)))%string.

(** ** String methods used on time ranges *)

Definition code (c : ascii) : Z := Z.of_N (N_of_ascii c).

(** [str.isspace] and the class [\s], on code points below 256. *)
Definition is_space (c : ascii) : bool :=
let n := code c in
between 9 n 13 || between 28 n 32 || (n =? 133) || (n =? 160).

Definition is_digit (c : ascii) : bool := between 48 (code c) 57.

Definition digit_value (c : ascii) : Z := code c - 48.

(** [s.lstrip()], [s.rstrip()], [s.strip()] *)
Fixpoint lstrip (s : string) : string :=
match s with
| String c r => if is_space c then lstrip r else s
| EmptyString => EmptyString
end.

Definition strip (s : string) : string := rev_string (lstrip (rev_string (lstrip s))).

(** [s.split(sep)] for a separator of one character. *)
Fixpoint split_acc (sep : ascii) (s : string) (current : string) : list string :=
match s with
| EmptyString => [rev_string current]
| String c r =>
    if Ascii.eqb c sep then rev_string current :: split_acc sep r EmptyString
    else split_acc sep r (String c current)
end.

Definition split (sep : ascii) (s : string) : list string := split_acc sep s EmptyString.

(** ** [datetime.strptime(s, "%I:%M %p")]

    [_strptime] compiles the format to the regular expression
    [(?P<I>1[0-2]|0[1-9]|[1-9]):(?P<M>[0-5]\d|\d)\s+(?P<p>am|pm)], matched
    at the start of the string ignoring case.  Each piece below lists the
    ways it can match a prefix, in the order the backtracking matcher tries
    them, with what is left of the string. *)

Definition re_I (s : string) : list (Z * string) :=
(match s with
 | String "1" (String c r) => if between 48 (code c) 50 then [(10 + digit_value c, r)] else []
 | _ => []
 end ++
 match s with
 | String "0" (String c r) => if between 49 (code c) 57 then [(digit_value c, r)] else []
 | _ => []
 end ++
 match s with
 | String c r => if between 49 (code c) 57 then [(digit_value c, r)] else []
 | _ => []
 end)%list.

Definition re_char (p : ascii -> bool) (s : string) : list string :=
match s with
| String c r => if p c then [r] else []
| EmptyString => []
end.

Definition re_M (s : string) : list (Z * string) :=
(match s with
 | String c (String c' r) =>
     if between 48 (code c) 53 && is_digit c' then [(10 * digit_value c + digit_value c', r)]
     else []
 | _ => []
 end ++
 match s with
 | String c r => if is_digit c then [(digit_value c, r)] else []
 | _ => []
 end)%list.

(** [\s*] and [\s+], greedy: the longest run first. *)
Fixpoint re_spaces_star (s : string) : list string :=
match s with
| String c r => if is_space c then (re_spaces_star r ++ [s])%list else [s]
| EmptyString => [EmptyString]
end.

Definition re_spaces_plus (s : string) : list string :=
match s with
| String c r => if is_space c then re_spaces_star r else []
| EmptyString => []
end.

Definition is_letter (lower upper : ascii) (c : ascii) : bool :=
Ascii.eqb c lower || Ascii.eqb c upper.

(** [am|pm]: whether it is [pm], and the rest. *)
Definition re_p (s : string) : list (bool * string) :=
(match s with
 | String c (String c' r) => if is_letter "a" "A" c && is_letter "m" "M" c' then [(false, r)] else []
 | _ => []
 end ++
 match s with
 | String c (String c' r) => if is_letter "p" "P" c && is_letter "m" "M" c' then [(true, r)] else []
 | _ => []
 end)%list.

(** All matches of the whole expression, the matcher's own first. *)
Definition re_I_M_p (s : string) : list (Z * Z * bool * string) :=
flat_map (fun '(i, s1) =>
  flat_map (fun s2 =>
    flat_map (fun '(m, s3) =>
      flat_map (fun s4 =>
        map (fun '(pm, s5) => (i, m, pm, s5)) (re_p s4))
        (re_spaces_plus s3))
      (re_M s2))
    (re_char (Ascii.eqb ":") s1))
  (re_I s).

(** The hour of the day from [%I] and [%p]. *)
Definition hour_of (i : Z) (pm : bool) : Z :=
if pm then (if i =? 12 then 12 else i + 12)
else (if i =? 12 then 0 else i).

(** [datetime.strptime(s, "%I:%M %p")]: the date is 1900-01-01. *)
Definition strptime_I_M_p (s : string) : result datetime :=
match re_I_M_p s with
| [] => Raise (ValueError ("time data '" ++ s ++ "' does not match format '%I:%M %p'"))
| (i, m, pm, rest) :: _ =>
    match rest with
    | EmptyString => Ok (Datetime 1900 1 1 (hour_of i pm) m 0 0)
    | _ => Raise (ValueError ("unconverted data remains: " ++ rest))
    end
end.

End Time.

Import Time.

(* ===================================================================== *)
(** * SHA-256 and HMAC ([hashlib.sha256], [hmac.new(...).hexdigest()]) *)
(* ===================================================================== *)

Module Sha256.

(** Words are 32-bit integers held in [Z]; bytes are integers below 256. *)
Definition wrap (x : Z) : Z := x mod 2 ^ 32.

Definition rotr (n x : Z) : Z :=
Z.lor (Z.shiftr x n) (wrap (Z.shiftl x (32 - n))).

Definition xor3 (a b c : Z) : Z := Z.lxor (Z.lxor a b) c.

Definition Ch (x y z : Z) : Z :=
Z.lxor (Z.land x y) (Z.land (Z.lxor x (2 ^ 32 - 1)) z).

Definition Maj (x y z : Z) : Z := xor3 (Z.land x y) (Z.land x z) (Z.land y z).

Definition big_sigma0 (x : Z) : Z := xor3 (rotr 2 x) (rotr 13 x) (rotr 22 x).
Definition big_sigma1 (x : Z) : Z := xor3 (rotr 6 x) (rotr 11 x) (rotr 25 x).
Definition small_sigma0 (x : Z) : Z := xor3 (rotr 7 x) (rotr 18 x) (Z.shiftr x 3).
Definition small_sigma1 (x : Z) : Z := xor3 (rotr 17 x) (rotr 19 x) (Z.shiftr x 10).

(** The constants are the fractional bits of the square and cube roots of
    the first primes. *)
Definition is_prime (n : Z) : bool :=
(1 <? n) && forallb (fun d => negb (n mod Z.of_nat d =? 0)) (seq 2 (Z.to_nat n - 2)).

Definition first_primes : list Z :=
Eval vm_compute in List.filter is_prime (map Z.of_nat (seq 2 310)).

Fixpoint cube_root_bits (bits : nat) (n r : Z) : Z :=
match bits with
| O => r
| S b =>
    let c := r + 2 ^ Z.of_nat b in
    cube_root_bits b n (if c * c * c <=? n then c else r)
end.

Definition cube_root (n : Z) : Z := cube_root_bits 40 n 0.

Definition round_constants : list Z :=
Eval vm_compute in map (fun p => wrap (cube_root (p * 2 ^ 96))) first_primes.

Definition initial_hash : list Z :=
Eval vm_compute in map (fun p => wrap (Z.sqrt (p * 2 ^ 64))) (take 8 first_primes).

(** [x] as [n] bytes, most significant first. *)
Fixpoint be_bytes (n : nat) (x : Z) : list Z :=
match n with
| O => []
| S k => (be_bytes k (x / 256) ++ [x mod 256])%list
end.

Definition be_word (bytes : list Z) : Z := fold_left (fun acc b => acc * 256 + b) bytes 0.

Definition pad (msg : list Z) : list Z :=
let len := Z.of_nat (length msg) in
(msg ++ [128] ++ repeat 0 (Z.to_nat ((55 - len) mod 64)) ++ be_bytes 8 (8 * len))%list.

(** The list cut into runs of [size] elements. *)
Fixpoint chunks_fuel {A} (fuel size : nat) (l : list A) : list (list A) :=
match fuel, l with
| O, _ => []
| _, [] => []
| S f, _ => take size l :: chunks_fuel f size (drop size l)
end.

Definition chunks {A} (size : nat) (l : list A) : list (list A) :=
chunks_fuel (length l) size l.

Definition word_at (w : list Z) (i : nat) : Z := nth i w 0.

(** The message schedule: 16 words of the block, extended to 64. *)
Fixpoint extend_schedule (n : nat) (w : list Z) : list Z :=
match n with
| O => w
| S k =>
    let t := length w in
    extend_schedule k
      (w ++ [wrap (small_sigma1 (word_at w (t - 2)) + word_at w (t - 7)
                   + small_sigma0 (word_at w (t - 15)) + word_at w (t - 16))])%list
end.

Definition schedule (block : list Z) : list Z :=
extend_schedule 48 (map be_word (chunks 4 block)).

(** One round on the working variables [a..h]. *)
Definition round (v : list Z) (kw : Z * Z) : list Z :=
match v with
| [a; b; c; d; e; f; g; h] =>
    let t1 := h + big_sigma1 e + Ch e f g + kw.1 + kw.2 in
    let t2 := big_sigma0 a + Maj a b c in
    [wrap (t1 + t2); a; b; c; wrap (d + t1); e; f; g]
| _ => v
end.

Definition compress (h : list Z) (block : list Z) : list Z :=
let v := fold_left round (combine round_constants (schedule block)) h in
map (fun xy : Z * Z => wrap (xy.1 + xy.2)) (combine h v).

(** [hashlib.sha256(msg).digest()] *)
Definition sha256 (msg : list Z) : list Z :=
flat_map (be_bytes 4) (fold_left compress (chunks 64 (pad msg)) initial_hash).

(** [hmac.new(key, msg, hashlib.sha256).digest()] *)
Definition hmac_sha256 (key msg : list Z) : list Z :=
let key := if (64 <? Z.of_nat (length key)) then sha256 key else key in
let key := (key ++ repeat 0 (64 - length key))%list in
let ipad := map (Z.lxor 54) key in
let opad := map (Z.lxor 92) key in
sha256 (opad ++ sha256 (ipad ++ msg))%list.

Definition hex_digits : list ascii := list_ascii_of_string "0123456789abcdef".

Definition hex_digit (n : Z) : ascii := nth (Z.to_nat n) hex_digits "0"%char.

(** [bytes.hex()] *)
Definition hex (bytes : list Z) : string :=
string_of_list_ascii (flat_map (fun b => [hex_digit (b / 16); hex_digit (b mod 16)]) bytes).

(** [s.encode("utf-8")], for code points below 256. *)
Definition utf8 (s : string) : list Z :=
flat_map (fun c : ascii =>
            let n := Z.of_N (N_of_ascii c) in
            if n <? 128 then [n] else [Z.lor 192 (Z.shiftr n 6); Z.lor 128 (Z.land n 63)])
  (list_ascii_of_string s).

(** [hmac.new(key.encode("utf-8"), msg.encode("utf-8"), hashlib.sha256).hexdigest()] *)
Definition hmac_sha256_hexdigest (key msg : string) : string :=
hex (hmac_sha256 (utf8 key) (utf8 msg)).

End Sha256.

(* ===================================================================== *)
(** * JSON text ([json.dumps(.., sort_keys=True, cls=CustomEncoder)]) *)
(* ===================================================================== *)

Module Json.

Definition char_string (n : N) : string := String (ascii_of_N n) EmptyString.

Definition double_quote : string := char_string 34.

(** [\uXXXX] for a code point below 256. *)
Definition unicode_escape (n : Z) : string :=
("\u00" ++ String (Sha256.hex_digit (n / 16)) (String (Sha256.hex_digit (n mod 16)) EmptyString))%string.

(** The replacement of one character by [encode_basestring_ascii]. *)
Definition escape_char (c : ascii) : string :=
let n := Time.code c in
if n =? 34 then ("\" ++ double_quote)%string
else if n =? 92 then "\\"
else if n =? 10 then "\n"
else if n =? 13 then "\r"
else if n =? 9 then "\t"
else if n =? 12 then "\f"
else if n =? 8 then "\b"
else if between 32 n 126 then String c EmptyString
else unicode_escape n.

Fixpoint escape (s : string) : string :=
match s with
| EmptyString => EmptyString
| String c r => (escape_char c ++ escape r)%string
end.

(** A string as JSON text ([ensure_ascii] is on). *)
Definition encode_basestring_ascii (s : string) : string :=
(double_quote ++ escape s ++ double_quote)%string.

(** [int.__repr__] *)
Definition int_repr (n : Z) : string := NilZero.string_of_int (Z.to_int n).

(** The conversion of an [int] to text is limited to 4300 digits, the sign
    not counted ([sys.get_int_max_str_digits()]): beyond, [int.__repr__]
    raises [ValueError], also inside the encoder. *)
Definition int_digits (n : Z) : Z := Z.of_nat (String.length (int_repr (Z.abs n))).

Definition int_has_text (n : Z) : bool := int_digits n <=? 4300.

Definition intstr (n : Z) : result string :=
if int_has_text n then Ok (int_repr n)
else Raise (ValueError
  "Exceeds the limit (4300 digits) for integer string conversion; use sys.set_int_max_str_digits() to increase the limit").

(** [floatstr]: [float.__repr__], but for the three values JSON spells
    otherwise ([allow_nan] is on). *)
Definition floatstr (x : pyfloat) : string :=
let r := float_repr x in
if String.eqb r "nan" then "NaN"
else if String.eqb r "inf" then "Infinity"
else if String.eqb r "-inf" then "-Infinity"
else r.

(** [", ".join(parts)] *)
Fixpoint join (sep : string) (parts : list string) : string :=
match parts with
| [] => EmptyString
| [x] => x
| x :: rest => (x ++ sep ++ join sep rest)%string
end.

(** The first exception of a list of outcomes, or all the values. *)
Fixpoint sequence {A} (l : list (result A)) : result (list A) :=
match l with
| [] => Ok []
| r :: rest => bind r (fun a => bind (sequence rest) (fun l' => Ok (a :: l')))
end.

(** [sorted(dct.items())]: by key (the keys of a dictionary differ). *)
Fixpoint insert_by_key {A} (kv : string * A) (l : list (string * A)) : list (string * A) :=
match l with
| [] => [kv]
| kv' :: rest =>
    if String.leb kv.1 kv'.1 then kv :: l else kv' :: insert_by_key kv rest
end.

Fixpoint sort_items {A} (l : list (string * A)) : list (string * A) :=
match l with
| [] => []
| kv :: rest => insert_by_key kv (sort_items rest)
end.

(** [CustomEncoder.default], for what the encoder does not know: a
    [Decimal] becomes a float, a [datetime] or [date] its ISO text; anything
    else is passed to [JSONEncoder.default], which raises [TypeError]. *)
Definition default_float (d : Decimal) : result pyfloat :=
match dec_float d with
| Some x => Ok x
| None => Raise (ValueError "cannot convert signaling NaN to float")
end.

Definition not_serializable (type_name : string) : exn :=
TypeError ("Object of type " ++ type_name ++ " is not JSON serializable").

(** The JSON text of a value.  The encoder knows nothing of pydantic: a
    model object that reaches it is an object of an unknown class. *)
Fixpoint encode (v : pyval) : result string :=
match v with
| PNone => Ok "null"
| PBool b => Ok (if b then "true" else "false")
| PInt n => intstr n
| PFloat x => Ok (floatstr x)
| PStr s => Ok (encode_basestring_ascii s)
| PDecimal d => bind (default_float d) (fun x => Ok (floatstr x))
| PDatetime t => Ok (encode_basestring_ascii (isoformat t))
| PDate d => Ok (encode_basestring_ascii (date_isoformat (d_year d) (d_month d) (d_day d)))
| PList items | PTuple items =>
    bind (sequence (map encode items)) (fun parts => Ok ("[" ++ join ", " parts ++ "]")%string)
| PDict items =>
    bind (sequence
            (map (fun kv : string * result string =>
                    bind kv.2 (fun text => Ok (encode_basestring_ascii kv.1 ++ ": " ++ text)%string))
               (sort_items (map (fun kv : string * pyval => (kv.1, encode kv.2)) items))))
      (fun parts => Ok ("{" ++ join ", " parts ++ "}")%string)
| PModel type_name _ | PObject type_name _ => Raise (not_serializable type_name)
end.


End Json.

(* ===================================================================== *)
(** * The envelope ([src/a2a/protocol.py]) *)
(* ===================================================================== *)

Module Envelope.

(** [A2AMetadata] *)
Record A2AMetadata := Meta {
  sender : string;
  receiver : option string;
  priority : Z;
  ttl : Z
}.

(** [A2AMessage]; [payload] is a [Dict[str, Any]]. *)
Record A2AMessage := Message {
  message_id : string;
  trace_id : string;
  correlation_id : string;
  message_type : string;
  version : string;
  timestamp : datetime;
  payload : list (string * pyval);
  meta : A2AMetadata;
  signature : option string
}.

(** [A2AMessageType] *)
Definition HANDSHAKE := "handshake".
Definition ACK := "ack".
Definition PROPOSAL := "proposal".
Definition OPTIMIZED_PLAN := "optimized_plan".
Definition STATE_UPDATE := "state_update".
Definition QUERY := "query".
Definition RESPONSE := "response".
Definition CANCEL := "cancel".

(** [Settings], as far as the core reads it.  The class declares no
    [redis_url]. *)
Record Settings := MkSettings {
  a2a_shared_secret : string;
  state_backend : string
}.

(** What [model_dump()] makes of a value held in a field of type [Any]: a
    model object (or a dataclass) becomes the dictionary of its fields,
    wherever it is held; the other values are kept ([Decimal]s and
    [datetime]s as they are). *)
Fixpoint model_dump (v : pyval) : pyval :=
match v with
| PList items => PList (map model_dump items)
| PTuple items => PTuple (map model_dump items)
| PDict items => PDict (map (fun kv : string * pyval => (kv.1, model_dump kv.2)) items)
| PModel _ fields => PDict (map (fun kv : string * pyval => (kv.1, model_dump kv.2)) fields)
| _ => v
end.

(** [A2AMessage.to_dict]: [model_dump()], with the timestamp as ISO text. *)
Definition to_dict (m : A2AMessage) : list (string * pyval) :=
[ ("message_id", PStr (message_id m));
  ("trace_id", PStr (trace_id m));
  ("correlation_id", PStr (correlation_id m));
  ("message_type", PStr (message_type m));
  ("version", PStr (version m));
  ("timestamp", PStr (isoformat (timestamp m)));
  ("payload", model_dump (PDict (payload m)));
  ("meta", PDict [ ("sender", PStr (sender (meta m)));
                   ("receiver", match receiver (meta m) with
                                | Some r => PStr r
                                | None => PNone
                                end);
                   ("priority", PInt (priority (meta m)));
                   ("ttl", PInt (ttl (meta m))) ]);
  ("signature", match signature m with Some sig => PStr sig | None => PNone end) ].

(** [d.pop(key, None)] *)
Definition pop (key : string) (d : list (string * pyval)) : list (string * pyval) :=
List.filter (fun kv => negb (String.eqb kv.1 key)) d.

(** The canonical text that is signed: every field but the signature. *)
Definition canonical (m : A2AMessage) : result string :=
Json.encode (PDict (pop "signature" (to_dict m))).

(** [compute_hmac_signature] *)
Definition compute_hmac_signature (m : A2AMessage) (secret : string) : result string :=
bind (canonical m) (fun text => Ok (Sha256.hmac_sha256_hexdigest secret text)).

Definition with_signature (m : A2AMessage) (sig : option string) : A2AMessage :=
Message (message_id m) (trace_id m) (correlation_id m) (message_type m) (version m)
  (timestamp m) (payload m) (meta m) sig.

Definition with_payload (m : A2AMessage) (p : list (string * pyval)) : A2AMessage :=
Message (message_id m) (trace_id m) (correlation_id m) (message_type m) (version m)
  (timestamp m) p (meta m) (signature m).

(** [if secret is None: secret = get_settings().a2a_shared_secret] *)
Definition secret_or_default (settings : Settings) (secret : option string) : string :=
match secret with
| None => a2a_shared_secret settings
| Some s => s
end.

(** [sign_message] *)
Definition sign_message (settings : Settings) (m : A2AMessage) (secret : option string)
  : result A2AMessage :=
bind (compute_hmac_signature m (secret_or_default settings secret)) (fun sig =>
Ok (with_signature m (Some sig))).

Definition is_ascii_char (c : ascii) : bool := Time.code c <? 128.

(** [hmac.compare_digest] on strings: [TypeError] unless both are ASCII. *)
Definition compare_digest (a b : string) : result bool :=
if forallb is_ascii_char (list_ascii_of_string a) && forallb is_ascii_char (list_ascii_of_string b)
then Ok (String.eqb a b)
else Raise (TypeError "comparing strings with non-ASCII characters is not supported").

(** [verify_message] *)
Definition verify_message (settings : Settings) (m : A2AMessage) (secret : option string)
  : result bool :=
match signature m with
| None => Ok false
| Some sig =>
    bind (compute_hmac_signature m (secret_or_default settings secret)) (fun expected =>
    compare_digest sig expected)
end.


End Envelope.

Import Envelope.

(* ===================================================================== *)
(** * The in-memory message bus ([src/a2a/adapters/in_memory.py]) *)
(* ===================================================================== *)

Module Bus.

(** A subscriber callback: its identity, and the exception it raises on a
    message, if any.  What else a callback does lies outside the bus. *)
Record callback := Callback {
  cb_id : nat;
  cb_raises : A2AMessage -> option exn
}.

(** What a bus operation does besides changing the adapter: log records
    and calls of subscriber callbacks, in order. *)
Inductive effect :=
| Log (level : string) (text : string)
| Invoke (cb : nat) (message : A2AMessage).

(** [InMemoryAdapter]: the queues and the subscribers are [defaultdict]s
    of lists. *)
Record InMemoryA2AAdapter := Adapter {
  _queues : gmap string (list A2AMessage);
  _subscribers : gmap string (list callback);
  _message_history : list A2AMessage;
  _max_history : Z
}.

(** [__init__] *)
Definition init : InMemoryA2AAdapter := Adapter ∅ ∅ [] 1000.

(** [for callback in self._subscribers[target]: try: callback(message)
    except Exception as e: logger.error(...)]: the calls made, and the
    exception that ends the loop when a callback raises one that is not an
    [Exception]. *)
Fixpoint notify (cbs : list callback) (message : A2AMessage)
  : list effect * option exn :=
  match cbs with
  | [] => ([], None)
  | cb :: rest =>
      match cb_raises cb message with
      | None =>
          let r := notify rest message in (Invoke (cb_id cb) message :: r.1, r.2)
      | Some e =>
          if exn_is_Exception e
          then let r := notify rest message in
               (Invoke (cb_id cb) message
                  :: Log "error" ("Error in subscriber callback: " ++ exn_msg e) :: r.1, r.2)
          else ([Invoke (cb_id cb) message], Some e)
      end
  end.

(** [send_message] *)
Definition send_message (a : InMemoryA2AAdapter) (message : A2AMessage)
    (receiver : option string)
  : InMemoryA2AAdapter * result bool * list effect :=
  match or_opt_str receiver (Envelope.receiver (meta message)) with
  | None => (a, Ok false, [Log "warning" "No receiver specified for message"])
  | Some target =>
      let queues := <[target := (default [] (_queues a !! target) ++ [message])%list]> (_queues a) in
      let appended := (_message_history a ++ [message])%list in
      let history :=
        if _max_history a <? Z.of_nat (length appended) then drop 1 appended else appended in
      let a1 := Adapter queues (_subscribers a) history (_max_history a) in
      let sent := Log "info" ("Message sent to " ++ target) in
      match _subscribers a !! target with
      | Some cbs =>
          let r := notify cbs message in
          (a1, match r.2 with None => Ok true | Some e => Raise e end, sent :: r.1)
      | None => (a1, Ok true, [sent])
      end
  end.

(** [for i, msg in enumerate(queue): if msg.message_type == message_type:
    return queue.pop(i)]: the first match and the queue without it. *)
Fixpoint pop_first_of_type (message_type : string) (queue : list A2AMessage)
  : option (A2AMessage * list A2AMessage) :=
  match queue with
  | [] => None
  | msg :: rest =>
      if String.eqb (Envelope.message_type msg) message_type
      then Some (msg, rest)
      else match pop_first_of_type message_type rest with
           | Some (m, rest') => Some (m, msg :: rest')
           | None => None
           end
  end.

(** One pass of the critical section of [receive_message]. *)
Definition receive_poll (a : InMemoryA2AAdapter) (agent_id : string)
    (message_type : option string)
  : option A2AMessage * InMemoryA2AAdapter :=
  let queue := default [] (_queues a !! agent_id) in
  let put q := Adapter (<[agent_id := q]> (_queues a)) (_subscribers a)
                 (_message_history a) (_max_history a) in
  if truthy_opt_str message_type then
    match pop_first_of_type (default "" message_type) queue with
    | Some (m, rest) => (Some m, put rest)
    | None => (None, a)
    end
  else
    match queue with
    | m :: rest => (Some m, put rest)
    | [] => (None, a)
    end.

(** [subscribe] *)
Definition subscribe (a : InMemoryA2AAdapter) (agent_id : string) (cb : callback)
  : InMemoryA2AAdapter :=
  Adapter (_queues a)
    (<[agent_id := (default [] (_subscribers a !! agent_id) ++ [cb])%list]> (_subscribers a))
    (_message_history a) (_max_history a).

(** [list.remove]: the first occurrence, callbacks compared by identity. *)
Fixpoint remove_callback (cb : callback) (l : list callback) : list callback :=
  match l with
  | [] => []
  | c :: rest => if Nat.eqb (cb_id c) (cb_id cb) then rest else c :: remove_callback cb rest
  end.

(** [unsubscribe] *)
Definition unsubscribe (a : InMemoryA2AAdapter) (agent_id : string) (cb : callback)
  : InMemoryA2AAdapter :=
  match _subscribers a !! agent_id with
  | Some cbs =>
      if existsb (fun c => Nat.eqb (cb_id c) (cb_id cb)) cbs
      then Adapter (_queues a) (<[agent_id := remove_callback cb cbs]> (_subscribers a))
             (_message_history a) (_max_history a)
      else a
  | None => a
  end.

(** [l[start:]] *)
Definition slice_from {A} (start : Z) (l : list A) : list A :=
  let n := Z.of_nat (length l) in
  let i := if start <? 0 then Z.max (n + start) 0 else Z.min start n in
  drop (Z.to_nat i) l.

(** [if trace_id: messages = [m for m in messages if m.trace_id == trace_id]] *)
Definition filter_by (field : A2AMessage -> string) (wanted : option string)
    (messages : list A2AMessage) : list A2AMessage :=
  if truthy_opt_str wanted
  then List.filter (fun m => String.eqb (field m) (default "" wanted)) messages
  else messages.

(** [get_message_history] *)
Definition get_message_history (a : InMemoryA2AAdapter)
    (trace_id correlation_id : option string) (limit : Z) : list A2AMessage :=
  let messages := _message_history a in
  let messages := filter_by Envelope.trace_id trace_id messages in
  let messages := filter_by Envelope.correlation_id correlation_id messages in
  slice_from (- limit) messages.

(** The history operation as the specification words it: the matching
    envelopes newest first, at most [limit] of them. *)
Definition history_newest_first (a : InMemoryA2AAdapter)
    (trace_id correlation_id : option string) (limit : Z) : list A2AMessage :=
  take (Z.to_nat limit)
    (rev (filter_by Envelope.correlation_id correlation_id
            (filter_by Envelope.trace_id trace_id (_message_history a)))).

(** [clear_queue] *)
Definition clear_queue (a : InMemoryA2AAdapter) (agent_id : string)
  : InMemoryA2AAdapter * Z :=
  (Adapter (<[agent_id := []]> (_queues a)) (_subscribers a)
     (_message_history a) (_max_history a),
   Z.of_nat (length (default [] (_queues a !! agent_id)))).

(** [get_queue_size] *)
Definition get_queue_size (a : InMemoryA2AAdapter) (agent_id : string) : Z :=
  Z.of_nat (length (default [] (_queues a !! agent_id))).

End Bus.

(* ===================================================================== *)
(** * Task contexts and monitoring events ([src/models/itinerary.py]) *)
(* ===================================================================== *)

Module Model.

(** [TaskStatus] *)
Inductive TaskStatus := PENDING | RUNNING | COMPLETED | FAILED | CANCELLED.

(** [TaskContext], as far as the orchestrator reads and writes it. *)
Record TaskContext := Context {
  ctx_task_id : string;
  ctx_correlation_id : string;
  ctx_trace_id : string;
  ctx_request_params : list (string * pyval);
  ctx_status : TaskStatus
}.

Definition with_status (c : TaskContext) (st : TaskStatus) : TaskContext :=
Context (ctx_task_id c) (ctx_correlation_id c) (ctx_trace_id c) (ctx_request_params c) st.

(** [EventType] and [EventSeverity] *)
Inductive EventType :=
| TASK_START | TASK_PROGRESS | TASK_END | TASK_ERROR | STATE_CHANGE | API_CALL | AGENT_MESSAGE.

Inductive EventSeverity := SEV_DEBUG | SEV_INFO | SEV_WARNING | SEV_ERROR | SEV_CRITICAL.

(** [MonitoringEvent] *)
Record MonitoringEvent := Event {
  event_id : string;
  event_type : EventType;
  severity : EventSeverity;
  ev_timestamp : Z;
  ev_trace_id : string;
  ev_correlation_id : string;
  ev_task_id : option string;
  ev_agent_id : option string;
  ev_message : string;
  ev_data : list (string * pyval);
  ev_error : option (list (string * string))
}.

(** A listener of monitoring events: its identity, and the exception it
    raises on an event, if any. *)
Record listener := Listener {
  l_id : nat;
  l_raises : MonitoringEvent -> option exn
}.

(** [MonitoringCallbacks]: the ids it stamps on every event, and the
    listeners registered. *)
Record MonitoringCallbacks := Callbacks {
  cb_trace_id : string;
  cb_correlation_id : string;
  _listeners : list listener
}.

(** The itinerary, as far as the orchestrator reads it back. *)
Record Itinerary := MkItinerary {
  itinerary_id : string;
  total_cost_total : Decimal
}.

(** [d.get(key)] and [d[key] = value] on a dictionary. *)
Fixpoint dict_get (d : list (string * pyval)) (key : string) : pyval :=
match d with
| [] => PNone
| (k, v) :: rest => if String.eqb k key then v else dict_get rest key
end.

Fixpoint dict_set (d : list (string * pyval)) (key : string) (value : pyval)
  : list (string * pyval) :=
match d with
| [] => [(key, value)]
| (k, v) :: rest =>
    if String.eqb k key then (k, value) :: rest else (k, v) :: dict_set rest key value
end.

End Model.

Import Model.

(* ===================================================================== *)
(** * The listeners of the monitoring callbacks ([src/callbacks/monitoring.py]) *)
(* ===================================================================== *)

Module Monitoring.

(** What [_emit_event] does: calls of listeners and error log records. *)
Inductive effect :=
| Call (listener : nat) (event : MonitoringEvent)
| LogError (text : string).

(** [register_listener]: [self._listeners.append(listener)] *)
Definition register_listener (listeners : list listener) (l : listener) : list listener :=
(listeners ++ [l])%list.

(** [_emit_event]: [for listener in self._listeners: try: listener(event)
    except Exception as e: logger.error(...)]; the exception that ends the
    loop when a listener raises one that is not an [Exception]. *)
Fixpoint _emit_event (listeners : list listener) (event : MonitoringEvent)
  : list effect * option exn :=
match listeners with
| [] => ([], None)
| l :: rest =>
    match l_raises l event with
    | None =>
        let r := _emit_event rest event in (Call (l_id l) event :: r.1, r.2)
    | Some e =>
        if exn_is_Exception e
        then let r := _emit_event rest event in
             (Call (l_id l) event
                :: LogError ("Error in monitoring listener: " ++ exn_msg e) :: r.1, r.2)
        else ([Call (l_id l) event], Some e)
    end
end.

(** The listeners called, in the order of the calls. *)
Fixpoint called (effects : list effect) : list nat :=
match effects with
| [] => []
| Call l _ :: rest => l :: called rest
| LogError _ :: rest => called rest
end.

End Monitoring.

(* ===================================================================== *)
(** * The orchestrator ([src/workflows/dynamic_planner.py]) *)
(* ===================================================================== *)

Module Planner.

(** [base_date.replace(hour=9, minute=0), base_date.replace(hour=10, minute=0)] *)
Definition default_window (base_date : datetime) : result (datetime * datetime) :=
bind (replace base_date (Some 9) (Some 0) None None) (fun from_nine =>
bind (replace base_date (Some 10) (Some 0) None None) (fun to_ten =>
Ok (from_nine, to_ten))).

(** The body of the [try] of [_parse_time_range]. *)
Definition parse_time_range_body (time_str : string) (base_date : datetime)
  : result (datetime * datetime) :=
if negb (truthy (PStr time_str)) || negb (contains time_str "-")
then default_window base_date
else
  match map strip (split "-" time_str) with
  | [start_raw; end_raw] =>
      bind (strptime_I_M_p start_raw) (fun start_dt =>
      bind (strptime_I_M_p end_raw) (fun end_dt =>
      bind (replace base_date (Some (hour start_dt)) (Some (minute start_dt))
              (Some 0) (Some 0)) (fun start_full =>
      bind (replace base_date (Some (hour end_dt)) (Some (minute end_dt))
              (Some 0) (Some 0)) (fun end_full =>
      if datetime_leb end_full start_full
      then bind (plus_one_hour start_full) (fun end_fixed => Ok (start_full, end_fixed))
      else Ok (start_full, end_full)))))
  | _ => default_window base_date
  end.

(** [_parse_time_range]: whatever [Exception] the body raises, the default
    window is returned. *)
Definition _parse_time_range (time_str : string) (base_date : datetime)
  : result (datetime * datetime) :=
try_except_Exception (parse_time_range_body time_str base_date)
  (fun _ => default_window base_date).

(** ** The process state

    What the orchestrator shares with the agents and the event loop: the
    clock, the two global singletons ([_adapter], [_state_store]), the
    settings, the events handed to the monitoring listeners (oldest
    first), the number of [uuid4()] drawn, and the context object of the
    run. *)
Record World := MkWorld {
  w_now : Z;
  w_adapter : Bus.InMemoryA2AAdapter;
  w_state_store : option Store.InMemoryStateStore;
  w_settings : Settings;
  w_emitted : list MonitoringEvent;
  w_uuids : Z;
  w_context : option TaskContext
}.

Definition set_adapter (w : World) (a : Bus.InMemoryA2AAdapter) : World :=
MkWorld (w_now w) a (w_state_store w) (w_settings w) (w_emitted w) (w_uuids w) (w_context w).

Definition set_state_store (w : World) (s : Store.InMemoryStateStore) : World :=
MkWorld (w_now w) (w_adapter w) (Some s) (w_settings w) (w_emitted w) (w_uuids w)
  (w_context w).

Definition set_emitted (w : World) (events : list MonitoringEvent) : World :=
MkWorld (w_now w) (w_adapter w) (w_state_store w) (w_settings w) events (w_uuids w)
  (w_context w).

Definition set_uuids (w : World) (n : Z) : World :=
MkWorld (w_now w) (w_adapter w) (w_state_store w) (w_settings w) (w_emitted w) n
  (w_context w).

Definition set_context (w : World) (c : option TaskContext) : World :=
MkWorld (w_now w) (w_adapter w) (w_state_store w) (w_settings w) (w_emitted w) (w_uuids w) c.

Definition set_now (w : World) (t : Z) : World :=
MkWorld t (w_adapter w) (w_state_store w) (w_settings w) (w_emitted w) (w_uuids w)
  (w_context w).

(** A coroutine of the process: from a state, the state it leaves and its
    outcome; [None] when it is still waiting after the allotted turns of
    the event loop. *)
Definition M (A : Type) : Type := World -> World * option (result A).

Definition ret {A} (a : A) : M A := fun w => (w, Some (Ok a)).

Definition raise {A} (e : exn) : M A := fun w => (w, Some (Raise e)).

Definition mbind {A B} (c : M A) (k : A -> M B) : M B :=
fun w =>
  match c w with
  | (w1, Some (Ok a)) => k a w1
  | (w1, Some (Raise e)) => (w1, Some (Raise e))
  | (w1, None) => (w1, None)
  end.

Notation "x <- c ;; k" := (mbind c (fun x => k))
  (at level 100, c at next level, right associativity).
Notation "c ;;; k" := (mbind c (fun _ => k))
  (at level 100, right associativity).

(** [try: body  except Exception as e: handler] *)
Definition try_except {A} (body : M A) (handler : exn -> M A) : M A :=
fun w =>
  match body w with
  | (w1, Some (Raise e)) => if exn_is_Exception e then handler e w1 else (w1, Some (Raise e))
  | r => r
  end.

(** [str(uuid.uuid4())]: a fresh identifier at each call. *)
Definition uuid4 : M string :=
fun w => (set_uuids w (w_uuids w + 1), Some (Ok ("uuid-" ++ Json.int_repr (w_uuids w))%string)).

Definition clock : M Z := fun w => (w, Some (Ok (w_now w))).

(** ** Monitoring callbacks ([src/callbacks/monitoring.py]) *)

(** [_emit_event]: the event is handed to the registered listeners, in
    order; an [Exception] of a listener is logged and stops nothing, what
    else a listener raises ends the loop and is raised to the caller. *)
Definition _emit_event (cb : MonitoringCallbacks) (event : MonitoringEvent) : M unit :=
fun w =>
  (set_emitted w (w_emitted w ++ [event]),
   match (Monitoring._emit_event (_listeners cb) event).2 with
   | None => Some (Ok tt)
   | Some e => Some (Raise e)
   end).

Definition on_task_start (cb : MonitoringCallbacks) (task_id : string)
    (agent_id : option string) (message : string) (data : option (list (string * pyval)))
  : M unit :=
id <- uuid4 ;; t <- clock ;;
_emit_event cb (Event id TASK_START SEV_INFO t (cb_trace_id cb) (cb_correlation_id cb)
               (Some task_id) agent_id message (default [] data) None).

Definition on_task_progress (cb : MonitoringCallbacks) (task_id : string)
    (progress : pyfloat) (agent_id : option string) (message : string)
    (data : option (list (string * pyval)))
  : M unit :=
let event_data := dict_set (default [] data) "progress" (PFloat progress) in
id <- uuid4 ;; t <- clock ;;
_emit_event cb (Event id TASK_PROGRESS SEV_INFO t (cb_trace_id cb) (cb_correlation_id cb)
               (Some task_id) agent_id message event_data None).

Definition on_task_end (cb : MonitoringCallbacks) (task_id : string)
    (agent_id : option string) (message : string) (data : option (list (string * pyval)))
  : M unit :=
id <- uuid4 ;; t <- clock ;;
_emit_event cb (Event id TASK_END SEV_INFO t (cb_trace_id cb) (cb_correlation_id cb)
               (Some task_id) agent_id message (default [] data) None).

(** The event [on_task_error] builds: the error's class name and text. *)
Definition task_error_event (cb : MonitoringCallbacks) (id : string) (t : Z)
    (task_id : string) (error : exn) (agent_id : option string) (message : option string)
    (data : option (list (string * pyval))) : MonitoringEvent :=
let error_message :=
  if truthy_opt_str message then default "" message
  else ("Task error: " ++ exn_msg error)%string in
Event id TASK_ERROR SEV_ERROR t (cb_trace_id cb) (cb_correlation_id cb)
  (Some task_id) agent_id error_message (default [] data)
  (Some [("type", exn_type error); ("message", exn_msg error)]).

Definition on_task_error (cb : MonitoringCallbacks) (task_id : string) (error : exn)
    (agent_id : option string) (message : option string)
    (data : option (list (string * pyval)))
  : M unit :=
id <- uuid4 ;; t <- clock ;;
_emit_event cb (task_error_event cb id t task_id error agent_id message data).

(** ** The state store singleton ([get_state_store]) *)

Definition create_state_store (backend : string) (redis_url : option string)
  : result Store.InMemoryStateStore :=
if String.eqb backend "inmemory" then Ok Store.init
else if String.eqb backend "redis" then
  if negb (truthy_opt_str redis_url)
  then Raise (ValueError "redis_url is required for redis backend")
  else Raise (NotImplementedError
                "Redis support requires redis-py package. Install with: pip install redis")
else Raise (ValueError ("Unknown state backend: " ++ backend)).

(** [get_state_store]: for the backend "redis" it reads
    [settings.redis_url], an attribute the settings do not have. *)
Definition get_state_store : M Store.InMemoryStateStore :=
fun w =>
  match w_state_store w with
  | Some s => (w, Some (Ok s))
  | None =>
      let backend := state_backend (w_settings w) in
      if String.eqb backend "redis"
      then (w, Some (Raise (AttributeError "'Settings' object has no attribute 'redis_url'")))
      else match create_state_store backend None with
           | Ok s => (set_state_store w s, Some (Ok s))
           | Raise e => (w, Some (Raise e))
           end
  end.

(** A call on the store singleton: the store object is updated in place. *)
Definition on_state_store {A}
    (call : Z -> Store.InMemoryStateStore -> Store.InMemoryStateStore * A) : M A :=
s <- get_state_store ;;
fun w => let r := call (w_now w) s in (set_state_store w r.1, Some (Ok r.2)).

Definition state_get (key : string) : M pyval :=
on_state_store (fun now => Store.get now key).

Definition state_set (key : string) (value : pyval) (ttl : option Z) : M bool :=
r <- on_state_store (fun now => Store.set now key value ttl) ;;
match r with
| Ok b => ret b
| Raise e => raise e
end.

(** ** The consumer's double write ([ADKAgent.optimize_proposal])

    The optimized plan is stored under the correlation id of the proposal
    (which the agent calls its task id) and, errors ignored, under its
    trace id. *)
Definition store_optimized_plan (proposal_msg : A2AMessage) (optimized : pyval) : M unit :=
let task_id := Envelope.correlation_id proposal_msg in
state_set ("optimized_plan:" ++ task_id) optimized (Some 3600) ;;;
try_except
  (state_set ("optimized_plan:" ++ Envelope.trace_id proposal_msg) optimized (Some 3600) ;;;
   ret tt)
  (fun _ => ret tt).

(** ** The orchestrator *)

Section Workflow.

(** What the event loop and the other tasks do to the process state while
    the orchestrator is suspended in [asyncio.sleep(0.1)]. *)
Variable sleep : World -> World.

(** The producer step, [CrewAIAgent.plan_itinerary], and the assembly,
    [_create_itinerary], whose outcomes the orchestrator takes as they come. *)
Variable plan_itinerary : TaskContext -> MonitoringCallbacks -> M pyval.
Variable _create_itinerary : TaskContext -> pyval -> MonitoringCallbacks -> M Itinerary.

(** The loop of [receive_message], [start] being the time read on entry
    and [timeout] a number of microseconds. *)
Fixpoint receive_loop (turns : nat) (start : Z) (agent_id : string)
    (timeout : option Z) (message_type : option string) (w : World)
  : World * option (option A2AMessage) :=
match Bus.receive_poll (w_adapter w) agent_id message_type with
| (Some m, a) => (set_adapter w a, Some (Some m))
| (None, _) =>
    match timeout with
    | None => (w, Some None)
    | Some limit =>
        if limit <=? w_now w - start then (w, Some None)
        else match turns with
             | O => (w, None)
             | S n => receive_loop n start agent_id timeout message_type (sleep w)
             end
    end
end.

Definition receive_message (turns : nat) (agent_id : string) (timeout : option Z)
    (message_type : option string) : M (option A2AMessage) :=
fun w =>
  match receive_loop turns (w_now w) agent_id timeout message_type w with
  | (w1, Some r) => (w1, Some (Ok r))
  | (w1, None) => (w1, None)
  end.

(** [{"flights": [], "hotels": [], "activities": []}] *)
Definition empty_optimization : pyval :=
PDict [("flights", PList []); ("hotels", PList []); ("activities", PList [])].

(** [_wait_for_optimization] *)
Definition _wait_for_optimization (turns : nat) (context : TaskContext) (timeout : Z)
  : M pyval :=
message <- receive_message turns "orchestrator" (Some timeout) (Some OPTIMIZED_PLAN) ;;
match message with
| Some m => ret (PDict (payload m))
| None =>
    optimized <- state_get ("optimized_plan:" ++ ctx_task_id context) ;;
    optimized <- (if negb (truthy optimized)
                  then state_get ("optimized_plan:" ++ ctx_correlation_id context)
                  else ret optimized) ;;
    if truthy optimized then ret optimized else ret empty_optimization
end.

(** What the specification says of the fall-back: the key of the task id,
    then the key of the trace id, then the empty result. *)
Definition fallback_by_task_then_trace (context : TaskContext) : M pyval :=
optimized <- state_get ("optimized_plan:" ++ ctx_task_id context) ;;
optimized <- (if negb (truthy optimized)
              then state_get ("optimized_plan:" ++ ctx_trace_id context)
              else ret optimized) ;;
if truthy optimized then ret optimized else ret empty_optimization.

(** [ADKAgent.start_listening]: the handler only schedules a task. *)
Definition adk_message_handler : Bus.callback := Bus.Callback 1 (fun _ => None).

Definition start_listening (cb : MonitoringCallbacks) : M unit :=
fun w => (set_adapter w (Bus.subscribe (w_adapter w) "adk-optimizer" adk_message_handler),
          Some (Ok tt)).

(** [context.status = st] *)
Definition set_status (context : TaskContext) (st : TaskStatus) : M unit :=
fun w => (set_context w (Some (with_status context st)), Some (Ok tt)).

Definition thirty_seconds : Z := 30 * 1000000.

(** The body of the [try] of [execute]. *)
Definition execute_body (turns : nat) (context : TaskContext) (callbacks : MonitoringCallbacks)
  : M Itinerary :=
let task_id := ctx_task_id context in
start_listening callbacks ;;;
on_task_progress callbacks task_id (PyFloat "0.3") None
  "CrewAI agent creating travel proposal" None ;;;
plan_itinerary context callbacks ;;;
on_task_progress callbacks task_id (PyFloat "0.6") None
  "Waiting for ADK agent optimization" None ;;;
optimized_plan <- _wait_for_optimization turns context thirty_seconds ;;
on_task_progress callbacks task_id (PyFloat "0.8") None
  "Assembling final itinerary" None ;;;
itinerary <- _create_itinerary context optimized_plan callbacks ;;
set_status context COMPLETED ;;;
on_task_end callbacks task_id None "Workflow completed successfully"
  (Some [("itinerary_id", PStr (itinerary_id itinerary));
         ("total_cost", PStr (dec_text (total_cost_total itinerary)))]) ;;;
ret itinerary.

(** The run from the start of the [try] up to the producer step, up to
    the await phase, and up to the assembly (with the plan obtained). *)
Definition up_to_producer (context : TaskContext) (callbacks : MonitoringCallbacks) : M unit :=
start_listening callbacks ;;;
on_task_progress callbacks (ctx_task_id context) (PyFloat "0.3") None
  "CrewAI agent creating travel proposal" None.

Definition up_to_await (context : TaskContext) (callbacks : MonitoringCallbacks) : M unit :=
up_to_producer context callbacks ;;;
plan_itinerary context callbacks ;;;
on_task_progress callbacks (ctx_task_id context) (PyFloat "0.6") None
  "Waiting for ADK agent optimization" None.

Definition up_to_assembly (turns : nat) (context : TaskContext)
    (callbacks : MonitoringCallbacks) : M pyval :=
up_to_await context callbacks ;;;
optimized_plan <- _wait_for_optimization turns context thirty_seconds ;;
on_task_progress callbacks (ctx_task_id context) (PyFloat "0.8") None
  "Assembling final itinerary" None ;;;
ret optimized_plan.

(** The rest of the [try] once the plan is obtained: the assembly, the
    status and [task_end]. *)
Definition finish (context : TaskContext) (callbacks : MonitoringCallbacks)
    (optimized_plan : pyval) : M Itinerary :=
on_task_progress callbacks (ctx_task_id context) (PyFloat "0.8") None
  "Assembling final itinerary" None ;;;
itinerary <- _create_itinerary context optimized_plan callbacks ;;
set_status context COMPLETED ;;;
on_task_end callbacks (ctx_task_id context) None "Workflow completed successfully"
  (Some [("itinerary_id", PStr (itinerary_id itinerary));
         ("total_cost", PStr (dec_text (total_cost_total itinerary)))]) ;;;
ret itinerary.

(** The [except Exception as e:] clause of [execute]. *)
Definition report_failure (context : TaskContext) (callbacks : MonitoringCallbacks) (e : exn)
  : M Itinerary :=
set_status context FAILED ;;;
on_task_error callbacks (ctx_task_id context) e None
  (Some ("Workflow failed: " ++ exn_msg e)%string) None ;;;
raise e.

(** What [execute] does before the [try]: the context and [task_start]. *)
Definition begin (request_params : list (string * pyval)) (callbacks : MonitoringCallbacks)
  : M TaskContext :=
task_id <- uuid4 ;;
let context :=
  Context task_id (cb_correlation_id callbacks) (cb_trace_id callbacks) request_params
    RUNNING in
(fun w => (set_context w (Some context), Some (Ok tt))) ;;;
on_task_start callbacks task_id None "Starting dynamic planning workflow"
  (Some [("destination", dict_get request_params "destination")]) ;;;
ret context.

(** [execute] *)
Definition execute (turns : nat) (request_params : list (string * pyval))
    (callbacks : MonitoringCallbacks) : M Itinerary :=
context <- begin request_params callbacks ;;
try_except (execute_body turns context callbacks) (report_failure context callbacks).

End Workflow.

End Planner.

(* ===================================================================== *)
(** * Runs of the bus: several sends, several receives *)
(* ===================================================================== *)

Module BusRuns.

(** The callbacks a bus operation called, in the order of the calls. *)
Fixpoint invoked (effects : list Bus.effect) : list nat :=
match effects with
| [] => []
| Bus.Invoke cb _ :: rest => cb :: invoked rest
| Bus.Log _ _ :: rest => invoked rest
end.

(** The target [send_message] resolves: [receiver or message.meta.receiver]. *)
Definition target_of (message : A2AMessage) (receiver : option string) : option string :=
or_opt_str receiver (Envelope.receiver (meta message)).

(** [await adapter.send_message(m)] for each envelope in turn. *)
Definition send_all (a : Bus.InMemoryA2AAdapter) (messages : list A2AMessage)
  : Bus.InMemoryA2AAdapter :=
fold_left (fun a m => (Bus.send_message a m None).1.1) messages a.

(** Up to [n] receives in a row without timeout, until one returns [None]:
    the envelopes received and the adapter left. *)
Fixpoint drain (n : nat) (a : Bus.InMemoryA2AAdapter) (agent_id : string)
    (message_type : option string) : list A2AMessage * Bus.InMemoryA2AAdapter :=
match n with
| O => ([], a)
| S k =>
    match Bus.receive_poll a agent_id message_type with
    | (Some m, a1) => let r := drain k a1 agent_id message_type in (m :: r.1, r.2)
    | (None, a1) => ([], a1)
    end
end.

(** The envelopes of a list that [send_message] routes: those with a target. *)
Definition routed (messages : list A2AMessage) : list A2AMessage :=
List.filter (fun m => match target_of m None with Some _ => true | None => false end)
  messages.

(** Those routed to [agent_id]. *)
Definition addressed_to (agent_id : string) (messages : list A2AMessage)
  : list A2AMessage :=
List.filter
  (fun m => match target_of m None with Some t => String.eqb t agent_id | None => false end)
  messages.

(** The subscribers of an agent: [self._subscribers[agent_id]]. *)
Definition subscribers_of (a : Bus.InMemoryA2AAdapter) (agent_id : string)
  : list Bus.callback :=
default [] (Bus._subscribers a !! agent_id).

(** The queue of an agent: [self._queues.get(agent_id, [])]. *)
Definition queue_of (a : Bus.InMemoryA2AAdapter) (agent_id : string) : list A2AMessage :=
default [] (Bus._queues a !! agent_id).

End BusRuns.

Import BusRuns.

(* ===================================================================== *)
(** * Envelopes on the wire: [to_json] and the typed constructors *)
(* ===================================================================== *)

Module Wire.

(** [json.dumps(value, sort_keys=True)] with the default encoder: without
    [CustomEncoder.default], a [Decimal], a [datetime] or a [date] is
    refused like an object of any other class. *)
Fixpoint dumps (v : pyval) : result string :=
match v with
| PNone => Ok "null"
| PBool b => Ok (if b then "true" else "false")
| PInt n => Json.intstr n
| PFloat x => Ok (Json.floatstr x)
| PStr s => Ok (Json.encode_basestring_ascii s)
| PDecimal _ => Raise (Json.not_serializable "Decimal")
| PDatetime _ => Raise (Json.not_serializable "datetime")
| PDate _ => Raise (Json.not_serializable "date")
| PList items | PTuple items =>
    bind (Json.sequence (map dumps items))
      (fun parts => Ok ("[" ++ Json.join ", " parts ++ "]")%string)
| PDict items =>
    bind (Json.sequence
            (map (fun kv : string * result string =>
                    bind kv.2 (fun text =>
                      Ok (Json.encode_basestring_ascii kv.1 ++ ": " ++ text)%string))
               (Json.sort_items (map (fun kv : string * pyval => (kv.1, dumps kv.2)) items))))
      (fun parts => Ok ("{" ++ Json.join ", " parts ++ "}")%string)
| PModel type_name _ | PObject type_name _ => Raise (Json.not_serializable type_name)
end.


(** [A2AMessage.to_json] *)
Definition to_json (m : A2AMessage) : result string := dumps (PDict (to_dict m)).




End Wire.

Import Wire.

(* ===================================================================== *)
(** * The consumer's conversion of prices ([src/agents/adk_agent/agent.py]) *)
(* ===================================================================== *)

Module Optimizer.

(** [convert_decimals], the helper of [ADKAgent._apply_optimization]: the
    [Decimal]s reached through dictionaries and lists become floats (a
    signalling NaN makes [float] raise); everything else, tuples included,
    is returned as it is. *)
Fixpoint convert_decimals (obj : pyval) : result pyval :=
match obj with
| PDict items =>
    bind (Json.sequence
            (map (fun kv : string * pyval =>
                    bind (convert_decimals kv.2) (fun v => Ok (kv.1, v))) items))
      (fun converted => Ok (PDict converted))
| PList items =>
    bind (Json.sequence (map convert_decimals items)) (fun converted => Ok (PList converted))
| PDecimal d => bind (Json.default_float d) (fun x => Ok (PFloat x))
| _ => Ok obj
end.

End Optimizer.

(* ===================================================================== *)
(** * The reply of the language model, without its code fence *)
(* ===================================================================== *)

Module Replies.

(** [s[n:]] *)
Fixpoint from_index (n : nat) (s : string) : string :=
match n, s with
| O, _ => s
| S k, String _ r => from_index k r
| S _, EmptyString => EmptyString
end.

(** [s[:-n]], for [n > 0] *)
Definition to_last (n : nat) (s : string) : string :=
rev_string (from_index n (rev_string s)).

(** The text handed to [json.loads] by the producer
    ([CrewAIAgent.plan_itinerary]) and by the consumer
    ([ADKAgent._apply_optimization]): the reply of the language model
    without its Markdown code fence. *)
Definition json_str (llm_response : string) : string :=
let s := strip llm_response in
let s := if startswith s "```json" then from_index 7 s else s in
let s := if startswith s "```" then from_index 3 s else s in
let s := if endswith s "```" then to_last 3 s else s in
strip s.

End Replies.

(* ===================================================================== *)
(** * Sample data for the examples and the witnesses *)
(* ===================================================================== *)

Module Samples.

(** The store of the repository's ttl test: one key written with a ttl of
    one second when the clock reads 0. *)
Definition one_second_store : Store.InMemoryStateStore :=
(Store.set 0 "expires-soon" (PStr "value") (Some 1) Store.init).1.

Definition sample_time : datetime := Datetime 2025 1 15 10 30 0 0.

Definition sample_message (id : string) (to : option string) : A2AMessage :=
Message id "t1" "c1" PROPOSAL "1.0" sample_time
  [("destination", PStr "Goa")] (Meta "A" to 5 300) None.

Definition watcher : Bus.callback := Bus.Callback 7 (fun _ => None).

(** A bus with a subscriber and a queued envelope for "B". *)
Definition busy_bus : Bus.InMemoryA2AAdapter :=
(Bus.send_message (Bus.subscribe Bus.init "B" watcher) (sample_message "m1" (Some "B"))
   None).1.1.

(** A bus to which "m1" and then "m2" were sent. *)
Definition two_sent : Bus.InMemoryA2AAdapter :=
(Bus.send_message
   (Bus.send_message Bus.init (sample_message "m1" (Some "B")) None).1.1
   (sample_message "m2" (Some "B")) None).1.1.

Definition test_settings : Settings := MkSettings "settings-secret" "inmemory".

(** The envelope of the repository's tampering test. *)
Definition original_message : A2AMessage :=
Message "m-1" "trace-1" "corr-1" PROPOSAL "1.0" (Datetime 2025 1 15 10 30 0 0)
  [("original", PStr "data")] (Meta "agent-1" None 5 300) None.

(** An envelope whose payload holds a [datetime]. *)
Definition dated_message : A2AMessage :=
Message "m-2" "trace-1" "corr-1" PROPOSAL "1.0" (Datetime 2025 1 15 10 30 0 0)
  [("departure", PDatetime (Datetime 2025 6 1 9 0 0 0))] (Meta "agent-1" None 5 300) None.


(** A sleep during which no other task runs: a tenth of a second passes. *)
Definition idle (w : Planner.World) : Planner.World :=
Planner.set_now w (Planner.w_now w + 100000).

Definition sample_context : TaskContext :=
Context "task-1" "corr-1" "trace-1" [("destination", PStr "Goa")] RUNNING.

Definition stored_plan : pyval :=
PDict [("flights", PList []); ("hotels", PList [PStr "Sea View"]); ("activities", PList [])].

(** A process at time 0 with an empty bus and the given store. *)
Definition world_with (s : Store.InMemoryStateStore) : Planner.World :=
Planner.MkWorld 0 Bus.init (Some s) test_settings [] 0 None.

Definition store_with (key : string) : Store.InMemoryStateStore :=
(Store.set 0 key stored_plan None Store.init).1.

Definition sample_callbacks : MonitoringCallbacks := Callbacks "trace-1" "corr-1" [].

(** Callbacks with a listener that is interrupted while it handles a
    [task_error] event. *)
Definition interrupting_callbacks : MonitoringCallbacks :=
Callbacks "trace-1" "corr-1"
  [Listener 1 (fun event =>
                 match event_type event with
                 | TASK_ERROR => Some (Exn "KeyboardInterrupt" "" false)
                 | _ => None
                 end)].

(** A process at time 0 in which nothing was created yet. *)
Definition fresh_world : Planner.World :=
Planner.MkWorld 0 Bus.init None test_settings [] 0 None.

(** A producer whose call to the language model fails. *)
Definition failing_producer : TaskContext -> MonitoringCallbacks -> Planner.M pyval :=
fun _ _ => Planner.raise (ValueError "LLM response is not valid JSON").

(** A producer that is cancelled while it waits. *)
Definition cancelled_producer : TaskContext -> MonitoringCallbacks -> Planner.M pyval :=
fun _ _ => Planner.raise (Exn "CancelledError" "" false).

Definition quiet_producer : TaskContext -> MonitoringCallbacks -> Planner.M pyval :=
fun _ _ => Planner.ret (PDict []).

Definition plain_assembly
  : TaskContext -> pyval -> MonitoringCallbacks -> Planner.M Itinerary :=
fun _ _ _ => Planner.ret (MkItinerary "itin-1" (PyDecimal "0" (Some (PyFloat "0.0")) false)).

End Samples.

Import Samples.

(* ===================================================================== *)
(** * Facts about strings *)
(* ===================================================================== *)

Section StringFacts.

Lemma string_app_cons (c : ascii) (a b : string) :
  (String c a ++ b)%string = String c (a ++ b).
Proof. reflexivity. Qed.

Lemma string_app_nil_l (b : string) : ("" ++ b)%string = b.
Proof. reflexivity. Qed.

Lemma string_app_nil_r (s : string) : (s ++ "")%string = s.
Proof. induction s as [|c s IH]; [done |]. by rewrite string_app_cons, IH. Qed.

Lemma string_app_assoc (a b c : string) :
  ((a ++ b) ++ c)%string = (a ++ (b ++ c))%string.
Proof. induction a as [|x a IH]; [done |]. by rewrite !string_app_cons, IH. Qed.

Lemma prefix_nil (s : string) : String.prefix "" s = true.
Proof. by destruct s. Qed.

Lemma prefix_iff_app (p s : string) :
  String.prefix p s = true <-> exists r, s = (p ++ r)%string.
Proof.
  revert s. induction p as [|c p IH]; intros s; destruct s as [|d s]; cbn [String.prefix].
  - split; [intros _; by exists ""%string | done].
  - split; [intros _; by exists (String d s) | done].
  - split; [done | by intros [r Hr]].
  - destruct (ascii_dec c d) as [->|Hne].
    + rewrite IH. split; intros [r Hr]; exists r; rewrite string_app_cons in *; congruence.
    + split; [done | intros [r Hr]; rewrite string_app_cons in Hr; congruence].
Qed.

Lemma rev_string_acc_app (s acc : string) :
  rev_string_acc s acc = (rev_string s ++ acc)%string.
Proof.
  unfold rev_string. revert acc. induction s as [|c s IH]; intros acc;
    cbn [rev_string_acc]; [done |].
  rewrite (IH (String c acc)), (IH (String c "")), string_app_assoc. done.
Qed.

Lemma rev_string_cons (c : ascii) (s : string) :
  rev_string (String c s) = (rev_string s ++ String c "")%string.
Proof. unfold rev_string at 1. cbn [rev_string_acc]. apply rev_string_acc_app. Qed.

Lemma rev_string_app (a b : string) :
  rev_string (a ++ b) = (rev_string b ++ rev_string a)%string.
Proof.
  induction a as [|c a IH].
  - change (rev_string "") with ""%string. by rewrite string_app_nil_r.
  - by rewrite string_app_cons, !rev_string_cons, IH, string_app_assoc.
Qed.

Lemma rev_string_involutive (s : string) : rev_string (rev_string s) = s.
Proof.
  induction s as [|c s IH]; [done |]. by rewrite rev_string_cons, rev_string_app, IH.
Qed.

Lemma endswith_iff_app (s p : string) :
  endswith s p = true <-> exists r, s = (r ++ p)%string.
Proof.
  unfold endswith. rewrite prefix_iff_app. split; intros [r Hr].
  - exists (rev_string r). apply (f_equal rev_string) in Hr.
    by rewrite rev_string_involutive, rev_string_app, rev_string_involutive in Hr.
  - exists (rev_string r). by rewrite Hr, rev_string_app.
Qed.

Lemma contains_iff_app (s p : string) :
  contains s p = true <-> exists a b, s = (a ++ p ++ b)%string.
Proof.
  induction s as [|c s IH]; cbn [contains]; rewrite orb_true_iff, prefix_iff_app.
  - split.
    + intros [[r Hr]|]; [by exists "", r | done].
    + intros (a & b & Hab). left. destruct a; [by exists b |]. done.
  - rewrite IH. split.
    + intros [[r Hr]|(a & b & Hab)]; [by exists "", r |].
      exists (String c a), b. by rewrite string_app_cons, Hab.
    + intros (a & b & Hab). destruct a as [|d a]; [left; by exists b |].
      right. exists a, b. rewrite string_app_cons in Hab. congruence.
Qed.

Lemma drop_last_app_char (p : string) (c : ascii) :
  drop_last (p ++ String c "") = p.
Proof.
  unfold drop_last. rewrite rev_string_app. 
  change (rev_string (String c "")) with (String c "").
  rewrite string_app_cons. cbn [drop_first]. rewrite string_app_nil_l.
  apply rev_string_involutive.
Qed.

Lemma endswith_app_nonempty (a p : string) (c : ascii) :
  p <> ""%string -> endswith (a ++ p) (String c "") = endswith p (String c "").
Proof.
  intros Hp. unfold endswith. rewrite rev_string_app.
  change (rev_string (String c "")) with (String c "").
  destruct p as [|d p]; [done |]. clear Hp.
  assert (exists e r, rev_string (String d p) = String e r) as (e & r & ->).
  { rewrite rev_string_cons. destruct (rev_string p) as [|x r'].
    - by exists d, ""%string.
    - by exists x, (r' ++ String d "")%string. }
  rewrite string_app_cons. cbn [String.prefix]. by rewrite !prefix_nil.
Qed.

End StringFacts.

(* ===================================================================== *)
(** * Properties of the state store *)
(* ===================================================================== *)

Section StoreFacts.
Import Store.

Implicit Types (s : InMemoryStateStore) (key k : string) (now : Z).

Lemma foldl_pop_key_store s (l : list string) k :
  _store (foldl pop_key s l) !! k = if decide (k ∈ l) then None else _store s !! k.
Proof.
  revert s. induction l as [|x l IH]; intros s; cbn [foldl].
  - destruct (decide (k ∈ [])) as [Hin|_]; [by apply elem_of_nil in Hin | done].
  - rewrite IH. unfold pop_key; cbn [_store _expiry].
    destruct (decide (k ∈ l)) as [Hin|Hnin], (decide (k ∈ x :: l)) as [Hin'|Hnin'];
      try done.
    + exfalso. apply Hnin'. by apply elem_of_cons; right.
    + apply elem_of_cons in Hin' as [->|?]; [apply lookup_delete_eq | done].
    + apply lookup_delete_ne. intros ->. apply Hnin'. by apply elem_of_cons; left.
Qed.

Lemma foldl_pop_key_expiry s (l : list string) k :
  _expiry (foldl pop_key s l) !! k = if decide (k ∈ l) then None else _expiry s !! k.
Proof.
  revert s. induction l as [|x l IH]; intros s; cbn [foldl].
  - destruct (decide (k ∈ [])) as [Hin|_]; [by apply elem_of_nil in Hin | done].
  - rewrite IH. unfold pop_key; cbn [_store _expiry].
    destruct (decide (k ∈ l)) as [Hin|Hnin], (decide (k ∈ x :: l)) as [Hin'|Hnin'];
      try done.
    + exfalso. apply Hnin'. by apply elem_of_cons; right.
    + apply elem_of_cons in Hin' as [->|?]; [apply lookup_delete_eq | done].
    + apply lookup_delete_ne. intros ->. apply Hnin'. by apply elem_of_cons; left.
Qed.

Lemma elem_of_expired_keys now s k :
  k ∈ expired_keys now s <-> exists e, _expiry s !! k = Some e /\ e <= now.
Proof.
  unfold expired_keys. rewrite list_elem_of_fmap. split.
  - intros [[k' e] [-> Hin]]. apply list_elem_of_filter in Hin as [Hle Hin].
    apply elem_of_map_to_list in Hin. apply bool_decide_unpack in Hle.
    simpl in *. eauto.
  - intros (e & Hk & Hle). exists (k, e). split; [done |].
    apply list_elem_of_filter. split.
    + by apply bool_decide_pack.
    + by apply elem_of_map_to_list.
Qed.

(** What [_cleanup_expired] leaves of the two dictionaries. *)
Lemma cleanup_store_lookup now s k :
  _store (_cleanup_expired now s) !! k =
    match _expiry s !! k with
    | Some e => if bool_decide (e <= now) then None else _store s !! k
    | None => _store s !! k
    end.
Proof.
  unfold _cleanup_expired. rewrite foldl_pop_key_store.
  destruct (decide (k ∈ expired_keys now s)) as [Hin|Hnin].
  - apply elem_of_expired_keys in Hin as (e & -> & Hle).
    by rewrite bool_decide_eq_true_2.
  - destruct (_expiry s !! k) as [e|] eqn:He; [|done].
    case_bool_decide; [|done]. exfalso. apply Hnin, elem_of_expired_keys. eauto.
Qed.

Lemma cleanup_expiry_lookup now s k :
  _expiry (_cleanup_expired now s) !! k =
    match _expiry s !! k with
    | Some e => if bool_decide (e <= now) then None else Some e
    | None => None
    end.
Proof.
  unfold _cleanup_expired. rewrite foldl_pop_key_expiry.
  destruct (decide (k ∈ expired_keys now s)) as [Hin|Hnin].
  - apply elem_of_expired_keys in Hin as (e & -> & Hle).
    by rewrite bool_decide_eq_true_2.
  - destruct (_expiry s !! k) as [e|] eqn:He; [|done].
    case_bool_decide; [|done]. exfalso. apply Hnin, elem_of_expired_keys. eauto.
Qed.

Lemma store_eq s1 s2 :
  (forall k, _store s1 !! k = _store s2 !! k) ->
  (forall k, _expiry s1 !! k = _expiry s2 !! k) ->
  s1 = s2.
Proof.
  destruct s1 as [a1 b1], s2 as [a2 b2]; simpl. intros Ha Hb.
  f_equal; by apply map_eq.
Qed.

(** A second expiry pass at the same instant changes nothing. *)
Lemma cleanup_idempotent now s :
  _cleanup_expired now (_cleanup_expired now s) = _cleanup_expired now s.
Proof.
  apply store_eq; intros k.
  - rewrite (cleanup_store_lookup now (_cleanup_expired now s)).
    rewrite cleanup_expiry_lookup.
    destruct (_expiry s !! k) as [e|]; [|done].
    case_bool_decide as H1; [done |]. by rewrite bool_decide_eq_false_2.
  - rewrite (cleanup_expiry_lookup now (_cleanup_expired now s)).
    rewrite cleanup_expiry_lookup.
    destruct (_expiry s !! k) as [e|]; [|done].
    case_bool_decide as H1; [done |]. by rewrite bool_decide_eq_false_2.
Qed.

Lemma cleanup_preserves_no_orphan now s :
  no_orphan_expiry s -> no_orphan_expiry (_cleanup_expired now s).
Proof.
  intros Hinv k. rewrite cleanup_expiry_lookup, cleanup_store_lookup.
  specialize (Hinv k).
  destruct (_expiry s !! k) as [e|]; [|by intros [? ?]].
  case_bool_decide; [by intros [? ?] |]. intros _. apply Hinv. eauto.
Qed.

Lemma set_store_lookup now key value ttl s :
  _store (set now key value ttl s).1 !! key = Some value.
Proof.
  unfold set. destruct ttl as [n|]; [|by apply lookup_insert_eq].
  destruct (bind _ _); apply lookup_insert_eq.
Qed.


End StoreFacts.

Section StoreClaims.
Import Store.

Implicit Types (s : InMemoryStateStore) (key k : string) (now : Z).


Lemma step_preserves_no_orphan now o s :
  no_orphan_expiry s -> no_orphan_expiry (step now o s).
Proof.
  intros Hinv. pose proof (cleanup_preserves_no_orphan now s Hinv) as Hc.
  destruct o as [k|k v ttl|k|k|p|]; unfold step, run; cbn [fst].
  - exact Hc.
  - unfold set. destruct ttl as [n|].
    + destruct (bind _ _) as [e|err]; cbn [fst]; intros k'; cbn [_store _expiry].
      * destruct (decide (k = k')) as [->|Hne].
        -- rewrite !lookup_insert_eq. eauto.
        -- rewrite !lookup_insert_ne by done. apply Hc.
      * destruct (decide (k = k')) as [->|Hne].
        -- rewrite lookup_insert_eq. eauto.
        -- rewrite lookup_insert_ne by done. apply Hc.
    + cbn [fst]. intros k'; cbn [_store _expiry].
      destruct (decide (k = k')) as [->|Hne].
      * rewrite lookup_insert_eq. eauto.
      * rewrite lookup_insert_ne, lookup_delete_ne by done. apply Hc.
  - unfold delete_key. destruct (_store (_cleanup_expired now s) !! k) eqn:Hk; cbn [fst].
    + intros k'; cbn [_store _expiry]. destruct (decide (k = k')) as [->|Hne].
      * rewrite lookup_delete_eq. by intros [? ?].
      * rewrite !lookup_delete_ne by done. apply Hc.
    + exact Hc.
  - exact Hc.
  - exact Hc.
  - intros k'. cbn. rewrite lookup_empty. by intros [? ?].
Qed.

(** C10. Every operation of the in-memory store ([get], [set], [delete],
    [exists], [list_keys], [clear]) keeps the invariant that a key with a
    recorded expiry also has a value; and [set] without a ttl returns true,
    drops the expiry recorded for the key and leaves a value that no later
    expiry pass removes. *)
Theorem store_ops_preserve_no_orphan_expiry
    (now : Z) (o : op) (s : InMemoryStateStore)
    (key : string) (value : pyval) (later : Z) :
  no_orphan_expiry s ->
  no_orphan_expiry (step now o s) /\
  (set now key value None s).2 = Ok true /\
  _expiry (set now key value None s).1 !! key = None /\
  _store (_cleanup_expired later (set now key value None s).1) !! key = Some value /\
  (get later key (set now key value None s).1).2 = value.
Proof.
  intros Hinv. split; [by apply step_preserves_no_orphan |].
  assert (He : _expiry (set now key value None s).1 !! key = None)
    by (unfold set; cbn; apply lookup_delete_eq).
  assert (Hs : _store (_cleanup_expired later (set now key value None s).1) !! key
               = Some value).
  { rewrite cleanup_store_lookup, He. apply set_store_lookup. }
  repeat split; try done.
  unfold get. cbn [snd]. by rewrite Hs.
Qed.

Lemma one_second_store_no_orphan : no_orphan_expiry one_second_store.
Proof.
  replace one_second_store with (step 0 (OpSet "expires-soon" (PStr "value") (Some 1)) init)
    by reflexivity.
  apply step_preserves_no_orphan. intros k. cbn. rewrite lookup_empty. by intros [? ?].
Qed.

Lemma store_ops_preserve_no_orphan_expiry_witness :
  no_orphan_expiry (step 2000000 (OpGet "expires-soon") one_second_store) /\
  (set 500000 "expires-soon" (PStr "again") None one_second_store).2 = Ok true /\
  _expiry (set 500000 "expires-soon" (PStr "again") None one_second_store).1
    !! "expires-soon" = None /\
  _store (_cleanup_expired 2000000
            (set 500000 "expires-soon" (PStr "again") None one_second_store).1)
    !! "expires-soon" = Some (PStr "again") /\
  (get 2000000 "expires-soon"
     (set 500000 "expires-soon" (PStr "again") None one_second_store).1).2 = PStr "again".
Proof.
  exact (store_ops_preserve_no_orphan_expiry 2000000 (OpGet "expires-soon")
           one_second_store "expires-soon" (PStr "again") 2000000
           one_second_store_no_orphan).
Defined.




End StoreClaims.

(* ===================================================================== *)
(** * Properties of the message bus *)
(* ===================================================================== *)

Section BusClaims.
Import Bus.

Lemma notify_invokes_all cbs message :
  (forall cb, cb ∈ cbs -> cb_raises cb message = None) ->
  notify cbs message = (map (fun cb => Invoke (cb_id cb) message) cbs, None).
Proof.
  induction cbs as [|cb rest IH]; intros Hq; [done |].
  cbn [notify map]. rewrite Hq by (apply elem_of_cons; by left).
  rewrite IH; [done |]. intros c Hc. apply Hq. apply elem_of_cons. by right.
Qed.

(** C6. An envelope sent with no receiver argument and no receiver in its
    metadata: [send_message] returns false and raises nothing, the adapter
    (queues, subscribers, history) is as before, and the only effect is a
    warning in the log, so no subscriber callback is called. *)
Theorem send_without_receiver_fails_quietly
    (a : InMemoryA2AAdapter) (message : A2AMessage) :
  receiver (meta message) = None ->
  send_message a message None
    = (a, Ok false, [Log "warning" "No receiver specified for message"]) /\
  (forall cb m, Invoke cb m ∉ (send_message a message None).2).
Proof.
  intros Hr. unfold send_message. rewrite Hr. cbn. split; [done |].
  intros cb m [Hin|Hin]%elem_of_cons; [discriminate | by apply elem_of_nil in Hin].
Qed.

Lemma send_without_receiver_fails_quietly_witness :
  send_message busy_bus (sample_message "m2" None) None
    = (busy_bus, Ok false, [Log "warning" "No receiver specified for message"]) /\
  (forall cb m, Invoke cb m ∉ (send_message busy_bus (sample_message "m2" None) None).2).
Proof.
  exact (send_without_receiver_fails_quietly busy_bus (sample_message "m2" None) eq_refl).
Defined.

Lemma slice_from_last {A} (limit : Z) (l : list A) :
  0 < limit -> slice_from (- limit) l = drop (length l - Z.to_nat limit) l.
Proof.
  intros Hl. unfold slice_from.
  replace (- limit <? 0) with true by (symmetry; apply Z.ltb_lt; lia).
  f_equal. lia.
Qed.

Lemma filter_by_elem field wanted messages m :
  m ∈ filter_by field wanted messages ->
  m ∈ messages /\ (truthy_opt_str wanted = true -> wanted = Some (field m)).
Proof.
  unfold filter_by. destruct (truthy_opt_str wanted) eqn:Hw.
  - intros Hin. apply list_elem_of_In, filter_In in Hin as [Hin Heq].
    split; [by apply list_elem_of_In |]. intros _.
    destruct wanted as [w|]; [|done]. cbn in Heq. apply String.eqb_eq in Heq.
    by subst.
  - intros Hin. split; [done | discriminate].
Qed.

(** C5, as the code has it. For a positive [limit], the history operation
    returns the envelopes that match the ids given (an id that is absent
    or empty does not filter), in the order they were sent, oldest first:
    the last [limit] of them, so at most [limit]. *)
Theorem history_returns_latest_in_send_order
    (a : InMemoryA2AAdapter) (trace corr : option string) (limit : Z) :
  0 < limit ->
  let matching :=
    filter_by correlation_id corr (filter_by trace_id trace (_message_history a)) in
  let r := get_message_history a trace corr limit in
  r = drop (length matching - Z.to_nat limit) matching /\
  Z.of_nat (length r) = Z.min limit (Z.of_nat (length matching)) /\
  (forall m, m ∈ r ->
     m ∈ _message_history a /\
     (truthy_opt_str trace = true -> trace = Some (trace_id m)) /\
     (truthy_opt_str corr = true -> corr = Some (correlation_id m))).
Proof.
  intros Hl matching r.
  assert (Hr : r = drop (length matching - Z.to_nat limit) matching)
    by (apply slice_from_last; done).
  split; [exact Hr |]. split.
  - rewrite Hr, length_drop. lia.
  - intros m Hm. rewrite Hr in Hm.
    assert (Hin : m ∈ matching).
    { apply list_elem_of_lookup in Hm as [i Hi]. rewrite lookup_drop in Hi.
      apply list_elem_of_lookup. eauto. }
    apply filter_by_elem in Hin as [Hin Hc].
    apply filter_by_elem in Hin as [Hin Ht]. done.
Qed.

Lemma history_returns_latest_in_send_order_witness :
  get_message_history two_sent (Some "t1") None 1 = [sample_message "m2" (Some "B")].
Proof.
  pose proof (history_returns_latest_in_send_order two_sent (Some "t1") None 1
                ltac:(lia)) as [H _].
  exact H.
Defined.

(** C5 fails as stated: the newest envelope comes last, not first. *)
Lemma history_is_oldest_first :
  _message_history two_sent
    = [sample_message "m1" (Some "B"); sample_message "m2" (Some "B")] /\
  get_message_history two_sent None None 100
    = [sample_message "m1" (Some "B"); sample_message "m2" (Some "B")] /\
  history_newest_first two_sent None None 100
    = [sample_message "m2" (Some "B"); sample_message "m1" (Some "B")] /\
  get_message_history two_sent None None 100 <> history_newest_first two_sent None None 100.
Proof. vm_compute. repeat split; try reflexivity. discriminate. Qed.

(** A sent envelope is received once: sent to a target whose queue is
    empty, it is what the next receive returns, and the queue is empty
    again. *)
Lemma send_then_receive (a : InMemoryA2AAdapter) (message : A2AMessage) (target : string) :
  or_opt_str None (receiver (meta message)) = Some target ->
  default [] (_queues a !! target) = [] ->
  let sent := (send_message a message None).1.1 in
  (receive_poll sent target None).1 = Some message /\
  _queues (receive_poll sent target None).2 !! target = Some [] /\
  (receive_poll (receive_poll sent target None).2 target None).1 = None.
Proof.
  intros Ht Hq sent.
  assert (Hsent : _queues sent !! target = Some [message]).
  { subst sent. unfold send_message. rewrite Ht.
    destruct (_subscribers a !! target) as [cbs|]; cbn [fst snd _queues];
      by rewrite lookup_insert_eq, Hq. }
  assert (Hpoll : receive_poll sent target None
                  = (Some message,
                     Adapter (<[target := []]> (_queues sent)) (_subscribers sent)
                       (_message_history sent) (_max_history sent))).
  { unfold receive_poll. cbn [truthy_opt_str]. by rewrite Hsent. }
  rewrite Hpoll. cbn [fst snd _queues]. rewrite lookup_insert_eq.
  split; [done |]. split; [done |].
  unfold receive_poll. cbn [truthy_opt_str _queues]. by rewrite lookup_insert_eq.
Qed.

(** The scenario of the specification: "A" sends a proposal to "B"; the
    callback subscribed for "B" is called with the envelope during the
    send; a receive for "B" returns it and leaves the queue empty; the
    history of trace "t1" holds exactly that envelope. *)
Example send_notify_receive_history :
  let m := sample_message "m1" (Some "B") in
  let r := send_message (subscribe init "B" watcher) m None in
  r.1.2 = Ok true /\
  r.2 = [Log "info" "Message sent to B"; Invoke 7 m] /\
  (receive_poll r.1.1 "B" None).1 = Some m /\
  get_queue_size (receive_poll r.1.1 "B" None).2 "B" = 0 /\
  get_message_history r.1.1 (Some "t1") None 100 = [m].
Proof. vm_compute. repeat split; reflexivity. Qed.

(** With a [limit] of 0 the slice [messages[-0:]] is the whole list. *)
Lemma history_limit_zero_returns_all :
  get_message_history two_sent None None 0
    = [sample_message "m1" (Some "B"); sample_message "m2" (Some "B")].
Proof. reflexivity. Qed.

End BusClaims.

(* ===================================================================== *)
(** * Properties of the time-range parser *)
(* ===================================================================== *)

Section TimeRangeClaims.
Import Planner.

Lemma bind_raises_only_Exception {A B} (r : result A) (k : A -> result B) :
  raises_only_Exception r ->
  (forall a, raises_only_Exception (k a)) ->
  raises_only_Exception (bind r k).
Proof. destruct r as [a|e]; cbn; auto. Qed.

(** The exceptions a call can raise are followed through [bind] with the
    hints of [raises]. *)
Create HintDb raises.

Ltac case_conditions :=
  repeat (match goal with
          | |- context [if ?b then _ else _] => destruct b
          end; cbn; auto).

Ltac through_binds :=
  repeat (apply bind_raises_only_Exception; [solve [auto with raises] | intros ?]).

Lemma new_datetime_raises_only_Exception y m d h mi sec us :
  raises_only_Exception (new_datetime y m d h mi sec us).
Proof. unfold new_datetime, check_date_fields, check_time_fields. case_conditions. Qed.

Lemma replace_raises_only_Exception t h mi sec us :
  raises_only_Exception (replace t h mi sec us).
Proof. apply new_datetime_raises_only_Exception. Qed.

Lemma strptime_raises_only_Exception s : raises_only_Exception (strptime_I_M_p s).
Proof.
  unfold strptime_I_M_p. destruct (re_I_M_p s) as [|[[[i m] pm] rest] l]; cbn; auto.
  destruct rest; cbn; auto.
Qed.

Lemma plus_one_hour_raises_only_Exception t : raises_only_Exception (plus_one_hour t).
Proof. unfold plus_one_hour, next_day. case_conditions. Qed.

#[local] Hint Resolve replace_raises_only_Exception strptime_raises_only_Exception
  plus_one_hour_raises_only_Exception : raises.

(** On a valid date, replacing the time of day by valid fields succeeds. *)
Lemma replace_valid t h mi sec us :
  valid_datetime t = true ->
  between 0 (default (hour t) h) 23 = true ->
  between 0 (default (minute t) mi) 59 = true ->
  between 0 (default (second t) sec) 59 = true ->
  between 0 (default (microsecond t) us) 999999 = true ->
  replace t h mi sec us
    = Ok (Datetime (year t) (month t) (day t) (default (hour t) h) (default (minute t) mi)
            (default (second t) sec) (default (microsecond t) us)).
Proof.
  unfold valid_datetime, replace, new_datetime. intros Hv Hh Hm Hs Hu.
  destruct (check_date_fields (year t) (month t) (day t)) as [[]|e]; [|discriminate].
  cbn [bind]. unfold check_time_fields. by rewrite Hh, Hm, Hs, Hu.
Qed.

Lemma valid_datetime_time_fields t :
  valid_datetime t = true ->
  between 0 (hour t) 23 = true /\ between 0 (minute t) 59 = true /\
  between 0 (second t) 59 = true /\ between 0 (microsecond t) 999999 = true.
Proof.
  unfold valid_datetime, new_datetime. 
  destruct (check_date_fields (year t) (month t) (day t)) as [[]|e]; [|discriminate].
  cbn [bind]. unfold check_time_fields.
  destruct (between 0 (hour t) 23); [|discriminate].
  destruct (between 0 (minute t) 59); [|discriminate].
  destruct (between 0 (second t) 59); [|discriminate].
  destruct (between 0 (microsecond t) 999999); [|discriminate].
  done.
Qed.

Lemma default_window_valid t :
  valid_datetime t = true ->
  default_window t
    = Ok (Datetime (year t) (month t) (day t) 9 0 (second t) (microsecond t),
          Datetime (year t) (month t) (day t) 10 0 (second t) (microsecond t)).
Proof.
  intros Hv. destruct (valid_datetime_time_fields t Hv) as (_ & _ & Hs & Hu).
  unfold default_window.
  rewrite (replace_valid t (Some 9) (Some 0) None None) by done.
  rewrite (replace_valid t (Some 10) (Some 0) None None) by done.
  done.
Qed.

Lemma default_window_raises_only_Exception t : raises_only_Exception (default_window t).
Proof. unfold default_window. through_binds. exact I. Qed.

#[local] Hint Resolve default_window_raises_only_Exception : raises.

Lemma body_raises_only_Exception s t : raises_only_Exception (parse_time_range_body s t).
Proof.
  unfold parse_time_range_body.
  destruct (_ || _); [auto with raises |].
  destruct (map strip (split "-" s)) as [|start_raw [|end_raw [|extra l]]];
    auto with raises.
  through_binds.
  destruct (datetime_leb _ _); [through_binds |]; exact I.
Qed.

Lemma lex_leb_refl_prefix (p a b : list Z) :
  lex_leb (p ++ a) (p ++ b) = lex_leb a b.
Proof.
  induction p as [|x p IH]; [done |]. cbn. by rewrite Z.ltb_irrefl.
Qed.

(** C7. The time-range parser never raises: on every string and every
    (valid) base datetime it returns a window; and "2:00 PM - 1:00 PM",
    whose end is before its start, gives the window from 14:00 to 15:00 of
    the base day. *)
Theorem parse_time_range_never_raises (time_str : string) (base_date : datetime) :
  valid_datetime base_date = true ->
  (exists window, _parse_time_range time_str base_date = Ok window) /\
  _parse_time_range "2:00 PM - 1:00 PM" base_date
    = Ok (Datetime (year base_date) (month base_date) (day base_date) 14 0 0 0,
          Datetime (year base_date) (month base_date) (day base_date) 15 0 0 0).
Proof.
  intros Hv. split.
  - unfold _parse_time_range, try_except_Exception.
    pose proof (body_raises_only_Exception time_str base_date) as Hb.
    destruct (parse_time_range_body time_str base_date) as [w|e]; [by exists w |].
    cbn in Hb. rewrite Hb, (default_window_valid _ Hv). eauto.
  - unfold _parse_time_range, parse_time_range_body.
    replace (map strip (split "-" "2:00 PM - 1:00 PM")) with ["2:00 PM"; "1:00 PM"]
      by (vm_compute; reflexivity).
    replace (strptime_I_M_p "2:00 PM") with (Ok (Datetime 1900 1 1 14 0 0 0))
      by (vm_compute; reflexivity).
    replace (strptime_I_M_p "1:00 PM") with (Ok (Datetime 1900 1 1 13 0 0 0))
      by (vm_compute; reflexivity).
    cbn [negb truthy String.eqb contains orb bind hour minute].
    replace (negb (contains "2:00 PM - 1:00 PM" "-")) with false by (vm_compute; reflexivity).
    cbn [orb negb]. replace (negb (String.eqb "2:00 PM - 1:00 PM" "")) with true
      by (vm_compute; reflexivity).
    cbn [negb orb bind].
    rewrite (replace_valid base_date (Some 14) (Some 0) (Some 0) (Some 0)) by done.
    rewrite (replace_valid base_date (Some 13) (Some 0) (Some 0) (Some 0)) by done.
    cbn [bind default].
    unfold datetime_leb, fields; cbn [year month day hour minute second microsecond].
    change (lex_leb _ _) with
      (lex_leb ([year base_date; month base_date; day base_date] ++ [13; 0; 0; 0])
               ([year base_date; month base_date; day base_date] ++ [14; 0; 0; 0])).
    rewrite lex_leb_refl_prefix. cbn. reflexivity.
Qed.

Lemma parse_time_range_never_raises_witness :
  (exists window,
     _parse_time_range "9:00 AM - eleven" (Datetime 2025 3 15 0 0 0 0) = Ok window) /\
  _parse_time_range "2:00 PM - 1:00 PM" (Datetime 2025 3 15 0 0 0 0)
    = Ok (Datetime 2025 3 15 14 0 0 0, Datetime 2025 3 15 15 0 0 0).
Proof.
  exact (parse_time_range_never_raises "9:00 AM - eleven" (Datetime 2025 3 15 0 0 0 0)
           eq_refl).
Defined.

(** An unparsable range gives the default window, 09:00 to 10:00; and an
    hour that would pass the end of the calendar is caught as well. *)
Example parse_time_range_unparsable :
  _parse_time_range "9:00 AM - eleven" (Datetime 2025 3 15 0 0 0 0)
    = Ok (Datetime 2025 3 15 9 0 0 0, Datetime 2025 3 15 10 0 0 0).
Proof. reflexivity. Qed.

Example parse_time_range_end_of_calendar :
  _parse_time_range "11:30 PM - 1:00 AM" (Datetime 9999 12 31 0 0 0 0)
    = Ok (Datetime 9999 12 31 9 0 0 0, Datetime 9999 12 31 10 0 0 0).
Proof. reflexivity. Qed.

Example parse_time_range_ordinary :
  _parse_time_range "9:00 AM - 11:00 AM" (Datetime 2025 3 15 0 0 0 0)
    = Ok (Datetime 2025 3 15 9 0 0 0, Datetime 2025 3 15 11 0 0 0).
Proof. reflexivity. Qed.

End TimeRangeClaims.

(* ===================================================================== *)
(** * The ISO text of dates and times *)
(* ===================================================================== *)

Section IsoFacts.











End IsoFacts.

(* ===================================================================== *)
(** * Properties of canonicalization and signing *)
(* ===================================================================== *)

Section SigningFacts.
Import Json.












(** The canonical text does not read the signature. *)
Lemma canonical_ignores_signature (m : A2AMessage) (sig : option string) :
  canonical (with_signature m sig) = canonical m.
Proof. reflexivity. Qed.

Lemma hex_digit_is_ascii (n : Z) : is_ascii_char (Sha256.hex_digit n) = true.
Proof.
  unfold Sha256.hex_digit. generalize (Z.to_nat n) as k. intros k.
  do 17 (destruct k as [|k]; [reflexivity |]). by destruct k.
Qed.

Lemma hex_is_ascii (bytes : list Z) :
  forallb is_ascii_char (list_ascii_of_string (Sha256.hex bytes)) = true.
Proof.
  unfold Sha256.hex. rewrite list_ascii_of_string_of_list_ascii.
  induction bytes as [|b rest IH]; [done |]. cbn [flat_map app forallb].
  by rewrite !hex_digit_is_ascii, IH.
Qed.

Lemma compare_digest_hex (sig : string) (bytes : list Z) :
  forallb is_ascii_char (list_ascii_of_string sig) = true ->
  compare_digest sig (Sha256.hex bytes) = Ok (String.eqb sig (Sha256.hex bytes)).
Proof. intros Hs. unfold compare_digest. by rewrite Hs, hex_is_ascii. Qed.


Lemma encode_dict_congr (l1 l2 : list (string * pyval)) :
  map (fun kv : string * pyval => (kv.1, encode kv.2)) l1
    = map (fun kv : string * pyval => (kv.1, encode kv.2)) l2 ->
  encode (PDict l1) = encode (PDict l2).
Proof. intros H. cbn [encode]. by rewrite H. Qed.

(** The canonical text reads the payload through the text of what
    [model_dump] makes of it. *)
Lemma canonical_with_payload_congr (m : A2AMessage) (p1 p2 : list (string * pyval)) :
  encode (model_dump (PDict p1)) = encode (model_dump (PDict p2)) ->
  canonical (with_payload m p1) = canonical (with_payload m p2).
Proof.
  intros H. destruct m as [? ? ? ? ? ? pl mt sig]. unfold canonical.
  apply encode_dict_congr.
  change (pop "signature" (to_dict (with_payload ?m ?p)))
    with (List.filter (fun kv : string * pyval => negb (String.eqb kv.1 "signature"))
            (to_dict (with_payload m p))).
  unfold to_dict, with_payload.
  cbn [List.filter fst snd negb String.eqb Ascii.eqb Bool.eqb map
       message_id trace_id correlation_id message_type version timestamp payload meta
       signature].
  by rewrite H.
Qed.


End SigningFacts.

Section SigningClaims.
Import Json.

(** C3. Verifying, with the same secret, the envelope that signing
    returned gives true (with an explicit secret, or with the secret of
    the settings on both sides). *)
Theorem verify_accepts_signed
    (settings : Settings) (E E' : A2AMessage) (secret : option string) :
  sign_message settings E secret = Ok E' ->
  verify_message settings E' secret = Ok true.
Proof.
  unfold sign_message, verify_message, compute_hmac_signature. intros Hsign.
  destruct (canonical E) as [text|e] eqn:Hc; [|discriminate].
  cbn [bind] in Hsign. injection Hsign as <-.
  cbn [signature with_signature]. rewrite canonical_ignores_signature, Hc. cbn [bind].
  unfold Sha256.hmac_sha256_hexdigest.
  rewrite compare_digest_hex by apply hex_is_ascii.
  by rewrite String.eqb_refl.
Qed.

Lemma verify_accepts_signed_witness :
  verify_message test_settings
    (with_signature original_message
       (Some "996fb297bd78c2ad0d7179814101c95320d437e049e36cc89c70f96f07367548"))
    (Some "test-secret-key") = Ok true.
Proof.
  apply (verify_accepts_signed test_settings original_message).
  vm_compute. reflexivity.
Defined.




(** A [Decimal] replaced by the float it converts to goes unnoticed too. *)
Lemma decimal_as_float_passes_verification :
  let priced (v : pyval) :=
    Message "m-3" "trace-1" "corr-1" PROPOSAL "1.0" (Datetime 2025 1 15 10 30 0 0)
      [("total", v)] (Meta "agent-1" None 5 300) in
  forall sig,
    canonical (priced (PDecimal (PyDecimal "1.50" (Some (PyFloat "1.5")) true)) sig)
      = canonical (priced (PFloat (PyFloat "1.5")) sig).
Proof. reflexivity. Qed.


Example canonical_text_of_dated_message :
  canonical dated_message
    = Ok (Json.join Json.double_quote
            ["{"; "correlation_id"; ": "; "corr-1"; ", "; "message_id"; ": "; "m-2"; ", ";
             "message_type"; ": "; "proposal"; ", "; "meta"; ": {"; "priority";
             ": 5, "; "receiver"; ": null, "; "sender"; ": "; "agent-1"; ", "; "ttl";
             ": 300}, "; "payload"; ": {"; "departure"; ": "; "2025-06-01T09:00:00";
             "}, "; "timestamp"; ": "; "2025-01-15T10:30:00"; ", "; "trace_id"; ": ";
             "trace-1"; ", "; "version"; ": "; "1.0"; "}"]).
Proof. vm_compute. reflexivity. Qed.

Example set_in_payload_raises :
  sign_message test_settings
    (with_payload original_message [("seen", PObject "set" true)]) (Some "test-secret-key")
    = Raise (TypeError "Object of type set is not JSON serializable").
Proof. reflexivity. Qed.

End SigningClaims.

(* ===================================================================== *)
(** * Coroutines of the process *)
(* ===================================================================== *)

Section ProcessFacts.
Import Planner.

Lemma mbind_ok {A B} (c : M A) (k : A -> M B) w w1 a :
  c w = (w1, Some (Ok a)) -> mbind c k w = k a w1.
Proof. intros H. unfold mbind. by rewrite H. Qed.

Lemma mbind_raise {A B} (c : M A) (k : A -> M B) w w1 e :
  c w = (w1, Some (Raise e)) -> mbind c k w = (w1, Some (Raise e)).
Proof. intros H. unfold mbind. by rewrite H. Qed.

Lemma mbind_inv_ok {A B} (c : M A) (k : A -> M B) w w2 b :
  mbind c k w = (w2, Some (Ok b)) ->
  exists w1 a, c w = (w1, Some (Ok a)) /\ k a w1 = (w2, Some (Ok b)).
Proof.
  unfold mbind. destruct (c w) as [w1 [[a|e]|]]; intros H; try discriminate. eauto.
Qed.

Lemma try_except_ok {A} (body : M A) handler w w1 a :
  body w = (w1, Some (Ok a)) -> try_except body handler w = (w1, Some (Ok a)).
Proof. intros H. unfold try_except. by rewrite H. Qed.

Lemma try_except_caught {A} (body : M A) handler w w1 e :
  body w = (w1, Some (Raise e)) -> exn_is_Exception e = true ->
  try_except body handler w = handler e w1.
Proof. intros H He. unfold try_except. by rewrite H, He. Qed.

Lemma try_except_passes {A} (body : M A) handler w w1 e :
  body w = (w1, Some (Raise e)) -> exn_is_Exception e = false ->
  try_except body handler w = (w1, Some (Raise e)).
Proof. intros H He. unfold try_except. by rewrite H, He. Qed.

(** The receive loop ends within the turns it takes the clock to pass the
    timeout, when every sleep lets at least [pace] microseconds pass. *)
Lemma receive_loop_finishes (sleep : World -> World) (pace : Z) :
  0 < pace ->
  (forall w, w_now w + pace <= w_now (sleep w)) ->
  forall turns start agent_id limit message_type w,
    limit - (w_now w - start) <= pace * Z.of_nat turns ->
    exists w1 r,
      receive_loop sleep turns start agent_id (Some limit) message_type w = (w1, Some r).
Proof.
  intros Hpace Hsleep turns. induction turns as [|n IH]; intros start agent_id limit mt w Hleft.
  - cbn [receive_loop]. destruct (Bus.receive_poll _ _ _) as [[m|] a]; [by eauto |].
    replace (limit <=? w_now w - start) with true by (symmetry; apply Z.leb_le; lia).
    eauto.
  - cbn [receive_loop]. destruct (Bus.receive_poll _ _ _) as [[m|] a]; [by eauto |].
    destruct (limit <=? w_now w - start) eqn:Hd; [by eauto |].
    apply IH. specialize (Hsleep w). lia.
Qed.

(** The loop leaves the settings as the sleeps leave them. *)
Lemma receive_loop_keeps_backend (sleep : World -> World) :
  (forall w, state_backend (w_settings (sleep w)) = state_backend (w_settings w)) ->
  forall turns start agent_id timeout message_type w w1 r,
    receive_loop sleep turns start agent_id timeout message_type w = (w1, r) ->
    state_backend (w_settings w1) = state_backend (w_settings w).
Proof.
  intros Hkeep turns.
  induction turns as [|n IH]; intros start agent_id timeout mt w w1 r; cbn [receive_loop];
    destruct (Bus.receive_poll _ _ _) as [[m|] a];
    try (intros [= <- <-]; by destruct w);
    destruct timeout as [limit|]; try (intros [= <- <-]; done);
    destruct (limit <=? w_now w - start); try (intros [= <- <-]; done).
  intros Hrec. rewrite (IH _ _ _ _ _ _ _ Hrec). apply Hkeep.
Qed.

End ProcessFacts.

(* ===================================================================== *)
(** * Properties of the await phase *)
(* ===================================================================== *)

Section AwaitClaims.
Import Planner.

Lemma set_state_store_twice w s1 s2 :
  set_state_store (set_state_store w s1) s2 = set_state_store w s2.
Proof. by destruct w. Qed.

Lemma get_state_store_created w s :
  get_state_store (set_state_store w s) = (set_state_store w s, Some (Ok s)).
Proof. by destruct w. Qed.

(** A read of the store singleton, when the singleton is available. *)
Lemma state_get_available key w w1 s :
  get_state_store w = (w1, Some (Ok s)) ->
  state_get key w =
    (set_state_store w1 (Store._cleanup_expired (w_now w1) s),
     Some (Ok (default PNone
                 (Store._store (Store._cleanup_expired (w_now w1) s) !! key)))).
Proof.
  intros Hs. unfold state_get, on_state_store, mbind. by rewrite Hs.
Qed.

Lemma state_get_unavailable key w w1 e :
  get_state_store w = (w1, Some (Raise e)) -> state_get key w = (w1, Some (Raise e)).
Proof. intros Hs. unfold state_get, on_state_store, mbind. by rewrite Hs. Qed.

(** With the in-memory backend the singleton is always available. *)
Lemma get_state_store_inmemory w :
  state_backend (w_settings w) = "inmemory" ->
  exists w1 s, get_state_store w = (w1, Some (Ok s)) /\ w_now w1 = w_now w.
Proof.
  intros Hb. unfold get_state_store. destruct (w_state_store w) as [s|] eqn:Hs; [by eauto |].
  rewrite Hb. cbn. destruct w; cbn in *. eauto.
Qed.

(** The value the fall-back gives from the entries that are live at
    [now] in the store [s]. *)
Lemma wait_after_timeout
    (sleep : World -> World) (turns : nat) (context : TaskContext) (timeout : Z)
    (w w1 w2 : World) (s : Store.InMemoryStateStore) :
  receive_message sleep turns "orchestrator" (Some timeout) (Some OPTIMIZED_PLAN) w
    = (w1, Some (Ok None)) ->
  get_state_store w1 = (w2, Some (Ok s)) ->
  let live := Store._store (Store._cleanup_expired (w_now w2) s) in
  let by_task := default PNone (live !! ("optimized_plan:" ++ ctx_task_id context)%string) in
  let by_correlation :=
    default PNone (live !! ("optimized_plan:" ++ ctx_correlation_id context)%string) in
  _wait_for_optimization sleep turns context timeout w
    = (set_state_store w2 (Store._cleanup_expired (w_now w2) s),
       Some (Ok (if truthy by_task then by_task
                 else if truthy by_correlation then by_correlation
                 else empty_optimization))).
Proof.
  intros Hrecv Hstore live by_task by_correlation.
  unfold _wait_for_optimization. unfold mbind at 1. rewrite Hrecv.
  unfold mbind at 1. rewrite (state_get_available _ _ _ _ Hstore).
  fold live. fold by_task.
  destruct (truthy by_task) eqn:Ht; cbn [negb].
  - unfold mbind, ret. by rewrite Ht.
  - unfold mbind at 1.
    rewrite (state_get_available _ _ _ _ (get_state_store_created _ _)).
    replace (w_now (set_state_store w2 (Store._cleanup_expired (w_now w2) s)))
      with (w_now w2) by (by destruct w2).
    rewrite cleanup_idempotent, set_state_store_twice.
    fold live. fold by_correlation. unfold ret.
    by destruct (truthy by_correlation).
Qed.

(** With the in-memory backend the wait never raises: it returns a plan,
    or is still waiting when the turns are used up. *)
Lemma wait_never_raises_inmemory
    (sleep : World -> World) (turns : nat) (context : TaskContext) (timeout : Z)
    (w : World) :
  (forall w', state_backend (w_settings (sleep w')) = state_backend (w_settings w')) ->
  state_backend (w_settings w) = "inmemory" ->
  forall e, (_wait_for_optimization sleep turns context timeout w).2 <> Some (Raise e).
Proof.
  intros Hkeep Hb e.
  destruct (receive_message sleep turns "orchestrator" (Some timeout) (Some OPTIMIZED_PLAN) w)
    as [w1 [[[m|]|e1]|]] eqn:Hrecv.
  - unfold _wait_for_optimization, mbind. by rewrite Hrecv.
  - assert (Hb1 : state_backend (w_settings w1) = "inmemory").
    { unfold receive_message in Hrecv.
      destruct (receive_loop _ _ _ _ _ _ _) as [w3 [r|]] eqn:Hl; [|discriminate].
      injection Hrecv as <- _.
      by rewrite (receive_loop_keeps_backend sleep Hkeep _ _ _ _ _ _ _ _ Hl). }
    destruct (get_state_store_inmemory w1 Hb1) as (w2 & s & Hs & _).
    by rewrite (wait_after_timeout _ _ _ _ _ _ _ _ Hrecv Hs).
  - unfold receive_message in Hrecv.
    destruct (receive_loop _ _ _ _ _ _ _) as [w3 [r|]]; discriminate.
  - unfold _wait_for_optimization, mbind. by rewrite Hrecv.
Qed.

(** With the in-memory backend and a clock that every sleep advances by at
    least [pace], the wait returns a plan once the turns cover the timeout. *)
Lemma wait_returns_with_enough_turns
    (sleep : World -> World) (pace : Z) (turns : nat) (context : TaskContext)
    (timeout : Z) (w : World) :
  0 < pace ->
  (forall w', w_now w' + pace <= w_now (sleep w')) ->
  (forall w', state_backend (w_settings (sleep w')) = state_backend (w_settings w')) ->
  state_backend (w_settings w) = "inmemory" ->
  timeout <= pace * Z.of_nat turns ->
  exists w1 plan, _wait_for_optimization sleep turns context timeout w = (w1, Some (Ok plan)).
Proof.
  intros Hpace Hsleep Hkeep Hb Hturns.
  destruct (receive_loop_finishes sleep pace Hpace Hsleep turns (w_now w) "orchestrator"
              timeout (Some OPTIMIZED_PLAN) w ltac:(lia)) as (w1 & r & Hloop).
  assert (Hrecv : receive_message sleep turns "orchestrator" (Some timeout)
                    (Some OPTIMIZED_PLAN) w = (w1, Some (Ok r)))
    by (unfold receive_message; by rewrite Hloop).
  destruct r as [m|].
  - unfold _wait_for_optimization, mbind. rewrite Hrecv. unfold ret. eauto.
  - assert (Hb1 : state_backend (w_settings w1) = "inmemory")
      by (by rewrite (receive_loop_keeps_backend sleep Hkeep _ _ _ _ _ _ _ _ Hloop)).
    destruct (get_state_store_inmemory w1 Hb1) as (w2 & s & Hs & _).
    rewrite (wait_after_timeout _ _ _ _ _ _ _ _ Hrecv Hs). eauto.
Qed.

(** C1, as the code has it. When the await phase times out with no
    [optimized_plan] envelope and the store singleton is available, the
    orchestrator reads the key ["optimized_plan:{task_id}"] and, when that
    read gives nothing (no entry, or an entry that is false as a condition,
    such as [None] or an empty dictionary), the key
    ["optimized_plan:{correlation_id}"]; when that gives nothing either it
    returns [{"flights": [], "hotels": [], "activities": []}]. It returns a
    value in each case, and the key of the trace id is not read. *)
Theorem wait_falls_back_to_task_then_correlation_key
    (sleep : World -> World) (turns : nat) (context : TaskContext) (timeout : Z)
    (w w1 w2 : World) (s : Store.InMemoryStateStore) :
  receive_message sleep turns "orchestrator" (Some timeout) (Some OPTIMIZED_PLAN) w
    = (w1, Some (Ok None)) ->
  get_state_store w1 = (w2, Some (Ok s)) ->
  let live := Store._store (Store._cleanup_expired (w_now w2) s) in
  let by_task := default PNone (live !! ("optimized_plan:" ++ ctx_task_id context)%string) in
  let by_correlation :=
    default PNone (live !! ("optimized_plan:" ++ ctx_correlation_id context)%string) in
  _wait_for_optimization sleep turns context timeout w
    = (set_state_store w2 (Store._cleanup_expired (w_now w2) s),
       Some (Ok (if truthy by_task then by_task
                 else if truthy by_correlation then by_correlation
                 else empty_optimization))) /\
  (by_task = PNone -> by_correlation = PNone ->
   (_wait_for_optimization sleep turns context timeout w).2 = Some (Ok empty_optimization)).
Proof.
  intros Hrecv Hstore live by_task by_correlation.
  pose proof (wait_after_timeout sleep turns context timeout w w1 w2 s Hrecv Hstore) as H.
  cbv zeta in H. fold live in H. fold by_task in H. fold by_correlation in H.
  split; [exact H |].
  intros Ht Hc. rewrite H. cbn [snd]. by rewrite Ht, Hc.
Qed.

Lemma wait_falls_back_to_task_then_correlation_key_witness :
  _wait_for_optimization idle 20 sample_context 1000000
    (world_with (store_with "optimized_plan:task-1"))
  = (set_now (world_with (store_with "optimized_plan:task-1")) 1000000,
     Some (Ok stored_plan)).
Proof.
  destruct (wait_falls_back_to_task_then_correlation_key idle 20 sample_context 1000000
              (world_with (store_with "optimized_plan:task-1"))
              (set_now (world_with (store_with "optimized_plan:task-1")) 1000000)
              (set_now (world_with (store_with "optimized_plan:task-1")) 1000000)
              (store_with "optimized_plan:task-1")
              ltac:(vm_compute; reflexivity) ltac:(vm_compute; reflexivity)) as [H _].
  rewrite H. vm_compute. reflexivity.
Defined.

(** C1 fails as stated. With a plan stored only under the key of the
    trace id, the code returns the empty result, where reading the task
    key and then the trace key gives the plan; and with a plan stored only
    under the key of the correlation id, the code returns the plan although
    the keys of the task id and of the trace id are both absent. *)
Lemma fallback_reads_correlation_key_not_trace_key :
  (_wait_for_optimization idle 20 sample_context 1000000
     (world_with (store_with "optimized_plan:trace-1"))).2 = Some (Ok empty_optimization) /\
  (fallback_by_task_then_trace sample_context
     (set_now (world_with (store_with "optimized_plan:trace-1")) 1000000)).2
    = Some (Ok stored_plan) /\
  (_wait_for_optimization idle 20 sample_context 1000000
     (world_with (store_with "optimized_plan:corr-1"))).2 = Some (Ok stored_plan) /\
  Store._store (store_with "optimized_plan:corr-1") !! "optimized_plan:task-1" = None /\
  Store._store (store_with "optimized_plan:corr-1") !! "optimized_plan:trace-1" = None.
Proof. vm_compute. repeat split; reflexivity. Qed.

(** The consumer's double write is what the second read finds: after
    [optimize_proposal] stored a plan for a proposal with the correlation
    id of the run, a wait that times out returns that plan. *)
Example fallback_finds_the_consumers_plan :
  let proposal :=
    Message "m-9" "trace-1" "corr-1" PROPOSAL "1.0" sample_time [] (Meta "crewai-planner"
      (Some "adk-optimizer") 5 300) None in
  let w := (store_optimized_plan proposal stored_plan
              (MkWorld 0 Bus.init None test_settings [] 0 None)).1 in
  (_wait_for_optimization idle 20 sample_context 1000000 w).2 = Some (Ok stored_plan).
Proof. vm_compute. reflexivity. Qed.

(** An envelope that arrives in time is returned without a look at the store. *)
Example wait_returns_the_envelope :
  let reply :=
    Message "m-10" "trace-1" "corr-1" OPTIMIZED_PLAN "1.0" sample_time
      [("hotels", PList [PStr "Sea View"])] (Meta "adk-optimizer" (Some "orchestrator") 5 300)
      None in
  let arrives (w : World) : World :=
    set_adapter (idle w) (Bus.send_message (w_adapter w) reply None).1.1 in
  (_wait_for_optimization arrives 20 sample_context 1000000
     (MkWorld 0 Bus.init None test_settings [] 0 None)).2
    = Some (Ok (PDict [("hotels", PList [PStr "Sea View"])])).
Proof. vm_compute. reflexivity. Qed.

End AwaitClaims.

(* ===================================================================== *)
(** * Properties of the orchestrator *)
(* ===================================================================== *)

Section OrchestratorClaims.
Import Planner.

Variable sleep : World -> World.
Variable plan_itinerary : TaskContext -> MonitoringCallbacks -> M pyval.
Variable _create_itinerary : TaskContext -> pyval -> MonitoringCallbacks -> M Itinerary.

Local Abbreviation body := (execute_body sleep plan_itinerary _create_itinerary).
Local Abbreviation run := (execute sleep plan_itinerary _create_itinerary).
Local Abbreviation to_await := (up_to_await plan_itinerary).
Local Abbreviation to_assembly := (up_to_assembly sleep plan_itinerary).

Lemma body_from_producer turns context callbacks w0 wa :
  up_to_producer context callbacks w0 = (wa, Some (Ok tt)) ->
  body turns context callbacks w0 =
    mbind (plan_itinerary context callbacks) (fun _ =>
      mbind (on_task_progress callbacks (ctx_task_id context) (PyFloat "0.6") None
               "Waiting for ADK agent optimization" None) (fun _ =>
      mbind (_wait_for_optimization sleep turns context thirty_seconds) (fun optimized_plan =>
      mbind (on_task_progress callbacks (ctx_task_id context) (PyFloat "0.8") None
               "Assembling final itinerary" None) (fun _ =>
      mbind (_create_itinerary context optimized_plan callbacks) (fun itinerary =>
      mbind (set_status context COMPLETED) (fun _ =>
      mbind (on_task_end callbacks (ctx_task_id context) None
               "Workflow completed successfully"
               (Some [("itinerary_id", PStr (itinerary_id itinerary));
                      ("total_cost", PStr (dec_text (total_cost_total itinerary)))]))
        (fun _ => ret itinerary))))))) wa.
Proof.
  unfold up_to_producer. intros H.
  apply mbind_inv_ok in H as (w1 & [] & H1 & H2).
  unfold execute_body. rewrite (mbind_ok _ _ _ _ _ H1). by rewrite (mbind_ok _ _ _ _ _ H2).
Qed.

Lemma body_from_await turns context callbacks w0 wa :
  to_await context callbacks w0 = (wa, Some (Ok tt)) ->
  body turns context callbacks w0 =
    mbind (_wait_for_optimization sleep turns context thirty_seconds) (fun optimized_plan =>
      mbind (on_task_progress callbacks (ctx_task_id context) (PyFloat "0.8") None
               "Assembling final itinerary" None) (fun _ =>
      mbind (_create_itinerary context optimized_plan callbacks) (fun itinerary =>
      mbind (set_status context COMPLETED) (fun _ =>
      mbind (on_task_end callbacks (ctx_task_id context) None
               "Workflow completed successfully"
               (Some [("itinerary_id", PStr (itinerary_id itinerary));
                      ("total_cost", PStr (dec_text (total_cost_total itinerary)))]))
        (fun _ => ret itinerary))))) wa.
Proof.
  unfold up_to_await. intros H.
  apply mbind_inv_ok in H as (w1 & [] & H1 & H).
  apply mbind_inv_ok in H as (w2 & v & H2 & H3).
  rewrite (body_from_producer _ _ _ _ _ H1).
  rewrite (mbind_ok _ _ _ _ _ H2). by rewrite (mbind_ok _ _ _ _ _ H3).
Qed.

Lemma body_from_assembly turns context callbacks w0 wa optimized_plan :
  to_assembly turns context callbacks w0 = (wa, Some (Ok optimized_plan)) ->
  body turns context callbacks w0 =
    mbind (_create_itinerary context optimized_plan callbacks) (fun itinerary =>
      mbind (set_status context COMPLETED) (fun _ =>
      mbind (on_task_end callbacks (ctx_task_id context) None
               "Workflow completed successfully"
               (Some [("itinerary_id", PStr (itinerary_id itinerary));
                      ("total_cost", PStr (dec_text (total_cost_total itinerary)))]))
        (fun _ => ret itinerary))) wa.
Proof.
  unfold up_to_assembly. intros H.
  apply mbind_inv_ok in H as (w1 & [] & H1 & H).
  apply mbind_inv_ok in H as (w2 & v & H2 & H).
  apply mbind_inv_ok in H as (w3 & [] & H3 & H4).
  injection H4 as <- <-.
  rewrite (body_from_await _ _ _ _ _ H1).
  rewrite (mbind_ok _ _ _ _ _ H2). by rewrite (mbind_ok _ _ _ _ _ H3).
Qed.

(** What [_emit_event] lets through is no [Exception]. *)
Lemma emit_signal_is_no_Exception listeners event signal :
  (Monitoring._emit_event listeners event).2 = Some signal ->
  exn_is_Exception signal = false.
Proof.
  induction listeners as [|l ls IH]; cbn [Monitoring._emit_event]; [discriminate |].
  destruct (l_raises l event) as [e1|]; [destruct (exn_is_Exception e1) eqn:He1 |];
    cbn [snd]; try (by apply IH).
  by intros [= <-].
Qed.

Lemma body_finishes turns context callbacks w0 wa :
  to_await context callbacks w0 = (wa, Some (Ok tt)) ->
  body turns context callbacks w0 =
    mbind (_wait_for_optimization sleep turns context thirty_seconds)
      (finish _create_itinerary context callbacks) wa.
Proof. intros H. by rewrite (body_from_await _ _ _ _ _ H). Qed.

(** C8. In a run of [execute] whose context was created.  When the body
    of the [try] raises an [Exception], the status of the context is set
    to failed and a [task_error] event with the class name and the text of
    the error is emitted; the same exception is then raised to the caller,
    unless a listener raised, on that event, something that is no
    [Exception], which is raised in its place.  What the body raises that
    is no [Exception] is raised to the caller from the state the body
    left, with no report.  Either way the run raises: nothing is
    swallowed.  The body raises whatever the producer step, the await
    phase or the assembly raises.  A wait that times out is no failure:
    the body goes on with the plan of the fall-back; and when the assembly
    returns, the status is set to completed and [task_end] is emitted. *)
Theorem execute_reports_and_reraises
    (turns : nat) (request_params : list (string * pyval)) (callbacks : MonitoringCallbacks)
    (w w0 : World) (context : TaskContext) :
  begin request_params callbacks w = (w0, Some (Ok context)) ->
  (forall w1 e,
     body turns context callbacks w0 = (w1, Some (Raise e)) ->
     exn_is_Exception e = true ->
     exists w2 id,
       let report :=
         Event id TASK_ERROR SEV_ERROR (w_now w1) (cb_trace_id callbacks)
           (cb_correlation_id callbacks) (Some (ctx_task_id context)) None
           ("Workflow failed: " ++ exn_msg e)%string []
           (Some [("type", exn_type e); ("message", exn_msg e)]) in
       w_context w2 = Some (with_status context FAILED) /\
       w_emitted w2 = (w_emitted w1 ++ [report])%list /\
       run turns request_params callbacks w
         = (w2, Some (Raise (default e (Monitoring._emit_event (_listeners callbacks)
                                          report).2)))) /\
  (forall w1 e,
     body turns context callbacks w0 = (w1, Some (Raise e)) ->
     exn_is_Exception e = false ->
     run turns request_params callbacks w = (w1, Some (Raise e))) /\
  (forall w1 e,
     body turns context callbacks w0 = (w1, Some (Raise e)) ->
     exists w2 e', run turns request_params callbacks w = (w2, Some (Raise e'))) /\
  (forall wa wb e,
     up_to_producer context callbacks w0 = (wa, Some (Ok tt)) ->
     plan_itinerary context callbacks wa = (wb, Some (Raise e)) ->
     body turns context callbacks w0 = (wb, Some (Raise e))) /\
  (forall wa wb e,
     to_await context callbacks w0 = (wa, Some (Ok tt)) ->
     _wait_for_optimization sleep turns context thirty_seconds wa = (wb, Some (Raise e)) ->
     body turns context callbacks w0 = (wb, Some (Raise e))) /\
  (forall wa wb optimized_plan e,
     to_assembly turns context callbacks w0 = (wa, Some (Ok optimized_plan)) ->
     _create_itinerary context optimized_plan callbacks wa = (wb, Some (Raise e)) ->
     body turns context callbacks w0 = (wb, Some (Raise e))) /\
  (forall wa wb wc s,
     to_await context callbacks w0 = (wa, Some (Ok tt)) ->
     receive_message sleep turns "orchestrator" (Some thirty_seconds) (Some OPTIMIZED_PLAN) wa
       = (wb, Some (Ok None)) ->
     get_state_store wb = (wc, Some (Ok s)) ->
     exists wd optimized_plan,
       _wait_for_optimization sleep turns context thirty_seconds wa
         = (wd, Some (Ok optimized_plan)) /\
       body turns context callbacks w0
         = finish _create_itinerary context callbacks optimized_plan wd) /\
  (forall wa wb optimized_plan itinerary,
     to_assembly turns context callbacks w0 = (wa, Some (Ok optimized_plan)) ->
     _create_itinerary context optimized_plan callbacks wa = (wb, Some (Ok itinerary)) ->
     exists w2 id,
       let done :=
         Event id TASK_END SEV_INFO (w_now wb) (cb_trace_id callbacks)
           (cb_correlation_id callbacks) (Some (ctx_task_id context)) None
           "Workflow completed successfully"
           [("itinerary_id", PStr (itinerary_id itinerary));
            ("total_cost", PStr (dec_text (total_cost_total itinerary)))] None in
       w_context w2 = Some (with_status context COMPLETED) /\
       w_emitted w2 = (w_emitted wb ++ [done])%list /\
       run turns request_params callbacks w
         = (w2, Some (match (Monitoring._emit_event (_listeners callbacks) done).2 with
                      | None => Ok itinerary
                      | Some signal => Raise signal
                      end))).
Proof.
  intros Hbegin.
  assert (Hreport : forall w1 e,
            body turns context callbacks w0 = (w1, Some (Raise e)) ->
            exn_is_Exception e = true ->
            exists w2 id,
              let report :=
                Event id TASK_ERROR SEV_ERROR (w_now w1) (cb_trace_id callbacks)
                  (cb_correlation_id callbacks) (Some (ctx_task_id context)) None
                  ("Workflow failed: " ++ exn_msg e)%string []
                  (Some [("type", exn_type e); ("message", exn_msg e)]) in
              w_context w2 = Some (with_status context FAILED) /\
              w_emitted w2 = (w_emitted w1 ++ [report])%list /\
              run turns request_params callbacks w
                = (w2, Some (Raise (default e (Monitoring._emit_event
                                                 (_listeners callbacks) report).2)))).
  { intros w1 e Hbody He.
    exists (set_emitted
              (set_uuids (set_context w1 (Some (with_status context FAILED)))
                 (w_uuids w1 + 1))
              (w_emitted w1 ++
               [Event ("uuid-" ++ Json.int_repr (w_uuids w1)) TASK_ERROR SEV_ERROR (w_now w1)
                  (cb_trace_id callbacks) (cb_correlation_id callbacks)
                  (Some (ctx_task_id context)) None
                  ("Workflow failed: " ++ exn_msg e)%string []
                  (Some [("type", exn_type e); ("message", exn_msg e)])])%list),
           ("uuid-" ++ Json.int_repr (w_uuids w1))%string.
    cbv zeta. split; [by destruct w1 |]. split; [by destruct w1 |].
    unfold execute. rewrite (mbind_ok _ _ _ _ _ Hbegin).
    rewrite (try_except_caught _ _ _ _ _ Hbody He).
    unfold report_failure, set_status, on_task_error, uuid4, clock, Planner._emit_event,
      raise, mbind, task_error_event.
    destruct w1 as [now1 a1 s1 st1 em1 u1 c1].
    cbn [truthy_opt_str negb String.eqb default from_option id w_now set_context set_uuids
         w_emitted w_uuids w_context set_emitted w_adapter w_state_store w_settings].
    destruct (Monitoring._emit_event _ _).2; reflexivity. }
  assert (Hpass : forall w1 e,
            body turns context callbacks w0 = (w1, Some (Raise e)) ->
            exn_is_Exception e = false ->
            run turns request_params callbacks w = (w1, Some (Raise e))).
  { intros w1 e Hbody He. unfold execute. rewrite (mbind_ok _ _ _ _ _ Hbegin).
    by apply try_except_passes. }
  split; [exact Hreport |]. split; [exact Hpass |]. split.
  { intros w1 e Hbody. destruct (exn_is_Exception e) eqn:He.
    - destruct (Hreport w1 e Hbody He) as (w2 & id & _ & _ & Hrun). eauto.
    - rewrite (Hpass w1 e Hbody He). eauto. }
  split.
  { intros wa wb e Hup Hraise.
    rewrite (body_from_producer _ _ _ _ _ Hup). by apply mbind_raise. }
  split.
  { intros wa wb e Hup Hraise.
    rewrite (body_from_await _ _ _ _ _ Hup). by apply mbind_raise. }
  split.
  { intros wa wb optimized_plan e Hup Hraise.
    rewrite (body_from_assembly _ _ _ _ _ _ Hup). by apply mbind_raise. }
  split.
  { intros wa wb wc s Hup Hrecv Hstore.
    pose proof (wait_after_timeout sleep turns context thirty_seconds wa wb wc s Hrecv Hstore)
      as Hwait. cbv zeta in Hwait.
    eexists _, _. split; [exact Hwait |].
    rewrite (body_finishes _ _ _ _ _ Hup). by rewrite (mbind_ok _ _ _ _ _ Hwait). }
  intros wa wb optimized_plan itinerary Hup Hmade.
  exists (set_emitted
            (set_uuids (set_context wb (Some (with_status context COMPLETED)))
               (w_uuids wb + 1))
            (w_emitted wb ++
             [Event ("uuid-" ++ Json.int_repr (w_uuids wb)) TASK_END SEV_INFO (w_now wb)
                (cb_trace_id callbacks) (cb_correlation_id callbacks)
                (Some (ctx_task_id context)) None "Workflow completed successfully"
                [("itinerary_id", PStr (itinerary_id itinerary));
                 ("total_cost", PStr (dec_text (total_cost_total itinerary)))] None])%list),
         ("uuid-" ++ Json.int_repr (w_uuids wb))%string.
  cbv zeta. split; [by destruct wb |]. split; [by destruct wb |].
  unfold execute. rewrite (mbind_ok _ _ _ _ _ Hbegin).
  assert (Hbody : body turns context callbacks w0
                  = mbind (set_status context COMPLETED) (fun _ =>
                      mbind (on_task_end callbacks (ctx_task_id context) None
                               "Workflow completed successfully"
                               (Some [("itinerary_id", PStr (itinerary_id itinerary));
                                      ("total_cost",
                                       PStr (dec_text (total_cost_total itinerary)))]))
                        (fun _ => ret itinerary)) wb).
  { rewrite (body_from_assembly _ _ _ _ _ _ Hup). by rewrite (mbind_ok _ _ _ _ _ Hmade). }
  unfold try_except. rewrite Hbody.
  unfold set_status, on_task_end, uuid4, clock, Planner._emit_event, ret, mbind.
  destruct wb as [nowb ab sb stb emb ub cb].
  cbn [default from_option id w_now set_context set_uuids w_emitted w_uuids w_context
       set_emitted w_adapter w_state_store w_settings].
  destruct (Monitoring._emit_event _ _).2 as [signal|] eqn:Hsig; [| reflexivity].
  destruct (exn_is_Exception signal) eqn:Hs; [| reflexivity].
  by rewrite (emit_signal_is_no_Exception _ _ _ Hsig) in Hs.
Qed.

End OrchestratorClaims.

Section OrchestratorWitness.
Import Planner.

Lemma execute_reports_and_reraises_witness :
  exists w2 id,
    execute idle failing_producer plain_assembly 20 [("destination", PStr "Goa")]
      sample_callbacks fresh_world
      = (w2, Some (Raise (ValueError "LLM response is not valid JSON"))) /\
    w_context w2
      = Some (Context "uuid-0" "corr-1" "trace-1" [("destination", PStr "Goa")] FAILED) /\
    last (w_emitted w2)
      = Some (Event id TASK_ERROR SEV_ERROR 0 "trace-1" "corr-1" (Some "uuid-0") None
                "Workflow failed: LLM response is not valid JSON" []
                (Some [("type", "ValueError");
                       ("message", "LLM response is not valid JSON")])).
Proof.
  edestruct (execute_reports_and_reraises idle failing_producer plain_assembly 20
               [("destination", PStr "Goa")] sample_callbacks fresh_world)
    as (Hfail & _ & _ & Hproducer & _); [lazy; reflexivity |].
  edestruct Hfail as (w2 & id & Hctx & Hev & Hrun).
  - eapply Hproducer; lazy; reflexivity.
  - reflexivity.
  - exists w2, id. split; [exact Hrun |]. split; [exact Hctx |].
    rewrite Hev. apply last_snoc.
Defined.

(** A cancellation is no [Exception]: it passes the [except] clause, with
    no [task_error] event and the status as it was. *)
Example execute_lets_cancellation_pass :
  let r := execute idle cancelled_producer plain_assembly 20 [("destination", PStr "Goa")]
             sample_callbacks fresh_world in
  r.2 = Some (Raise (Exn "CancelledError" "" false)) /\
  option_map ctx_status (w_context r.1) = Some RUNNING /\
  map event_type (w_emitted r.1) = [TASK_START; TASK_PROGRESS].
Proof. vm_compute. repeat split; reflexivity. Qed.

(** A listener that raises [KeyboardInterrupt] on the [task_error] event:
    the interrupt is raised in place of the error of the producer, the
    status being failed already. *)
Example listener_signal_replaces_the_error :
  let r := execute idle failing_producer plain_assembly 20 [("destination", PStr "Goa")]
             interrupting_callbacks fresh_world in
  r.2 = Some (Raise (Exn "KeyboardInterrupt" "" false)) /\
  option_map ctx_status (w_context r.1) = Some FAILED /\
  map event_type (w_emitted r.1) = [TASK_START; TASK_PROGRESS; TASK_ERROR].
Proof. vm_compute. repeat split; reflexivity. Qed.

(** A run in which no envelope arrives and the store holds nothing: the
    wait times out after thirty seconds and the run completes. *)
Example execute_completes_after_timeout :
  let r := execute idle quiet_producer plain_assembly 400 [("destination", PStr "Goa")]
             sample_callbacks fresh_world in
  r.2 = Some (Ok (MkItinerary "itin-1" (PyDecimal "0" (Some (PyFloat "0.0")) false))) /\
  option_map ctx_status (w_context r.1) = Some COMPLETED /\
  w_now r.1 = 30000000 /\
  map event_type (w_emitted r.1)
    = [TASK_START; TASK_PROGRESS; TASK_PROGRESS; TASK_PROGRESS; TASK_END].
Proof. vm_compute. repeat split; reflexivity. Qed.

End OrchestratorWitness.

(* ===================================================================== *)
(** * Further properties of the message bus *)
(* ===================================================================== *)

Section BusRunFacts.
Import Bus.

Lemma notify_isolates_exceptions cbs message :
  (forall cb e, cb ∈ cbs -> cb_raises cb message = Some e -> exn_is_Exception e = true) ->
  (notify cbs message).2 = None /\ invoked (notify cbs message).1 = map cb_id cbs.
Proof.
  induction cbs as [|cb rest IH]; intros Hq; [done |].
  destruct IH as [IH1 IH2].
  { intros c e Hc. apply Hq. apply elem_of_cons. by right. }
  cbn [notify map]. destruct (cb_raises cb message) as [e|] eqn:He.
  - rewrite (Hq cb e) by (done || apply elem_of_cons; by left).
    cbn [fst snd invoked]. by rewrite IH1, IH2.
  - cbn [fst snd invoked]. by rewrite IH1, IH2.
Qed.

Lemma send_message_adapter a message receiver target :
  target_of message receiver = Some target ->
  (send_message a message receiver).1.1
    = Adapter (<[target := (queue_of a target ++ [message])%list]> (_queues a))
        (_subscribers a)
        (if _max_history a <? Z.of_nat (length (_message_history a ++ [message])%list)
         then drop 1 (_message_history a ++ [message])%list
         else (_message_history a ++ [message])%list)
        (_max_history a).
Proof.
  unfold target_of, send_message. intros ->.
  by destruct (_subscribers a !! target).
Qed.

Lemma send_message_unresolved a message :
  target_of message None = None -> (send_message a message None).1.1 = a.
Proof. unfold target_of, send_message. by intros ->. Qed.

End BusRunFacts.

Section BusRunClaims.
Import Bus.

(** X1. A send with a resolvable target whose subscribers raise nothing
    but [Exception]s returns true; the envelope is appended to the end of
    the target's queue and no other queue changes; the subscribers stay as
    they were; and every subscriber of the target is called once, in the
    order of registration, also after one of them raised. *)
Theorem send_appends_and_notifies_in_order
    (a : InMemoryA2AAdapter) (message : A2AMessage) (receiver : option string)
    (target : string) :
  target_of message receiver = Some target ->
  (forall cb e, cb ∈ subscribers_of a target -> cb_raises cb message = Some e ->
                exn_is_Exception e = true) ->
  (send_message a message receiver).1.2 = Ok true /\
  queue_of (send_message a message receiver).1.1 target
    = (queue_of a target ++ [message])%list /\
  (forall other, other <> target ->
     _queues (send_message a message receiver).1.1 !! other = _queues a !! other) /\
  _subscribers (send_message a message receiver).1.1 = _subscribers a /\
  invoked (send_message a message receiver).2 = map cb_id (subscribers_of a target).
Proof.
  intros Ht Hq.
  rewrite (send_message_adapter _ _ _ _ Ht). cbn [_queues _subscribers].
  unfold queue_of at 1. cbn [_queues]. rewrite lookup_insert_eq. cbn [default].
  assert (Hres : (send_message a message receiver).1.2 = Ok true /\
                 invoked (send_message a message receiver).2
                   = map cb_id (subscribers_of a target)).
  { unfold target_of in Ht. unfold send_message. rewrite Ht.
    unfold subscribers_of in *. destruct (_subscribers a !! target) as [cbs|]; [|done].
    cbn [default] in *. destruct (notify_isolates_exceptions cbs message Hq) as [H1 H2].
    cbn [fst snd invoked]. by rewrite H1, H2. }
  destruct Hres as [H1 H2]. repeat split; try done.
  intros other Ho. by rewrite lookup_insert_ne.
Qed.

Lemma send_appends_and_notifies_in_order_witness :
  let noisy := Callback 3 (fun _ => Some (ValueError "handler failed")) in
  let a := subscribe (subscribe init "B" noisy) "B" watcher in
  (send_message a (sample_message "m1" (Some "B")) None).1.2 = Ok true /\
  invoked (send_message a (sample_message "m1" (Some "B")) None).2 = [3%nat; 7%nat].
Proof.
  intros noisy a.
  destruct (send_appends_and_notifies_in_order a (sample_message "m1" (Some "B")) None "B"
              eq_refl) as (Hok & _ & _ & _ & Hinv).
  - intros cb e Hin Hr. vm_compute in Hin.
    apply elem_of_cons in Hin as [->|Hin].
    + cbn in Hr. by injection Hr as <-.
    + apply elem_of_cons in Hin as [->|Hin]; [discriminate |].
      by apply elem_of_nil in Hin.
  - split; [exact Hok | exact Hinv].
Defined.

End BusRunClaims.

Section BusHistoryFacts.
Import Bus.

Lemma drop_excess_cons {A} (x : A) (l : list A) (m : nat) :
  (m <= length l)%nat ->
  drop (length (x :: l) - m) (x :: l) = drop (length l - m) l.
Proof.
  intros Hm. cbn [length]. by replace (S (length l) - m)%nat with (S (length l - m)) by lia.
Qed.

Lemma send_all_cons a m ms :
  send_all a (m :: ms) = send_all (send_message a m None).1.1 ms.
Proof. reflexivity. Qed.

Lemma send_all_max_history a ms : _max_history (send_all a ms) = _max_history a.
Proof.
  revert a. induction ms as [|m ms IH]; intros a; [done |].
  rewrite send_all_cons, IH. destruct (target_of m None) as [t|] eqn:Ht.
  - by rewrite (send_message_adapter _ _ _ _ Ht).
  - by rewrite (send_message_unresolved _ _ Ht).
Qed.

Lemma send_all_history a ms :
  0 <= _max_history a ->
  Z.of_nat (length (_message_history a)) <= _max_history a ->
  _message_history (send_all a ms)
    = drop (length (_message_history a ++ routed ms)%list - Z.to_nat (_max_history a))
        (_message_history a ++ routed ms)%list.
Proof.
  revert a. induction ms as [|m ms IH]; intros a Hmax Hlen.
  - cbn [send_all fold_left routed List.filter]. rewrite app_nil_r.
    by replace (_ - _)%nat with 0%nat by lia.
  - rewrite send_all_cons. unfold routed. cbn [List.filter]. fold (routed ms).
    destruct (target_of m None) as [t|] eqn:Ht.
    + rewrite (send_message_adapter _ _ _ _ Ht) in *.
      set (h := _message_history a) in *. set (M := _max_history a) in *.
      rewrite IH; cbn [_message_history _max_history]; [| done |].
      * destruct (M <? Z.of_nat (length (h ++ [m])%list)) eqn:Hfull.
        -- apply Z.ltb_lt in Hfull. rewrite length_app in Hfull. cbn [length] in Hfull.
           destruct h as [|x h'].
           ++ cbn [app drop]. symmetry. apply drop_excess_cons. cbn [length] in *. lia.
           ++ cbn [app drop]. rewrite drop_0, <- app_assoc. cbn [app].
              symmetry. apply drop_excess_cons.
              rewrite length_app. cbn [length] in *. lia.
        -- by rewrite <- app_assoc.
      * destruct (M <? Z.of_nat (length (h ++ [m])%list)) eqn:Hfull.
        -- rewrite length_drop, length_app. cbn [length]. lia.
        -- apply Z.ltb_ge in Hfull. done.
    + rewrite (send_message_unresolved _ _ Ht). by apply IH.
Qed.

End BusHistoryFacts.

Section BusHistoryClaims.
Import Bus.

(** X2. The history is a sliding window: on an adapter whose history is
    within its bound, after any sequence of sends the history holds the
    last [_max_history] of the envelopes recorded so far (the old history
    followed by the envelopes that had a target), in send order, and so
    never more than [_max_history] of them; envelopes without a target are
    not recorded. *)
Theorem history_keeps_latest_max_history
    (a : InMemoryA2AAdapter) (messages : list A2AMessage) :
  0 <= _max_history a ->
  Z.of_nat (length (_message_history a)) <= _max_history a ->
  _message_history (send_all a messages)
    = drop (length (_message_history a ++ routed messages)%list
              - Z.to_nat (_max_history a))
        (_message_history a ++ routed messages)%list /\
  Z.of_nat (length (_message_history (send_all a messages))) <= _max_history a /\
  _max_history (send_all a messages) = _max_history a.
Proof.
  intros Hmax Hlen. rewrite (send_all_history a messages Hmax Hlen).
  split; [done |]. split; [| apply send_all_max_history].
  rewrite length_drop. lia.
Qed.

Lemma history_keeps_latest_max_history_witness :
  let a := Adapter ∅ ∅ [] 2 in
  let sent := [sample_message "m1" (Some "B"); sample_message "m2" None;
               sample_message "m3" (Some "C"); sample_message "m4" (Some "B")] in
  _message_history (send_all a sent)
    = [sample_message "m3" (Some "C"); sample_message "m4" (Some "B")] /\
  Z.of_nat (length (_message_history (send_all a sent))) <= 2.
Proof.
  intros a sent.
  destruct (history_keeps_latest_max_history a sent) as (Hh & Hb & _);
    [cbn; lia | cbn; lia |].
  split; [rewrite Hh; reflexivity | exact Hb].
Defined.

End BusHistoryClaims.

Section BusQueueFacts.
Import Bus.

Lemma pop_first_of_type_spec t queue :
  match pop_first_of_type t queue with
  | Some (m, rest) =>
      exists before after,
        queue = (before ++ m :: after)%list /\
        Forall (fun x => Envelope.message_type x <> t) before /\
        Envelope.message_type m = t /\
        rest = (before ++ after)%list
  | None => Forall (fun x => Envelope.message_type x <> t) queue
  end.
Proof.
  induction queue as [|msg rest IH]; cbn [pop_first_of_type]; [by constructor |].
  destruct (String.eqb (Envelope.message_type msg) t) eqn:Hm.
  - apply String.eqb_eq in Hm. exists [], rest. by repeat split.
  - apply String.eqb_neq in Hm.
    destruct (pop_first_of_type t rest) as [[m rest']|].
    + destruct IH as (before & after & -> & Hb & Ht & ->).
      exists (msg :: before), after. repeat split; try done. by constructor.
    + by constructor.
Qed.

Lemma queue_of_send_message a m agent_id :
  queue_of (send_message a m None).1.1 agent_id
    = (queue_of a agent_id ++ addressed_to agent_id [m])%list.
Proof.
  unfold addressed_to. cbn [List.filter].
  destruct (target_of m None) as [t|] eqn:Ht.
  - rewrite (send_message_adapter _ _ _ _ Ht). unfold queue_of. cbn [_queues].
    destruct (String.eqb t agent_id) eqn:Hq.
    + apply String.eqb_eq in Hq as ->. by rewrite lookup_insert_eq.
    + apply String.eqb_neq in Hq. rewrite lookup_insert_ne by done. by rewrite app_nil_r.
  - rewrite (send_message_unresolved _ _ Ht). by rewrite app_nil_r.
Qed.

Lemma queue_of_send_all a ms agent_id :
  queue_of (send_all a ms) agent_id = (queue_of a agent_id ++ addressed_to agent_id ms)%list.
Proof.
  revert a. induction ms as [|m ms IH]; intros a.
  - cbn. by rewrite app_nil_r.
  - rewrite send_all_cons, IH, queue_of_send_message, <- app_assoc.
    f_equal. unfold addressed_to. cbn [List.filter].
    by destruct (match target_of m None with Some t => _ | None => _ end).
Qed.

Lemma drain_unfiltered n a agent_id message_type :
  truthy_opt_str message_type = false ->
  (drain n a agent_id message_type).1 = take n (queue_of a agent_id).
Proof.
  intros Hf. revert a. induction n as [|n IH]; intros a; [done |].
  cbn [drain]. unfold receive_poll. rewrite Hf. fold (queue_of a agent_id).
  destruct (queue_of a agent_id) as [|m rest] eqn:Hq; [done |].
  cbn [fst take]. rewrite IH. unfold queue_of at 1. cbn [_queues].
  by rewrite lookup_insert_eq.
Qed.

End BusQueueFacts.

Section BusQueueClaims.
Import Bus.

(** X3. A receive with a (non-empty) type filter takes the first envelope
    of that type out of the agent's queue, wherever it stands, and leaves
    the envelopes before and after it in their order; the other queues and
    the history are untouched.  When the queue holds no envelope of that
    type, the poll gives nothing and changes nothing. *)
Theorem receive_by_type_takes_first_match
    (a : InMemoryA2AAdapter) (agent_id t : string) :
  t <> "" ->
  match receive_poll a agent_id (Some t) with
  | (Some m, a1) =>
      exists before after,
        queue_of a agent_id = (before ++ m :: after)%list /\
        Forall (fun x => Envelope.message_type x <> t) before /\
        Envelope.message_type m = t /\
        queue_of a1 agent_id = (before ++ after)%list /\
        (forall other, other <> agent_id -> _queues a1 !! other = _queues a !! other) /\
        _message_history a1 = _message_history a /\
        _subscribers a1 = _subscribers a
  | (None, a1) =>
      a1 = a /\ Forall (fun x => Envelope.message_type x <> t) (queue_of a agent_id)
  end.
Proof.
  intros Ht. unfold receive_poll.
  assert (truthy_opt_str (Some t) = true) as ->.
  { destruct t; [done | reflexivity]. }
  unfold queue_of. change (default "" (Some t)) with t.
  pose proof (pop_first_of_type_spec t (default [] (_queues a !! agent_id))) as Hpop.
  destruct (pop_first_of_type t (default [] (_queues a !! agent_id))) as [[m rest]|];
    cbv beta iota; [| by split].
  destruct Hpop as (before & after & Hq & Hb & Hm & ->).
  exists before, after. cbn [_queues _message_history _subscribers].
  rewrite lookup_insert_eq. repeat split; try done.
  intros other Ho. by rewrite lookup_insert_ne.
Qed.

Lemma receive_by_type_takes_first_match_witness :
  let a := send_all init [sample_message "m1" (Some "B");
                          Message "m2" "t1" "c1" OPTIMIZED_PLAN "1.0" sample_time []
                            (Meta "A" (Some "B") 5 300) None;
                          sample_message "m3" (Some "B")] in
  OPTIMIZED_PLAN <> "" /\
  match receive_poll a "B" (Some OPTIMIZED_PLAN) with
  | (Some m, a1) =>
      exists before after,
        queue_of a "B" = (before ++ m :: after)%list /\
        Forall (fun x => Envelope.message_type x <> OPTIMIZED_PLAN) before /\
        Envelope.message_type m = OPTIMIZED_PLAN /\
        queue_of a1 "B" = (before ++ after)%list /\
        (forall other, other <> "B" -> _queues a1 !! other = _queues a !! other) /\
        _message_history a1 = _message_history a /\
        _subscribers a1 = _subscribers a
  | (None, a1) =>
      a1 = a /\ Forall (fun x => Envelope.message_type x <> OPTIMIZED_PLAN) (queue_of a "B")
  end.
Proof.
  intros a. split; [discriminate |].
  apply (receive_by_type_takes_first_match a "B" OPTIMIZED_PLAN). discriminate.
Defined.

(** X4. Delivery is first in, first out per receiver: after any sequence
    of sends, [n] unfiltered receives of an agent (no type, or the empty
    type) return the first [n] of the envelopes that were in its queue
    followed by those sent to it, in the order they were sent; envelopes
    addressed to others or to nobody never show up. *)
Theorem receive_order_is_send_order
    (a : InMemoryA2AAdapter) (messages : list A2AMessage) (agent_id : string) (n : nat) :
  (drain n (send_all a messages) agent_id None).1
    = take n (queue_of a agent_id ++ addressed_to agent_id messages)%list /\
  (drain n (send_all a messages) agent_id (Some "")).1
    = take n (queue_of a agent_id ++ addressed_to agent_id messages)%list.
Proof.
  split; rewrite drain_unfiltered by done; by rewrite queue_of_send_all.
Qed.

End BusQueueClaims.

Section BusSubscriptionFacts.
Import Bus.

Lemma existsb_same_id_fresh cb cbs :
  Forall (fun c => cb_id c <> cb_id cb) cbs ->
  existsb (fun c => Nat.eqb (cb_id c) (cb_id cb)) cbs = false.
Proof.
  induction 1 as [|c rest Hc _ IH]; [done |].
  cbn [existsb]. apply Nat.eqb_neq in Hc. by rewrite Hc, IH.
Qed.

Lemma remove_callback_after_fresh cb cbs rest :
  Forall (fun c => cb_id c <> cb_id cb) cbs ->
  remove_callback cb (cbs ++ cb :: rest)%list = (cbs ++ rest)%list.
Proof.
  induction 1 as [|c cbs' Hc _ IH]; cbn [app remove_callback].
  - by rewrite Nat.eqb_refl.
  - apply Nat.eqb_neq in Hc. by rewrite Hc, IH.
Qed.

Lemma existsb_same_id_present cb cbs rest :
  existsb (fun c => Nat.eqb (cb_id c) (cb_id cb)) (cbs ++ cb :: rest)%list = true.
Proof.
  rewrite existsb_app. cbn [existsb]. rewrite Nat.eqb_refl. apply orb_true_iff.
  right. done.
Qed.

End BusSubscriptionFacts.

Section BusSubscriptionClaims.
Import Bus.

(** X5. For a callback that is not among an agent's subscribers:
    unsubscribing it changes nothing; subscribing and then unsubscribing
    it gives back the agent's subscribers as they were; and after two
    subscriptions one unsubscription removes only one of them, the
    callback staying registered once, after the older subscribers.  The
    queues and the history are never touched. *)
Theorem unsubscribe_removes_one_registration
    (a : InMemoryA2AAdapter) (agent_id : string) (cb : callback) :
  Forall (fun c => cb_id c <> cb_id cb) (subscribers_of a agent_id) ->
  unsubscribe a agent_id cb = a /\
  subscribers_of (unsubscribe (subscribe a agent_id cb) agent_id cb) agent_id
    = subscribers_of a agent_id /\
  subscribers_of
    (unsubscribe (subscribe (subscribe a agent_id cb) agent_id cb) agent_id cb) agent_id
    = (subscribers_of a agent_id ++ [cb])%list /\
  _queues (unsubscribe (subscribe a agent_id cb) agent_id cb) = _queues a /\
  _message_history (unsubscribe (subscribe a agent_id cb) agent_id cb) = _message_history a.
Proof.
  intros Hfresh. unfold subscribers_of in *. split; [| split; [| split]].
  - unfold unsubscribe. destruct (_subscribers a !! agent_id) as [cbs|]; [| done].
    cbn [from_option id] in Hfresh. by rewrite (existsb_same_id_fresh _ _ Hfresh).
  - unfold unsubscribe, subscribe. cbn [_subscribers]. rewrite lookup_insert_eq.
    rewrite existsb_same_id_present. cbn [_subscribers]. rewrite lookup_insert_eq.
    cbn [from_option id]. rewrite (remove_callback_after_fresh _ _ _ Hfresh). apply app_nil_r.
  - unfold unsubscribe, subscribe. cbn [_subscribers]. rewrite !lookup_insert_eq.
    cbn [from_option id]. rewrite <- app_assoc. cbn [app].
    rewrite existsb_same_id_present. cbn [_subscribers]. rewrite lookup_insert_eq.
    cbn [from_option id]. by rewrite (remove_callback_after_fresh _ _ _ Hfresh).
  - unfold unsubscribe, subscribe. cbn [_subscribers]. rewrite lookup_insert_eq.
    by rewrite existsb_same_id_present.
Qed.

Lemma unsubscribe_removes_one_registration_witness :
  Forall (fun c => cb_id c <> cb_id Planner.adk_message_handler) (subscribers_of busy_bus "B") /\
  unsubscribe busy_bus "B" Planner.adk_message_handler = busy_bus /\
  subscribers_of (unsubscribe (subscribe busy_bus "B" Planner.adk_message_handler) "B"
                    Planner.adk_message_handler) "B" = [watcher].
Proof.
  assert (Hfresh : Forall (fun c => cb_id c <> cb_id Planner.adk_message_handler)
                     (subscribers_of busy_bus "B")).
  { repeat constructor. cbn. lia. }
  destruct (unsubscribe_removes_one_registration busy_bus "B" Planner.adk_message_handler Hfresh)
    as (H1 & H2 & _).
  split; [exact Hfresh |]. split; [exact H1 |]. rewrite H2. reflexivity.
Defined.

(** X6. [clear_queue] returns the size the agent's queue had and empties
    that queue only: the size is then 0 and a receive, filtered or not,
    gives nothing and changes nothing; the queues of the other agents and
    the history keep the cleared envelopes. *)
Theorem clear_queue_empties_one_queue (a : InMemoryA2AAdapter) (agent_id : string) :
  (clear_queue a agent_id).2 = get_queue_size a agent_id /\
  get_queue_size (clear_queue a agent_id).1 agent_id = 0 /\
  (forall message_type,
     receive_poll (clear_queue a agent_id).1 agent_id message_type
       = (None, (clear_queue a agent_id).1)) /\
  (forall other, other <> agent_id ->
     queue_of (clear_queue a agent_id).1 other = queue_of a other) /\
  (forall trace_id correlation_id limit,
     get_message_history (clear_queue a agent_id).1 trace_id correlation_id limit
       = get_message_history a trace_id correlation_id limit).
Proof.
  unfold clear_queue, get_queue_size, queue_of. cbn [fst snd _queues].
  rewrite lookup_insert_eq. repeat split; try done.
  - intros mt. unfold receive_poll. cbn [_queues]. rewrite lookup_insert_eq.
    cbn [from_option id]. by destruct (truthy_opt_str mt).
  - intros other Ho. by rewrite lookup_insert_ne.
Qed.

End BusSubscriptionClaims.

Section NotifyFacts.
Import Bus.

Lemma notify_stops_at_signal before cb after message e :
  Forall (fun c => forall e', cb_raises c message = Some e' -> exn_is_Exception e' = true)
    before ->
  cb_raises cb message = Some e ->
  exn_is_Exception e = false ->
  (notify (before ++ cb :: after) message).2 = Some e /\
  invoked (notify (before ++ cb :: after) message).1 = (map cb_id before ++ [cb_id cb])%list.
Proof.
  intros Hb Hr He. induction Hb as [|c before Hc _ [IH1 IH2]]; cbn [app notify map].
  - by rewrite Hr, He.
  - destruct (cb_raises c message) as [e'|] eqn:Hc'.
    + rewrite (Hc e' eq_refl). cbn [fst snd invoked]. by rewrite IH1, IH2.
    + cbn [fst snd invoked]. by rewrite IH1, IH2.
Qed.

End NotifyFacts.

Section NotifyClaims.
Import Bus.

(** X22. A subscriber that raises something that is no [Exception] ends
    the send: [send_message] raises it and the subscribers registered after
    it are not called; but the envelope was queued before the
    notifications, so it stays in the target's queue although the send
    failed. *)
Theorem send_raises_after_queueing
    (a : InMemoryA2AAdapter) (message : A2AMessage) (receiver : option string)
    (target : string) (before after : list callback) (cb : callback) (e : exn) :
  target_of message receiver = Some target ->
  subscribers_of a target = (before ++ cb :: after)%list ->
  Forall (fun c => forall e', cb_raises c message = Some e' -> exn_is_Exception e' = true)
    before ->
  cb_raises cb message = Some e ->
  exn_is_Exception e = false ->
  (send_message a message receiver).1.2 = Raise e /\
  invoked (send_message a message receiver).2 = (map cb_id before ++ [cb_id cb])%list /\
  queue_of (send_message a message receiver).1.1 target
    = (queue_of a target ++ [message])%list.
Proof.
  intros Ht Hsubs Hb Hr He.
  destruct (notify_stops_at_signal before cb after message e Hb Hr He) as [H1 H2].
  split; [| split].
  - unfold target_of in Ht. unfold send_message. rewrite Ht. unfold subscribers_of in Hsubs.
    destruct (_subscribers a !! target) as [cbs|]; cbn [default from_option id] in Hsubs.
    + subst cbs. cbn [fst snd]. by rewrite H1.
    + by destruct before.
  - unfold target_of in Ht. unfold send_message. rewrite Ht. unfold subscribers_of in Hsubs.
    destruct (_subscribers a !! target) as [cbs|]; cbn [default from_option id] in Hsubs.
    + subst cbs. cbn [fst snd invoked]. by rewrite H2.
    + by destruct before.
  - rewrite (send_message_adapter _ _ _ _ Ht). unfold queue_of. cbn [_queues].
    by rewrite lookup_insert_eq.
Qed.

Lemma send_raises_after_queueing_witness :
  let interrupted := Callback 9 (fun _ => Some (Exn "KeyboardInterrupt" "" false)) in
  let a := subscribe (subscribe (subscribe init "B" watcher) "B" interrupted) "B"
             (Callback 4 (fun _ => None)) in
  (send_message a (sample_message "m1" (Some "B")) None).1.2
    = Raise (Exn "KeyboardInterrupt" "" false) /\
  invoked (send_message a (sample_message "m1" (Some "B")) None).2 = [7%nat; 9%nat] /\
  get_queue_size (send_message a (sample_message "m1" (Some "B")) None).1.1 "B" = 1.
Proof.
  intros interrupted a.
  destruct (send_raises_after_queueing a (sample_message "m1" (Some "B")) None "B"
              [watcher] [Callback 4 (fun _ => None)] interrupted
              (Exn "KeyboardInterrupt" "" false)) as (H1 & H2 & H3).
  - reflexivity.
  - reflexivity.
  - repeat constructor. discriminate.
  - reflexivity.
  - reflexivity.
  - split; [exact H1 |]. split; [exact H2 |].
    unfold get_queue_size. fold (queue_of (send_message a (sample_message "m1" (Some "B"))
                                            None).1.1 "B").
    rewrite H3. reflexivity.
Defined.

End NotifyClaims.

Section ReceiveTimingFacts.
Import Planner.
Variable sleep : World -> World.



End ReceiveTimingFacts.

Section ReceiveTimingClaims.
Import Planner.
Variable sleep : World -> World.


End ReceiveTimingClaims.

Section ReceiveTimingWitness.
Import Planner.


End ReceiveTimingWitness.

(* ===================================================================== *)
(** * Further properties of the state store *)
(* ===================================================================== *)

Section StoreRoundTripFacts.
Import Store.

Lemma set_lookup_other now key value ttl s other :
  other <> key ->
  _store (set now key value ttl s).1 !! other = _store (_cleanup_expired now s) !! other /\
  _expiry (set now key value ttl s).1 !! other = _expiry (_cleanup_expired now s) !! other.
Proof.
  intros Ho. unfold set. destruct ttl as [n|]; [destruct (bind _ _) |]; cbn [fst _store _expiry];
    rewrite ?lookup_insert_ne, ?lookup_delete_ne by done; done.
Qed.

Lemma set_expiry_after_success now key value n s :
  (set now key value (Some n) s).2 = Ok true ->
  _expiry (set now key value (Some n) s).1 !! key = Some (now + n * MICROS).
Proof.
  unfold set, timedelta_seconds, datetime_add, bind.
  destruct (Z.abs (n / 86400) <=? timedelta_max_days); [| discriminate].
  destruct (_ && _); [| discriminate].
  intros _. cbn [fst _expiry]. by rewrite lookup_insert_eq.
Qed.

Lemma get_value now key s :
  (get now key s).2 = default PNone (_store (_cleanup_expired now s) !! key).
Proof. reflexivity. Qed.

(** A later expiry pass sees through an earlier one. *)
Lemma cleanup_later_store_lookup now t s1 s k :
  now <= t ->
  _store s1 !! k = _store (_cleanup_expired now s) !! k ->
  _expiry s1 !! k = _expiry (_cleanup_expired now s) !! k ->
  _store (_cleanup_expired t s1) !! k = _store (_cleanup_expired t s) !! k.
Proof.
  intros Hle Hs He. rewrite !cleanup_store_lookup, He, Hs.
  rewrite cleanup_expiry_lookup, cleanup_store_lookup.
  destruct (_expiry s !! k) as [e|]; [| done].
  repeat case_bool_decide; (done || lia).
Qed.

Lemma cleanup_lookup_absent t s k :
  _store s !! k = None -> _store (_cleanup_expired t s) !! k = None.
Proof.
  intros Hk. rewrite cleanup_store_lookup, Hk.
  destruct (_expiry s !! k); [by case_bool_decide | done].
Qed.

End StoreRoundTripFacts.

Section StoreRoundTripClaims.
Import Store.

(** X8. Round trip of [set] and [get].  A value set without ttl is read
    back at any time, also when it replaces a value that had a ttl (the old
    expiry is dropped); a value set with a ttl is read back at every time
    before [now + ttl].  A [set], successful or not, changes what no later
    [get] of another key returns. *)
Theorem set_then_get_round_trip
    (now t : Z) (key other : string) (value : pyval) (ttl : option Z)
    (s : InMemoryStateStore) :
  now <= t ->
  (get t key (set now key value None s).1).2 = value /\
  (forall n, (set now key value (Some n) s).2 = Ok true -> t < now + n * MICROS ->
     (get t key (set now key value (Some n) s).1).2 = value) /\
  (other <> key -> (get t other (set now key value ttl s).1).2 = (get t other s).2).
Proof.
  intros Hle. rewrite !get_value. split; [| split].
  - rewrite cleanup_store_lookup, set_store_lookup.
    unfold set. cbn [fst _expiry]. by rewrite lookup_delete_eq.
  - intros n Hok Hlive. rewrite get_value, cleanup_store_lookup, set_store_lookup.
    rewrite (set_expiry_after_success _ _ _ _ _ Hok). by rewrite bool_decide_false by lia.
  - intros Ho. destruct (set_lookup_other now key value ttl s other Ho) as [Hs He].
    by rewrite (cleanup_later_store_lookup now t _ s other Hle Hs He).
Qed.

Lemma set_then_get_round_trip_witness :
  (get 5000000 "expires-soon"
     (set 500000 "expires-soon" (PStr "kept") None one_second_store).1).2 = PStr "kept" /\
  (get 5000000 "expires-soon" (set 500000 "other" (PStr "v") (Some 10) one_second_store).1).2
    = (get 5000000 "expires-soon" one_second_store).2.
Proof.
  destruct (set_then_get_round_trip 500000 5000000 "expires-soon" "other" (PStr "kept") None
              one_second_store) as (H1 & _); [lia |].
  destruct (set_then_get_round_trip 500000 5000000 "other" "expires-soon" (PStr "v")
              (Some 10) one_second_store) as (_ & _ & H3); [lia |].
  split; [exact H1 | apply H3; discriminate].
Defined.

(** X9. [delete] returns whether the key was live (what [exists]
    returns in the same state); afterwards the key reads as absent at any
    time and a second [delete] returns false; what a later [get] of another
    key returns is unchanged. *)
Theorem delete_removes_only_its_key
    (now t : Z) (key other : string) (s : InMemoryStateStore) :
  now <= t ->
  (delete_key now key s).2 = (key_exists now key s).2 /\
  (get t key (delete_key now key s).1).2 = PNone /\
  (key_exists t key (delete_key now key s).1).2 = false /\
  (delete_key t key (delete_key now key s).1).2 = false /\
  (other <> key -> (get t other (delete_key now key s).1).2 = (get t other s).2).
Proof.
  intros Hle.
  assert (Hgone : _store (delete_key now key s).1 !! key = None).
  { unfold delete_key. destruct (_store (_cleanup_expired now s) !! key) eqn:Hk;
      cbn [fst _store]; [by rewrite lookup_delete_eq | done]. }
  pose proof (cleanup_lookup_absent t _ _ Hgone) as Hgone'.
  split; [| split; [| split; [| split]]].
  - unfold delete_key, key_exists. cbn [snd].
    destruct (_store (_cleanup_expired now s) !! key) eqn:Hk; cbn [snd].
    + symmetry. apply bool_decide_eq_true. by eexists.
    + symmetry. apply bool_decide_eq_false. by intros [? ?].
  - by rewrite get_value, Hgone'.
  - unfold key_exists. cbn [snd]. rewrite Hgone'. apply bool_decide_eq_false. by intros [? ?].
  - unfold delete_key at 1. by rewrite Hgone'.
  - intros Ho. rewrite !get_value.
    rewrite (cleanup_later_store_lookup now t _ s other Hle); [done | |];
      unfold delete_key; destruct (_store (_cleanup_expired now s) !! key);
      cbn [fst _store _expiry]; rewrite ?lookup_delete_ne by done; done.
Qed.

Lemma delete_removes_only_its_key_witness :
  (delete_key 0 "expires-soon" one_second_store).2 = true /\
  (get 7 "expires-soon" (delete_key 0 "expires-soon" one_second_store).1).2 = PNone /\
  (delete_key 7 "expires-soon" (delete_key 0 "expires-soon" one_second_store).1).2 = false.
Proof.
  destruct (delete_removes_only_its_key 0 7 "expires-soon" "other" one_second_store)
    as (H1 & H2 & _ & H4 & _); [lia |].
  split; [rewrite H1; reflexivity |]. split; [exact H2 | exact H4].
Defined.

End StoreRoundTripClaims.

Section StoreKeysFacts.
Import Store.

Lemma elem_of_map_keys {A} (m : gmap string A) (k : string) :
  k ∈ (map_to_list m).*1 <-> is_Some (m !! k).
Proof.
  rewrite list_elem_of_fmap. split.
  - intros [[k' v] [-> Hin]]. apply elem_of_map_to_list in Hin. by eexists.
  - intros [v Hv]. exists (k, v). split; [done |]. by apply elem_of_map_to_list.
Qed.

End StoreKeysFacts.

Section StoreKeysClaims.
Import Store.

(** X10. [list_keys] lists each live key once: a key is listed exactly
    when [exists] holds of it in the same state (so never an expired key)
    and, if a non-empty pattern is given, the key matches the pattern; with
    no pattern or the empty pattern every live key is listed. *)
Theorem list_keys_lists_live_matching_keys
    (now : Z) (pattern : option string) (s : InMemoryStateStore) :
  NoDup (list_keys now pattern s).2 /\
  (list_keys now pattern s).1 = _cleanup_expired now s /\
  forall k, k ∈ (list_keys now pattern s).2 <->
    (key_exists now k s).2 = true /\
    (truthy_opt_str pattern = true -> key_matches (default "" pattern) k = true).
Proof.
  unfold list_keys, key_exists. cbn [fst snd].
  pose proof (NoDup_fst_map_to_list (_store (_cleanup_expired now s))) as Hnd.
  split; [| split; [done |]].
  - destruct (truthy_opt_str pattern); [by apply NoDup_filter | done].
  - intros k. rewrite bool_decide_eq_true, <- elem_of_map_keys.
    destruct (truthy_opt_str pattern).
    + rewrite list_elem_of_filter, Is_true_true. split; intros [H1 H2]; split; auto.
    + split; [by intros ? | by intros [? _]].
Qed.

(** X11. The wildcard of [list_keys].  A pattern that ends in a star
    matches the keys that start with the rest of the pattern, whatever that
    rest is: a star at both ends gives a prefix that begins with a literal
    star, not a substring search.  A pattern that starts with a star and
    does not end in one matches the keys that end with the rest.  A pattern
    with a star at neither end matches the keys that contain it. *)
Theorem key_matches_wildcards (p k : string) :
  (key_matches (p ++ "*") k = true <-> exists r, k = (p ++ r)%string) /\
  (endswith p "*" = false ->
     (key_matches ("*" ++ p) k = true <-> exists r, k = (r ++ p)%string)) /\
  (endswith p "*" = false -> startswith p "*" = false ->
     (key_matches p k = true <-> exists a b, k = (a ++ p ++ b)%string)).
Proof.
  unfold key_matches. split; [| split].
  - assert (endswith (p ++ "*") "*" = true) as ->.
    { apply endswith_iff_app. by exists p. }
    rewrite drop_last_app_char. apply prefix_iff_app.
  - intros Hend. destruct (string_dec p "") as [->|Hp].
    + change (endswith ("*" ++ "") "*") with true. cbv iota.
      change (drop_last ("*" ++ "")) with ""%string. unfold startswith.
      rewrite prefix_nil. split; [intros _ | done].
      exists k. by rewrite string_app_nil_r.
    + rewrite (endswith_app_nonempty "*" p "*" Hp), Hend.
      change (startswith ("*" ++ p) "*") with (String.prefix "" p).
      rewrite prefix_nil. change (drop_first ("*" ++ p)) with p.
      apply endswith_iff_app.
  - intros -> ->. apply contains_iff_app.
Qed.

End StoreKeysClaims.

(* ===================================================================== *)
(** * Further properties of the signed envelopes *)
(* ===================================================================== *)

Section KeyOrderFacts.
Import Json.

Lemma string_leb_iff (a b : string) :
  String.leb a b = true <-> OrderedTypeEx.String_as_OT.lt a b \/ a = b.
Proof.
  unfold String.leb.
  rewrite <- OrderedTypeEx.String_as_OT.cmp_lt, <- OrderedTypeEx.String_as_OT.cmp_eq.
  unfold OrderedTypeEx.String_as_OT.cmp.
  destruct (String.compare a b); split; try done; auto; intros [?|?]; discriminate.
Qed.

Lemma string_leb_trans (a b c : string) :
  String.leb a b = true -> String.leb b c = true -> String.leb a c = true.
Proof.
  rewrite !string_leb_iff. intros [H1| ->] [H2| ->]; auto.
  left. eapply OrderedTypeEx.String_as_OT.lt_trans; eauto.
Qed.

Lemma string_leb_false (a b : string) : String.leb a b = false -> String.leb b a = true.
Proof. intros H. destruct (String.leb_total a b) as [H1|H1]; congruence. Qed.

(** Two insertions with different keys commute. *)
Lemma insert_by_key_comm {A} (x y : string * A) (l : list (string * A)) :
  x.1 <> y.1 ->
  insert_by_key x (insert_by_key y l) = insert_by_key y (insert_by_key x l).
Proof.
  intros Hne. induction l as [|z l IH]; cbn [insert_by_key].
  - destruct (String.leb x.1 y.1) eqn:Hxy, (String.leb y.1 x.1) eqn:Hyx; try done.
    + by destruct Hne; apply String.leb_antisym.
    + apply string_leb_false in Hxy. congruence.
  - destruct (String.leb y.1 z.1) eqn:Hyz, (String.leb x.1 z.1) eqn:Hxz;
      cbn [insert_by_key]; rewrite ?Hyz, ?Hxz.
    + destruct (String.leb x.1 y.1) eqn:Hxy, (String.leb y.1 x.1) eqn:Hyx;
        rewrite ?Hyz, ?Hxz; try done.
      * by destruct Hne; apply String.leb_antisym.
      * apply string_leb_false in Hxy. congruence.
    + destruct (String.leb x.1 y.1) eqn:Hxy; [| done].
      by rewrite (string_leb_trans _ _ _ Hxy Hyz) in Hxz.
    + destruct (String.leb y.1 x.1) eqn:Hyx; [| done].
      by rewrite (string_leb_trans _ _ _ Hyx Hxz) in Hyz.
    + by rewrite IH.
Qed.

Lemma sort_items_permutation {A} (l1 l2 : list (string * A)) :
  Permutation l1 l2 -> NoDup l1.*1 -> sort_items l1 = sort_items l2.
Proof.
  induction 1 as [|x l1 l2 Hp IH|x y l|l1 l2 l3 H12 IH12 H23 IH23]; intros Hnd.
  - done.
  - cbn [sort_items]. rewrite IH; [done |]. by apply NoDup_cons in Hnd as [_ ?].
  - cbn [sort_items]. apply insert_by_key_comm.
    cbn in Hnd. apply NoDup_cons in Hnd as [Hy _]. intros Heq. apply Hy.
    rewrite Heq. by left.
  - rewrite IH12 by done. apply IH23. by rewrite <- H12.
Qed.

Lemma encode_dict_permutation (p1 p2 : list (string * pyval)) :
  Permutation p1 p2 -> NoDup p1.*1 -> encode (PDict p1) = encode (PDict p2).
Proof.
  intros Hp Hnd. cbn [encode].
  rewrite (sort_items_permutation
             (map (fun kv : string * pyval => (kv.1, encode kv.2)) p1)
             (map (fun kv : string * pyval => (kv.1, encode kv.2)) p2)); [done | |].
  - by apply Permutation_map.
  - by rewrite <- list_fmap_compose.
Qed.

End KeyOrderFacts.

Section SigningOrderFacts.
Import Json.

(** An envelope that carries the signature of another with the same
    canonical text verifies. *)
Lemma verify_same_canonical settings (E E' T : A2AMessage) secret :
  sign_message settings E secret = Ok E' ->
  signature T = signature E' ->
  canonical T = canonical E ->
  verify_message settings T secret = Ok true.
Proof.
  unfold sign_message, verify_message, compute_hmac_signature. intros Hsign Hsig Hcan.
  destruct (canonical E) as [text|e] eqn:Hc; [| discriminate].
  cbn [bind] in Hsign. injection Hsign as <-.
  rewrite Hsig, Hcan. cbn [signature with_signature bind].
  unfold Sha256.hmac_sha256_hexdigest.
  rewrite compare_digest_hex by apply hex_is_ascii.
  by rewrite String.eqb_refl.
Qed.

End SigningOrderFacts.

Section SigningOrderClaims.

(** X12. The signature does not depend on the order of the payload's
    entries: two payloads with the same entries (the keys of a dictionary
    differ) in a different order of insertion have the same canonical text
    and the same signature under every secret, and an envelope signed with
    one verifies with the other in its place. *)
Theorem signature_ignores_payload_order
    (settings : Settings) (m : A2AMessage) (p1 p2 : list (string * pyval))
    (secret : option string) :
  Permutation p1 p2 ->
  NoDup p1.*1 ->
  canonical (with_payload m p1) = canonical (with_payload m p2) /\
  (forall key, compute_hmac_signature (with_payload m p1) key
               = compute_hmac_signature (with_payload m p2) key) /\
  (forall E', sign_message settings (with_payload m p1) secret = Ok E' ->
              verify_message settings (with_payload E' p2) secret = Ok true).
Proof.
  intros Hp Hnd.
  assert (Hcan : canonical (with_payload m p1) = canonical (with_payload m p2)).
  { apply canonical_with_payload_congr. cbn [model_dump].
    apply encode_dict_permutation.
    - by apply Permutation_map.
    - rewrite <- list_fmap_compose.
      by rewrite (list_fmap_ext _ fst p1) by done. }
  split; [done |]. split.
  - intros key. unfold compute_hmac_signature. by rewrite Hcan.
  - intros E' Hsign. apply (verify_same_canonical settings (with_payload m p1) E'); [done | |].
    + by destruct E'.
    + unfold sign_message in Hsign.
      destruct (compute_hmac_signature _ _); [| discriminate].
      injection Hsign as <-. rewrite Hcan. reflexivity.
Qed.

Lemma signature_ignores_payload_order_witness :
  let p1 := [("hotel", PStr "Sea View"); ("budget", PInt 1200); ("city", PStr "Goa")] in
  let p2 := [("city", PStr "Goa"); ("hotel", PStr "Sea View"); ("budget", PInt 1200)] in
  canonical (with_payload original_message p1) = canonical (with_payload original_message p2) /\
  is_ok (canonical (with_payload original_message p1)) = true.
Proof.
  intros p1 p2.
  destruct (signature_ignores_payload_order test_settings original_message p1 p2 None)
    as (H1 & _).
  - apply (perm_trans (l' := [("hotel", PStr "Sea View"); ("city", PStr "Goa");
                              ("budget", PInt 1200)])).
    + apply perm_skip. apply perm_swap.
    + apply perm_swap.
  - apply (bool_decide_unpack _). by vm_compute.
  - split; [exact H1 | reflexivity].
Defined.

End SigningOrderClaims.

Section DigestFormatFacts.
Import Sha256.

Lemma round_length (v : list Z) (kw : Z * Z) :
  length v = 8%nat -> length (round v kw) = 8%nat.
Proof. do 9 (destruct v as [|? v]; try discriminate). done. Qed.

Lemma fold_round_length (kws : list (Z * Z)) (v : list Z) :
  length v = 8%nat -> length (fold_left round kws v) = 8%nat.
Proof.
  revert v. induction kws as [|kw kws IH]; intros v Hv; [done |].
  cbn [fold_left]. apply IH. by apply round_length.
Qed.

Lemma compress_length (h block : list Z) :
  length h = 8%nat -> length (compress h block) = 8%nat.
Proof.
  intros Hh. unfold compress. rewrite length_map, length_combine, fold_round_length by done.
  lia.
Qed.

Lemma fold_compress_length (blocks : list (list Z)) (h : list Z) :
  length h = 8%nat -> length (fold_left compress blocks h) = 8%nat.
Proof.
  revert h. induction blocks as [|b blocks IH]; intros h Hh; [done |].
  cbn [fold_left]. apply IH. by apply compress_length.
Qed.

Lemma be_bytes_length (n : nat) (x : Z) : length (be_bytes n x) = n.
Proof.
  revert x. induction n as [|n IH]; intros x; [done |].
  cbn [be_bytes]. rewrite length_app, IH. cbn [length]. lia.
Qed.

Lemma flat_map_be_bytes_length (words : list Z) :
  length (flat_map (be_bytes 4) words) = (4 * length words)%nat.
Proof.
  induction words as [|w words IH]; [done |].
  cbn [flat_map]. rewrite length_app, be_bytes_length, IH. cbn [length]. lia.
Qed.

Lemma sha256_length (msg : list Z) : length (sha256 msg) = 32%nat.
Proof.
  unfold sha256. rewrite flat_map_be_bytes_length, fold_compress_length; [lia | done].
Qed.

Lemma hmac_sha256_length (key msg : list Z) : length (hmac_sha256 key msg) = 32%nat.
Proof. apply sha256_length. Qed.

Lemma length_string_of_list_ascii (l : list ascii) :
  String.length (string_of_list_ascii l) = length l.
Proof. induction l as [|c l IH]; [done |]. cbn. by rewrite IH. Qed.

Lemma hex_length (bytes : list Z) : String.length (hex bytes) = (2 * length bytes)%nat.
Proof.
  unfold hex. rewrite length_string_of_list_ascii.
  induction bytes as [|b bytes IH]; [done |]. cbn [flat_map app length]. lia.
Qed.

Lemma hex_digit_in_digits (n : Z) : hex_digit n ∈ hex_digits.
Proof.
  unfold hex_digit. generalize (Z.to_nat n) as k. intros k.
  do 17 (destruct k as [|k]; [apply (bool_decide_unpack _); by vm_compute |]).
  apply (bool_decide_unpack _). by vm_compute.
Qed.

Lemma hex_in_digits (bytes : list Z) :
  Forall (fun c => c ∈ hex_digits) (list_ascii_of_string (hex bytes)).
Proof.
  unfold hex. rewrite list_ascii_of_string_of_list_ascii.
  induction bytes as [|b bytes IH]; [by constructor |]. cbn [flat_map app].
  apply Forall_cons. split; [apply hex_digit_in_digits |].
  apply Forall_cons. split; [apply hex_digit_in_digits | exact IH].
Qed.

End DigestFormatFacts.

Section DigestFormatClaims.

(** X13. Signing fills in the signature field only, and the signature is
    always a text of 64 characters taken from [0123456789abcdef]: the
    lower-case hexadecimal form of a 32-byte digest, whatever the envelope
    and the secret. *)
Theorem signature_is_64_hex_digits
    (settings : Settings) (m E' : A2AMessage) (secret : option string) :
  sign_message settings m secret = Ok E' ->
  exists sig,
    E' = with_signature m (Some sig) /\
    String.length sig = 64%nat /\
    Forall (fun c => c ∈ Sha256.hex_digits) (list_ascii_of_string sig).
Proof.
  unfold sign_message, compute_hmac_signature. intros Hsign.
  destruct (canonical m) as [text|e]; [| discriminate].
  cbn [bind] in Hsign. injection Hsign as <-.
  eexists. split; [reflexivity |]. unfold Sha256.hmac_sha256_hexdigest. split.
  - by rewrite hex_length, hmac_sha256_length.
  - apply hex_in_digits.
Qed.

Lemma signature_is_64_hex_digits_witness :
  exists sig,
    sign_message test_settings original_message None
      = Ok (with_signature original_message (Some sig)) /\
    String.length sig = 64%nat /\
    Forall (fun c => c ∈ Sha256.hex_digits) (list_ascii_of_string sig).
Proof.
  destruct (sign_message test_settings original_message None) as [E'|e] eqn:Hs;
    [| vm_compute in Hs; discriminate Hs].
  destruct (signature_is_64_hex_digits test_settings original_message E' None Hs)
    as (sig & Heq & Hlen & Hhex).
  exists sig. split; [by rewrite <- Heq | by split].
Defined.

End DigestFormatClaims.


Section WireFacts.
Import Json.









End WireFacts.

Section WireClaims.


Example to_json_refuses_signable_payload :
  is_ok (sign_message test_settings dated_message None) = true /\
  to_json dated_message = Raise (TypeError "Object of type datetime is not JSON serializable").
Proof. split; by vm_compute. Qed.

End WireClaims.

Section CreateFacts.


End CreateFacts.

Section CreateClaims.



End CreateClaims.

(* ===================================================================== *)
(** * Further properties of the orchestrator *)
(* ===================================================================== *)

Section WindowFacts.
Import Planner.

Lemma new_datetime_ok_inv y m d h mi sec us r :
  new_datetime y m d h mi sec us = Ok r -> r = Datetime y m d h mi sec us.
Proof.
  unfold new_datetime. destruct (check_date_fields y m d); [| discriminate].
  destruct (check_time_fields h mi sec us); [| discriminate]. cbn [bind]. congruence.
Qed.

Lemma later_field_decides (p a b : list Z) (x y : Z) :
  x < y -> lex_leb (p ++ y :: a) (p ++ x :: b) = false.
Proof.
  intros Hxy. induction p as [|z p IH]; cbn [app lex_leb].
  - replace (y <? x) with false by (symmetry; apply Z.ltb_ge; lia).
    by replace (x <? y) with true by (symmetry; apply Z.ltb_lt; lia).
  - by rewrite Z.ltb_irrefl.
Qed.

Lemma plus_one_hour_is_later (t e : datetime) :
  plus_one_hour t = Ok e -> datetime_leb e t = false.
Proof.
  unfold plus_one_hour, datetime_leb, fields. destruct t as [y m d h mi sec us].
  cbn [year month day hour minute second microsecond].
  destruct (h + 1 <? 24).
  - intros [= <-]. cbn [year month day hour minute second microsecond].
    apply (later_field_decides [y; m; d]). lia.
  - unfold next_day. destruct (d <? days_in_month y m); [| destruct (m <? 12);
      [| destruct (y <? MAXYEAR); [| discriminate]]];
      cbn [bind]; intros [= <-]; cbn [year month day hour minute second microsecond].
    + apply (later_field_decides [y; m]). lia.
    + apply (later_field_decides [y]). lia.
    + apply (later_field_decides []). lia.
Qed.

Lemma default_window_good base s e :
  valid_datetime base = true ->
  default_window base = Ok (s, e) ->
  datetime_leb e s = false /\
  (year s, month s, day s) = (year base, month base, day base).
Proof.
  intros Hv. rewrite (default_window_valid _ Hv). intros [= <- <-]. split; [| done].
  unfold datetime_leb, fields. cbn [year month day hour minute second microsecond].
  apply (later_field_decides [year base; month base; day base] _ _ 9 10). lia.
Qed.

Lemma body_window_good time_str base s e :
  valid_datetime base = true ->
  parse_time_range_body time_str base = Ok (s, e) ->
  datetime_leb e s = false /\
  (year s, month s, day s) = (year base, month base, day base).
Proof.
  intros Hv. unfold parse_time_range_body.
  destruct (_ || _); [by apply default_window_good |].
  destruct (map strip (split "-" time_str)) as [|a [|b [|c l]]];
    try (by apply default_window_good).
  destruct (strptime_I_M_p a) as [sd|]; [| discriminate].
  destruct (strptime_I_M_p b) as [ed|]; [| discriminate]. cbn [bind].
  destruct (replace base (Some (hour sd)) _ _ _) as [sf|] eqn:Hs; [| discriminate].
  destruct (replace base (Some (hour ed)) _ _ _) as [ef|] eqn:He; [| discriminate].
  cbn [bind]. apply new_datetime_ok_inv in Hs. subst sf.
  destruct (datetime_leb ef _) eqn:Hle.
  - destruct (plus_one_hour _) as [fixed|] eqn:Hp; [| discriminate]. cbn [bind].
    intros [= <- <-]. split; [by apply plus_one_hour_is_later | done].
  - intros [= <- <-]. by split.
Qed.

End WindowFacts.

Section WindowClaims.
Import Planner.

(** X16. The window [_parse_time_range] returns is never empty or
    inverted: on every text and every valid base date it starts on the day
    of the base date and ends strictly later (an end that is not after the
    start is replaced by the start plus one hour, which for a start in the
    last hour of the day falls on the next day). *)
Theorem parsed_window_starts_before_it_ends (time_str : string) (base_date : datetime) :
  valid_datetime base_date = true ->
  exists start_time end_time,
    _parse_time_range time_str base_date = Ok (start_time, end_time) /\
    datetime_leb end_time start_time = false /\
    (year start_time, month start_time, day start_time)
      = (year base_date, month base_date, day base_date).
Proof.
  intros Hv. unfold _parse_time_range, try_except_Exception.
  pose proof (body_raises_only_Exception time_str base_date) as Hb.
  destruct (parse_time_range_body time_str base_date) as [[s e]|err] eqn:Hbody.
  - exists s, e. split; [done |]. by apply (body_window_good time_str).
  - cbn in Hb. rewrite Hb. rewrite (default_window_valid _ Hv).
    eexists _, _. split; [reflexivity |].
    by apply default_window_good; [| apply default_window_valid].
Qed.

Lemma parsed_window_starts_before_it_ends_witness :
  exists start_time end_time,
    _parse_time_range "11:30 PM - 1:00 AM" (Datetime 2025 3 15 0 0 0 0)
      = Ok (start_time, end_time) /\
    datetime_leb end_time start_time = false /\
    (year start_time, month start_time, day start_time) = (2025, 3, 15).
Proof.
  apply (parsed_window_starts_before_it_ends "11:30 PM - 1:00 AM"
           (Datetime 2025 3 15 0 0 0 0)).
  reflexivity.
Defined.

Example parse_time_range_past_midnight :
  _parse_time_range "11:30 PM - 1:00 AM" (Datetime 2025 3 15 0 0 0 0)
    = Ok (Datetime 2025 3 15 23 30 0 0, Datetime 2025 3 16 0 30 0 0).
Proof. reflexivity. Qed.

End WindowClaims.

Section AwaitFacts.
Import Planner Bus.

Lemma pop_first_of_type_found t before m after :
  Forall (fun x => Envelope.message_type x <> t) before ->
  Envelope.message_type m = t ->
  pop_first_of_type t (before ++ m :: after)%list = Some (m, (before ++ after)%list).
Proof.
  intros Hb Hm. induction Hb as [|x before Hx _ IH]; cbn [app pop_first_of_type].
  - by rewrite Hm, String.eqb_refl.
  - apply String.eqb_neq in Hx. by rewrite Hx, IH.
Qed.

Lemma get_state_store_unavailable w :
  w_state_store w = None ->
  state_backend (w_settings w) <> "inmemory" ->
  get_state_store w =
    (w, Some (Raise (if String.eqb (state_backend (w_settings w)) "redis"
                     then AttributeError "'Settings' object has no attribute 'redis_url'"
                     else ValueError ("Unknown state backend: "
                                      ++ state_backend (w_settings w))))).
Proof.
  intros Hs Hb. unfold get_state_store, create_state_store. rewrite Hs.
  apply String.eqb_neq in Hb. cbv zeta.
  destruct (String.eqb (state_backend (w_settings w)) "redis") eqn:Hr; [done |].
  by rewrite Hb.
Qed.

End AwaitFacts.

Section AwaitExtraClaims.
Import Planner.
Variable sleep : World -> World.

(** X17. The await phase ends.  With the in-memory backend and an event
    loop in which every sleep advances the clock by at least [pace] and
    leaves the backend setting alone, the wait returns a plan, without
    raising, once the turns allowed cover the timeout. *)
Theorem await_phase_returns_a_plan
    (pace : Z) (turns : nat) (context : TaskContext) (timeout : Z) (w : World) :
  0 < pace ->
  (forall w', w_now w' + pace <= w_now (sleep w')) ->
  (forall w', state_backend (w_settings (sleep w')) = state_backend (w_settings w')) ->
  state_backend (w_settings w) = "inmemory" ->
  timeout <= pace * Z.of_nat turns ->
  exists w1 plan,
    _wait_for_optimization sleep turns context timeout w = (w1, Some (Ok plan)) /\
    state_backend (w_settings w1) = "inmemory".
Proof.
  intros Hpace Hsleep Hkeep Hb Hturns.
  destruct (receive_loop_finishes sleep pace Hpace Hsleep turns (w_now w) "orchestrator"
              timeout (Some OPTIMIZED_PLAN) w ltac:(lia)) as (w1 & r & Hloop).
  assert (Hrecv : receive_message sleep turns "orchestrator" (Some timeout)
                    (Some OPTIMIZED_PLAN) w = (w1, Some (Ok r)))
    by (unfold receive_message; by rewrite Hloop).
  assert (Hb1 : state_backend (w_settings w1) = "inmemory")
    by (by rewrite (receive_loop_keeps_backend sleep Hkeep _ _ _ _ _ _ _ _ Hloop)).
  destruct r as [m|].
  - unfold _wait_for_optimization, mbind. rewrite Hrecv. unfold ret. eauto.
  - destruct (get_state_store_inmemory w1 Hb1) as (w2 & s & Hs & _).
    rewrite (wait_after_timeout _ _ _ _ _ _ _ _ Hrecv Hs).
    eexists _, _. split; [reflexivity |].
    unfold get_state_store in Hs. destruct (w_state_store w1).
    + injection Hs as <- _. by destruct w1.
    + rewrite Hb1 in Hs. cbn in Hs. injection Hs as <- _. by destruct w1.
Qed.

(** X18. The orchestrator takes the first [optimized_plan] envelope of
    its queue as it is: it returns the payload at once (no sleep, no read
    of the store), whatever the correlation id, the sender and the
    signature of the envelope, which it does not verify; the envelopes of
    other types stay queued in their order. *)
Theorem wait_takes_first_optimized_plan_unchecked
    (turns : nat) (context : TaskContext) (timeout : Z) (w : World)
    (before after : list A2AMessage) (m : A2AMessage) :
  queue_of (w_adapter w) "orchestrator" = (before ++ m :: after)%list ->
  Forall (fun x => Envelope.message_type x <> OPTIMIZED_PLAN) before ->
  Envelope.message_type m = OPTIMIZED_PLAN ->
  exists a,
    _wait_for_optimization sleep turns context timeout w
      = (set_adapter w a, Some (Ok (PDict (payload m)))) /\
    queue_of a "orchestrator" = (before ++ after)%list /\
    Bus._message_history a = Bus._message_history (w_adapter w).
Proof.
  intros Hq Hb Hm. unfold queue_of in Hq.
  assert (Hpoll : Bus.receive_poll (w_adapter w) "orchestrator" (Some OPTIMIZED_PLAN)
                  = (Some m, Bus.Adapter
                               (<["orchestrator" := (before ++ after)%list]>
                                  (Bus._queues (w_adapter w)))
                               (Bus._subscribers (w_adapter w))
                               (Bus._message_history (w_adapter w))
                               (Bus._max_history (w_adapter w)))).
  { unfold Bus.receive_poll. change (truthy_opt_str (Some OPTIMIZED_PLAN)) with true.
    change (default "" (Some OPTIMIZED_PLAN)) with OPTIMIZED_PLAN.
    by rewrite Hq, (pop_first_of_type_found _ _ _ _ Hb Hm). }
  eexists. split; [| split].
  - unfold _wait_for_optimization, mbind, receive_message.
    destruct turns; cbn [receive_loop]; rewrite Hpoll; reflexivity.
  - unfold queue_of. cbn [Bus._queues]. by rewrite lookup_insert_eq.
  - reflexivity.
Qed.

End AwaitExtraClaims.

Section AwaitExtraWitness.
Import Planner.

Lemma await_phase_returns_a_plan_witness :
  exists w1 plan,
    _wait_for_optimization idle 3 sample_context 250000 fresh_world = (w1, Some (Ok plan)) /\
    state_backend (w_settings w1) = "inmemory".
Proof.
  apply (await_phase_returns_a_plan idle 100000 3 sample_context 250000 fresh_world).
  - lia.
  - intros w'. cbn. lia.
  - intros w'. reflexivity.
  - reflexivity.
  - lia.
Defined.

Lemma wait_takes_first_optimized_plan_unchecked_witness :
  let foreign :=
    Message "m-7" "another-trace" "another-task" OPTIMIZED_PLAN "1.0" sample_time
      [("hotels", PList [PStr "Elsewhere"])] (Meta "stranger" (Some "orchestrator") 5 300)
      (Some "not-a-signature") in
  let bus := send_all Bus.init [sample_message "m1" (Some "orchestrator"); foreign] in
  let w := set_adapter fresh_world bus in
  exists a,
    _wait_for_optimization idle 0 sample_context thirty_seconds w
      = (set_adapter w a, Some (Ok (PDict [("hotels", PList [PStr "Elsewhere"])]))) /\
    queue_of a "orchestrator" = [sample_message "m1" (Some "orchestrator")].
Proof.
  intros foreign bus w.
  destruct (wait_takes_first_optimized_plan_unchecked idle 0 sample_context thirty_seconds w
              [sample_message "m1" (Some "orchestrator")] [] foreign)
    as (a & Hwait & Hqueue & _).
  - reflexivity.
  - repeat constructor. discriminate.
  - reflexivity.
  - exists a. split; [exact Hwait | exact Hqueue].
Defined.

End AwaitExtraWitness.

Section BackendClaims.
Import Planner.
Variable sleep : World -> World.

(** X19. A backend other than the in-memory one is never available: as
    long as no store was created, [get_state_store] raises and creates
    nothing.  For "redis" it raises the [AttributeError] of the read of
    [settings.redis_url], an attribute the settings do not have, before
    the factory is called; for any other name it raises the [ValueError]
    of the factory.  So every read and write of the state raises the same
    exception, and a wait that times out raises it instead of returning
    the fall-back plan.  The factory called directly for "redis" raises
    [NotImplementedError] with a URL and [ValueError] without one. *)
Theorem unavailable_backend_raises (w : World) :
  w_state_store w = None ->
  state_backend (w_settings w) <> "inmemory" ->
  exists e,
    get_state_store w = (w, Some (Raise e)) /\
    exn_is_Exception e = true /\
    e = (if String.eqb (state_backend (w_settings w)) "redis"
         then AttributeError "'Settings' object has no attribute 'redis_url'"
         else ValueError ("Unknown state backend: " ++ state_backend (w_settings w))) /\
    (forall key, state_get key w = (w, Some (Raise e))) /\
    (forall key value ttl, state_set key value ttl w = (w, Some (Raise e))) /\
    (forall turns context timeout w0,
       receive_message sleep turns "orchestrator" (Some timeout) (Some OPTIMIZED_PLAN) w0
         = (w, Some (Ok None)) ->
       _wait_for_optimization sleep turns context timeout w0 = (w, Some (Raise e))) /\
    (forall redis_url,
       exists e', create_state_store "redis" redis_url = Raise e' /\
                  exn_type e' = (if truthy_opt_str redis_url
                                 then "NotImplementedError" else "ValueError")).
Proof.
  intros Hs Hb. pose proof (get_state_store_unavailable w Hs Hb) as Hget.
  eexists. split; [exact Hget |]. split; [| split; [| split; [| split; [| split]]]].
  - by destruct (String.eqb _ "redis").
  - reflexivity.
  - intros key. by apply state_get_unavailable.
  - intros key value ttl. unfold state_set, on_state_store, mbind. by rewrite Hget.
  - intros turns context timeout w0 Hrecv.
    unfold _wait_for_optimization. unfold mbind at 1. rewrite Hrecv.
    unfold mbind at 1. by rewrite (state_get_unavailable _ _ _ _ Hget).
  - intros redis_url. unfold create_state_store. cbn [String.eqb Ascii.eqb Bool.eqb].
    destruct (truthy_opt_str redis_url); eexists; split; reflexivity.
Qed.

End BackendClaims.

Section BackendWitness.
Import Planner.

Lemma unavailable_backend_raises_witness :
  let w0 := MkWorld 0 Bus.init None (MkSettings "secret" "redis") [] 0 None in
  let w := set_now w0 300000 in
  get_state_store w
    = (w, Some (Raise (AttributeError "'Settings' object has no attribute 'redis_url'"))) /\
  _wait_for_optimization idle 5 sample_context 250000 w0
    = (w, Some (Raise (AttributeError "'Settings' object has no attribute 'redis_url'"))).
Proof.
  intros w0 w.
  destruct (unavailable_backend_raises idle w) as (e & Hget & _ & -> & _ & _ & Hwait & _).
  - reflexivity.
  - discriminate.
  - split; [exact Hget |]. apply Hwait. reflexivity.
Defined.

End BackendWitness.

Section HandoverFacts.
Import Planner.

Lemma set_succeeds now key value n s :
  0 <= now + n * Store.MICROS <= Store.datetime_max ->
  Z.abs (n / 86400) <= Store.timedelta_max_days ->
  (Store.set now key value (Some n) s).2 = Ok true.
Proof.
  intros Hrange Hdays. unfold Store.set, Store.timedelta_seconds, Store.datetime_add, bind.
  replace (Z.abs (n / 86400) <=? Store.timedelta_max_days) with true
    by (symmetry; by apply Z.leb_le).
  replace ((Store.datetime_min <=? now + n * Store.MICROS)
           && (now + n * Store.MICROS <=? Store.datetime_max)) with true; [done |].
  symmetry. apply andb_true_iff. unfold Store.datetime_min. split; apply Z.leb_le; lia.
Qed.

Lemma get_after_set_live now t key value n s :
  (Store.set now key value (Some n) s).2 = Ok true ->
  t < now + n * Store.MICROS ->
  (Store.get t key (Store.set now key value (Some n) s).1).2 = value.
Proof.
  intros Hok Hlive. rewrite get_value, cleanup_store_lookup, set_store_lookup.
  rewrite (set_expiry_after_success _ _ _ _ _ Hok). by rewrite bool_decide_false by lia.
Qed.

Lemma get_after_set_other now t key other value ttl s :
  now <= t -> other <> key ->
  (Store.get t other (Store.set now key value ttl s).1).2 = (Store.get t other s).2.
Proof.
  intros Hle Ho. rewrite !get_value.
  destruct (set_lookup_other now key value ttl s other Ho) as [Hs He].
  by rewrite (cleanup_later_store_lookup now t _ s other Hle Hs He).
Qed.

Lemma state_set_available key value ttl w w1 s :
  get_state_store w = (w1, Some (Ok s)) ->
  (Store.set (w_now w1) key value ttl s).2 = Ok true ->
  state_set key value ttl w
    = (set_state_store w1 (Store.set (w_now w1) key value ttl s).1, Some (Ok true)).
Proof.
  intros Hs Hok. unfold state_set, on_state_store, mbind. rewrite Hs, Hok. reflexivity.
Qed.

Lemma store_optimized_plan_available proposal plan w w1 s :
  get_state_store w = (w1, Some (Ok s)) ->
  0 <= w_now w1 -> w_now w1 + 3600 * Store.MICROS <= Store.datetime_max ->
  let now := w_now w1 in
  let s1 := (Store.set now ("optimized_plan:" ++ Envelope.correlation_id proposal) plan
               (Some 3600) s).1 in
  let s2 := (Store.set now ("optimized_plan:" ++ Envelope.trace_id proposal) plan
               (Some 3600) s1).1 in
  store_optimized_plan proposal plan w = (set_state_store w1 s2, Some (Ok tt)).
Proof.
  intros Hs H0 Hmax now s1 s2. unfold store_optimized_plan.
  assert (Hok : forall key s', (Store.set now key plan (Some 3600) s').2 = Ok true).
  { intros key s'. apply set_succeeds; [| by vm_compute].
    subst now. unfold Store.MICROS in *. lia. }
  unfold mbind at 1. rewrite (state_set_available _ _ _ _ _ _ Hs (Hok _ _)).
  fold now. fold s1. unfold try_except, mbind.
  rewrite (state_set_available _ _ _ _ _ _ (get_state_store_created w1 s1)).
  - replace (w_now (set_state_store w1 s1)) with now by (by destruct w1).
    fold s2. by rewrite set_state_store_twice.
  - apply Hok.
Qed.

End HandoverFacts.

Section HandoverClaims.
Import Planner.
Variable sleep : World -> World.

(** X20. The hand-over through the store.  After the consumer's double
    write of an optimized plan (under the correlation id and the trace id
    of the proposal, ttl 3600 s), an orchestrator of the same correlation
    id whose wait times out within the hour, the store being otherwise
    untouched and holding nothing true under the key of its task id, gets
    that plan from the fall-back. *)
Theorem consumer_plan_is_found_after_timeout
    (turns : nat) (context : TaskContext) (timeout : Z) (proposal : A2AMessage)
    (plan : pyval) (w w2 : World) :
  state_backend (w_settings w) = "inmemory" ->
  0 <= w_now w ->
  w_now w + 3600 * Store.MICROS <= Store.datetime_max ->
  truthy plan = true ->
  ctx_correlation_id context = Envelope.correlation_id proposal ->
  exists w1,
    store_optimized_plan proposal plan w = (w1, Some (Ok tt)) /\
    (receive_message sleep turns "orchestrator" (Some timeout) (Some OPTIMIZED_PLAN) w1
       = (w2, Some (Ok None)) ->
     w_state_store w2 = w_state_store w1 ->
     w_now w <= w_now w2 < w_now w + 3600 * Store.MICROS ->
     truthy (Store.get (w_now w2) ("optimized_plan:" ++ ctx_task_id context)
               (default Store.init (w_state_store w))).2 = false ->
     (_wait_for_optimization sleep turns context timeout w1).2 = Some (Ok plan)).
Proof.
  intros Hb H0 Hmax Hplan Hcorr.
  destruct (get_state_store_inmemory w Hb) as (w' & s0 & Hs & Hnow).
  assert (Hs0 : s0 = default Store.init (w_state_store w)).
  { unfold get_state_store in Hs. destruct (w_state_store w); [by injection Hs as _ <- |].
    rewrite Hb in Hs. cbn in Hs. by injection Hs as _ <-. }
  pose proof (store_optimized_plan_available proposal plan w w' s0 Hs) as Hwrite.
  rewrite Hnow in Hwrite. specialize (Hwrite H0 Hmax). cbv zeta in Hwrite.
  set (now := w_now w) in *.
  set (kc := ("optimized_plan:" ++ Envelope.correlation_id proposal)%string) in *.
  set (kt := ("optimized_plan:" ++ Envelope.trace_id proposal)%string) in *.
  set (s1 := (Store.set now kc plan (Some 3600) s0).1) in *.
  set (s2 := (Store.set now kt plan (Some 3600) s1).1) in *.
  eexists. split; [exact Hwrite |].
  intros Hrecv Hsame [Hle Hlt] Htask.
  assert (Hstore2 : w_state_store w2 = Some s2).
  { rewrite Hsame. by destruct w'. }
  assert (Hget2 : get_state_store w2 = (w2, Some (Ok s2))).
  { unfold get_state_store. by rewrite Hstore2. }
  rewrite (wait_after_timeout sleep turns context timeout _ w2 w2 s2 Hrecv Hget2).
  cbv zeta. cbn [snd]. rewrite <- !get_value.
  assert (Hok : forall key s', (Store.set now key plan (Some 3600) s').2 = Ok true).
  { intros key s'. apply set_succeeds; [| by vm_compute].
    unfold now, Store.MICROS in *. lia. }
  assert (Hkt : (Store.get (w_now w2) kt s2).2 = plan).
  { apply get_after_set_live; [apply Hok | lia]. }
  assert (Hkc : (Store.get (w_now w2) kc s2).2 = plan).
  { destruct (string_dec kc kt) as [->|Hne]; [exact Hkt |].
    unfold s2. rewrite get_after_set_other by done.
    apply get_after_set_live; [apply Hok | lia]. }
  rewrite Hcorr. fold kc. rewrite Hkc, Hplan.
  set (kk := ("optimized_plan:" ++ ctx_task_id context)%string) in *.
  destruct (string_dec kk kt) as [->|Hne1]; [by rewrite Hkt, Hplan |].
  destruct (string_dec kk kc) as [->|Hne2]; [by rewrite Hkc, Hplan |].
  assert (Hkk : (Store.get (w_now w2) kk s2).2 = (Store.get (w_now w2) kk s0).2).
  { unfold s2, s1. by rewrite !get_after_set_other. }
  rewrite Hkk, Hs0. unfold now in Htask. by rewrite Htask.
Qed.

End HandoverClaims.

Section HandoverWitness.
Import Planner.

Lemma consumer_plan_is_found_after_timeout_witness :
  let w1 := (store_optimized_plan original_message stored_plan fresh_world).1 in
  (_wait_for_optimization idle 5 sample_context 250000 w1).2 = Some (Ok stored_plan).
Proof.
  intros w1.
  destruct (consumer_plan_is_found_after_timeout idle 5 sample_context 250000
              original_message stored_plan fresh_world (set_now w1 300000))
    as (w1' & Hwrite & Hwait).
  - reflexivity.
  - apply Z.leb_le. reflexivity.
  - apply Z.leb_le. reflexivity.
  - reflexivity.
  - reflexivity.
  - assert (Hw : w1' = w1) by (unfold w1; by rewrite Hwrite).
    rewrite Hw in Hwait. apply Hwait.
    + reflexivity.
    + reflexivity.
    + split; [apply Z.leb_le | apply Z.ltb_lt]; reflexivity.
    + reflexivity.
Defined.

End HandoverWitness.

Section CancellationClaims.
Import Planner.
Variable sleep : World -> World.
Variable plan_itinerary : TaskContext -> MonitoringCallbacks -> M pyval.
Variable _create_itinerary : TaskContext -> pyval -> MonitoringCallbacks -> M Itinerary.

(** X21. [execute] reports [Exception]s only.  When the body of its
    [try] raises something that is no [Exception] (a cancellation, an
    interrupt), the same object is raised to the caller from the very state
    the body left: the status is not set to failed and no [task_error]
    event is emitted.  While the body is still waiting, so is the run. *)
Theorem execute_passes_other_signals_unreported
    (turns : nat) (request_params : list (string * pyval)) (callbacks : MonitoringCallbacks)
    (w w0 : World) (context : TaskContext) :
  begin request_params callbacks w = (w0, Some (Ok context)) ->
  (forall w1 e,
     execute_body sleep plan_itinerary _create_itinerary turns context callbacks w0
       = (w1, Some (Raise e)) ->
     exn_is_Exception e = false ->
     execute sleep plan_itinerary _create_itinerary turns request_params callbacks w
       = (w1, Some (Raise e))) /\
  (forall w1,
     execute_body sleep plan_itinerary _create_itinerary turns context callbacks w0
       = (w1, None) ->
     execute sleep plan_itinerary _create_itinerary turns request_params callbacks w
       = (w1, None)).
Proof.
  intros Hbegin. split.
  - intros w1 e Hbody He. unfold execute. rewrite (mbind_ok _ _ _ _ _ Hbegin).
    by apply try_except_passes.
  - intros w1 Hbody. unfold execute. rewrite (mbind_ok _ _ _ _ _ Hbegin).
    unfold try_except. by rewrite Hbody.
Qed.

End CancellationClaims.

Section CancellationWitness.
Import Planner.

Lemma execute_passes_other_signals_unreported_witness :
  exists w1,
    execute idle cancelled_producer plain_assembly 20 [("destination", PStr "Goa")]
      sample_callbacks fresh_world = (w1, Some (Raise (Exn "CancelledError" "" false))) /\
    option_map ctx_status (w_context w1) = Some RUNNING /\
    map event_type (w_emitted w1) = [TASK_START; TASK_PROGRESS].
Proof.
  edestruct (execute_passes_other_signals_unreported idle cancelled_producer plain_assembly
               20 [("destination", PStr "Goa")] sample_callbacks fresh_world)
    as [Hpass _]; [lazy; reflexivity |].
  eexists. split.
  - apply Hpass; [lazy; reflexivity | reflexivity].
  - split; reflexivity.
Defined.

End CancellationWitness.

(* ===================================================================== *)
(** * Properties of the monitoring listeners *)
(* ===================================================================== *)

Section ListenerFacts.
Import Monitoring.

Lemma emit_isolates_exceptions listeners event :
  Forall (fun l => forall e, l_raises l event = Some e -> exn_is_Exception e = true)
    listeners ->
  (_emit_event listeners event).2 = None /\
  called (_emit_event listeners event).1 = map l_id listeners.
Proof.
  induction 1 as [|l rest Hl _ [IH1 IH2]]; [done |]. cbn [_emit_event map].
  destruct (l_raises l event) as [e|] eqn:He.
  - rewrite (Hl e eq_refl). cbn [fst snd called]. by rewrite IH1, IH2.
  - cbn [fst snd called]. by rewrite IH1, IH2.
Qed.

End ListenerFacts.

Section ListenerClaims.
Import Monitoring.

(** X23. Every listener gets every event.  When the listeners raise
    nothing but [Exception]s, [_emit_event] raises nothing and calls each
    registered listener once, in the order of registration, also after
    one of them raised; a listener registered later is called last, and
    one registered twice is called twice. *)
Theorem emit_calls_every_listener_in_order
    (listeners : list listener) (l : listener) (event : MonitoringEvent) :
  Forall (fun l' => forall e, l_raises l' event = Some e -> exn_is_Exception e = true)
    (l :: listeners) ->
  (_emit_event listeners event).2 = None /\
  called (_emit_event listeners event).1 = map l_id listeners /\
  called (_emit_event (register_listener listeners l) event).1
    = (called (_emit_event listeners event).1 ++ [l_id l])%list /\
  called (_emit_event (register_listener (register_listener listeners l) l) event).1
    = (called (_emit_event listeners event).1 ++ [l_id l; l_id l])%list.
Proof.
  intros Hall. apply Forall_cons in Hall as [Hl Hrest].
  destruct (emit_isolates_exceptions listeners event Hrest) as [H1 H2].
  split; [done |]. split; [done |]. unfold register_listener.
  assert (Hone : Forall (fun l' => forall e, l_raises l' event = Some e ->
                                   exn_is_Exception e = true) (listeners ++ [l])%list).
  { apply Forall_app. split; [done |]. by apply Forall_singleton. }
  assert (Htwo : Forall (fun l' => forall e, l_raises l' event = Some e ->
                                   exn_is_Exception e = true)
                   ((listeners ++ [l]) ++ [l])%list).
  { apply Forall_app. split; [done |]. by apply Forall_singleton. }
  rewrite H2, (proj2 (emit_isolates_exceptions _ event Hone)),
    (proj2 (emit_isolates_exceptions _ event Htwo)), !map_app.
  split; [done |]. by rewrite <- app_assoc.
Qed.

Lemma emit_calls_every_listener_in_order_witness :
  let failing := Listener 2 (fun _ => Some (ValueError "listener failed")) in
  let quiet := Listener 5 (fun _ => None) in
  let event := Event "e-1" TASK_START SEV_INFO 0 "trace-1" "corr-1" (Some "task-1") None
                 "Task started" [] None in
  (_emit_event (register_listener [failing] quiet) event).2 = None /\
  called (_emit_event (register_listener [failing] quiet) event).1 = [2%nat; 5%nat].
Proof.
  intros failing quiet event.
  destruct (emit_calls_every_listener_in_order [failing; quiet] quiet event)
    as (H1 & H2 & _).
  - repeat (apply Forall_cons; split); [discriminate | | discriminate | apply Forall_nil_2].
    intros e [= <-]. reflexivity.
  - split; [exact H1 | exact H2].
Defined.

End ListenerClaims.

(* ===================================================================== *)
(** * Properties of the consumer's conversion *)
(* ===================================================================== *)

Section ConvertFacts.
Import Json Optimizer.

Lemma sequence_ok_Forall2 {A B} (f : A -> result B) (l : list A) (l' : list B) :
  sequence (map f l) = Ok l' -> Forall2 (fun a b => f a = Ok b) l l'.
Proof.
  revert l'. induction l as [|a l IH]; intros l'; cbn [map sequence].
  - intros [= <-]. constructor.
  - destruct (f a) as [b|e] eqn:Hb; cbn [bind]; [| discriminate].
    destruct (sequence (map f l)) as [bs|e]; cbn [bind]; [| discriminate].
    intros [= <-]. constructor; [done | by apply IH].
Qed.

Lemma convert_keeps_text (v : pyval) :
  forall v', convert_decimals v = Ok v' -> encode v' = encode v /\ convert_decimals v' = Ok v'.
Proof.
  induction v as [ | | | | |d| | |items IH|items IH|items IH|name fields IH| ]
    using pyval_nested_ind;
    intros v'; cbn [convert_decimals]; try (by intros [= <-]).
  - unfold default_float. destruct (dec_float d) as [x|] eqn:Hd; cbn [bind]; [| discriminate].
    intros [= <-]. cbn [encode convert_decimals]. unfold default_float. by rewrite Hd.
  - destruct (sequence (map convert_decimals items)) as [l'|e] eqn:Hs; cbn [bind];
      [| discriminate].
    intros [= <-]. apply sequence_ok_Forall2 in Hs.
    assert (Hall : map encode l' = map encode items /\
                   sequence (map convert_decimals l') = Ok l').
    { clear -IH Hs. induction Hs as [|a b l l' Hab _ IHl]; [done |].
      apply Forall_cons in IH as [Ha IH]. destruct (IHl IH) as [H1 H2].
      destruct (Ha b Hab) as [Hb1 Hb2]. cbn [map sequence].
      by rewrite Hb1, H1, Hb2, H2. }
    destruct Hall as [H1 H2]. cbn [encode convert_decimals]. by rewrite H1, H2.
  - destruct (sequence _) as [l'|e] eqn:Hs; cbn [bind]; [| discriminate].
    intros [= <-]. apply sequence_ok_Forall2 in Hs.
    assert (Hall : map (fun kv : string * pyval => (kv.1, encode kv.2)) l'
                   = map (fun kv : string * pyval => (kv.1, encode kv.2)) items /\
                   sequence (map (fun kv : string * pyval =>
                                    bind (convert_decimals kv.2) (fun v => Ok (kv.1, v))) l')
                   = Ok l').
    { clear -IH Hs. induction Hs as [|[k a] [k' b] l l' Hab _ IHl]; [done |].
      apply Forall_cons in IH as [Ha IH]. destruct (IHl IH) as [H1 H2].
      cbn [fst snd] in *.
      destruct (convert_decimals a) as [a'|] eqn:Hc; cbn [bind] in Hab; [| discriminate].
      injection Hab as <- <-. destruct (Ha a' eq_refl) as [Hb1 Hb2].
      cbn [map sequence fst snd]. by rewrite Hb1, H1, Hb2, H2. }
    destruct Hall as [H1 H2]. cbn [encode convert_decimals]. by rewrite H1, H2.
Qed.

(** The same after [model_dump], which the conversion commutes with on
    what it changes. *)
Lemma convert_keeps_dumped_text (v : pyval) :
  forall v', convert_decimals v = Ok v' -> encode (model_dump v') = encode (model_dump v).
Proof.
  induction v as [ | | | | |d| | |items IH|items IH|items IH|name fields IH| ]
    using pyval_nested_ind;
    intros v'; cbn [convert_decimals]; try (by intros [= <-]).
  - unfold default_float. destruct (dec_float d) as [x|] eqn:Hd; cbn [bind]; [| discriminate].
    intros [= <-]. cbn [model_dump encode]. unfold default_float. by rewrite Hd.
  - destruct (sequence (map convert_decimals items)) as [l'|e] eqn:Hs; cbn [bind];
      [| discriminate].
    intros [= <-]. apply sequence_ok_Forall2 in Hs.
    assert (Hall : map encode (map model_dump l') = map encode (map model_dump items)).
    { clear -IH Hs. induction Hs as [|a b l l' Hab _ IHl]; [done |].
      apply Forall_cons in IH as [Ha IH]. cbn [map].
      by rewrite (Ha b Hab), (IHl IH). }
    cbn [model_dump encode]. by rewrite Hall.
  - destruct (sequence _) as [l'|e] eqn:Hs; cbn [bind]; [| discriminate].
    intros [= <-]. apply sequence_ok_Forall2 in Hs.
    assert (Hall : map (fun kv : string * pyval => (kv.1, encode kv.2))
                     (map (fun kv : string * pyval => (kv.1, model_dump kv.2)) l')
                   = map (fun kv : string * pyval => (kv.1, encode kv.2))
                       (map (fun kv : string * pyval => (kv.1, model_dump kv.2)) items)).
    { clear -IH Hs. induction Hs as [|[k a] [k' b] l l' Hab _ IHl]; [done |].
      apply Forall_cons in IH as [Ha IH]. cbn [fst snd] in *.
      destruct (convert_decimals a) as [a'|] eqn:Hc; cbn [bind] in Hab; [| discriminate].
      injection Hab as <- <-. cbn [map fst snd].
      by rewrite (Ha a' eq_refl), (IHl IH). }
    cbn [model_dump encode]. by rewrite Hall.
Qed.

End ConvertFacts.

Section ConvertClaims.
Import Optimizer.

(** X24. [convert_decimals] does not change what is signed: when it
    returns, the value it returns has the same JSON text under the
    canonical encoder as the value it was given (the encoder writes a
    [Decimal] as the float it converts to), at every depth, so an envelope
    has the same canonical text and signature with the converted payload
    as with the original one; and converting again changes nothing. *)
Theorem convert_decimals_keeps_canonical_text
    (m : A2AMessage) (payload converted : list (string * pyval)) :
  convert_decimals (PDict payload) = Ok (PDict converted) ->
  Json.encode (PDict converted) = Json.encode (PDict payload) /\
  canonical (with_payload m converted) = canonical (with_payload m payload) /\
  (forall key, compute_hmac_signature (with_payload m converted) key
               = compute_hmac_signature (with_payload m payload) key) /\
  convert_decimals (PDict converted) = Ok (PDict converted).
Proof.
  intros Hc. destruct (convert_keeps_text _ _ Hc) as [Htext Hidem].
  pose proof (canonical_with_payload_congr m converted payload
                (convert_keeps_dumped_text _ _ Hc)) as Hcan.
  split; [done |]. split; [done |]. split; [| done].
  intros key. unfold compute_hmac_signature. by rewrite Hcan.
Qed.

Lemma convert_decimals_keeps_canonical_text_witness :
  let price := PyDecimal "1200.50" (Some (PyFloat "1200.5")) true in
  let payload := [("hotels", PList [PDict [("price", PDecimal price)]]);
                  ("deposit", PTuple [PDecimal price])] in
  let converted := [("hotels", PList [PDict [("price", PFloat (PyFloat "1200.5"))]]);
                    ("deposit", PTuple [PDecimal price])] in
  convert_decimals (PDict payload) = Ok (PDict converted) /\
  canonical (with_payload original_message converted)
    = canonical (with_payload original_message payload).
Proof.
  intros price payload converted.
  assert (Hc : convert_decimals (PDict payload) = Ok (PDict converted)) by reflexivity.
  split; [exact Hc |].
  exact (proj1 (proj2 (convert_decimals_keeps_canonical_text original_message payload
                         converted Hc))).
Defined.

End ConvertClaims.

(* ===================================================================== *)
(** * Properties of the fence removal *)
(* ===================================================================== *)

Section StripFacts.

Lemma lstrip_spaces (ws s : string) :
  forallb is_space (list_ascii_of_string ws) = true -> lstrip (ws ++ s) = lstrip s.
Proof.
  induction ws as [|c ws IH]; [done |]. cbn [list_ascii_of_string forallb].
  intros [Hc Hws]%andb_true_iff. rewrite string_app_cons. cbn [lstrip]. rewrite Hc. auto.
Qed.

Lemma lstrip_split (s : string) :
  exists ws, s = (ws ++ lstrip s)%string /\ forallb is_space (list_ascii_of_string ws) = true.
Proof.
  induction s as [|c s (ws & Hs & Hws)]; [by exists ""%string |]. cbn [lstrip].
  destruct (is_space c) eqn:Hc.
  - exists (String c ws). rewrite string_app_cons, <- Hs. split; [done |].
    cbn [list_ascii_of_string forallb]. by rewrite Hc, Hws.
  - by exists ""%string.
Qed.

Lemma lstrip_length (s : string) : (String.length (lstrip s) <= String.length s)%nat.
Proof.
  induction s as [|c s IH]; [done |]. cbn [lstrip].
  destruct (is_space c); cbn [String.length]; lia.
Qed.

Lemma lstrip_idempotent (s : string) : lstrip (lstrip s) = lstrip s.
Proof.
  induction s as [|c s IH]; [done |]. cbn [lstrip].
  destruct (is_space c) eqn:Hc; [done |]. cbn [lstrip]. by rewrite Hc.
Qed.

Lemma spaces_rev (ws : string) :
  forallb is_space (list_ascii_of_string ws) = true ->
  forallb is_space (list_ascii_of_string (rev_string ws)) = true.
Proof.
  induction ws as [|c ws IH]; [done |]. cbn [list_ascii_of_string forallb].
  intros [Hc Hws]%andb_true_iff. rewrite rev_string_cons.
  assert (Happ : forall a b, list_ascii_of_string (a ++ b)
                             = (list_ascii_of_string a ++ list_ascii_of_string b)%list).
  { intros a b. induction a as [|x a IHa]; [done |].
    rewrite string_app_cons. cbn [list_ascii_of_string app]. by rewrite IHa. }
  rewrite Happ, forallb_app, (IH Hws). cbn [list_ascii_of_string forallb]. by rewrite Hc.
Qed.

(** [strip] removes the white space around a text whose ends are not
    white space. *)
Lemma strip_around (lead trail s : string) :
  forallb is_space (list_ascii_of_string lead) = true ->
  forallb is_space (list_ascii_of_string trail) = true ->
  lstrip s = s -> lstrip (rev_string s) = rev_string s ->
  strip (lead ++ s ++ trail) = s.
Proof.
  intros Hl Ht Hs Hr. unfold strip. rewrite (lstrip_spaces _ _ Hl).
  destruct s as [|c s'].
  - rewrite string_app_nil_l. destruct (lstrip_split trail) as (ws & Htrail & Hws).
    assert (Hall : lstrip trail = ""%string).
    { clear -Ht. induction trail as [|c t IH]; [done |]. cbn [list_ascii_of_string forallb] in Ht.
      apply andb_true_iff in Ht as [Hc Ht]. cbn [lstrip]. rewrite Hc. auto. }
    by rewrite Hall.
  - assert (Hfirst : lstrip (String c s' ++ trail) = (String c s' ++ trail)%string).
    { rewrite string_app_cons. cbn [lstrip] in *. destruct (is_space c); [| done].
      exfalso. pose proof (lstrip_length s') as Hlen.
      rewrite Hs in Hlen. cbn [String.length] in Hlen. lia. }
    rewrite Hfirst, rev_string_app, (lstrip_spaces _ _ (spaces_rev _ Ht)), Hr.
    apply rev_string_involutive.
Qed.

End StripFacts.

Section ReplyFacts.
Import Replies.

Lemma lstrip_fixed_cons (c : ascii) (s : string) :
  lstrip (String c s) = String c s -> is_space c = false.
Proof.
  cbn [lstrip]. destruct (is_space c); [| done]. intros Hs.
  pose proof (lstrip_length s) as Hlen. rewrite Hs in Hlen. cbn [String.length] in Hlen. lia.
Qed.

Lemma strip_is_trimmed (s : string) :
  lstrip (strip s) = strip s /\ lstrip (rev_string (strip s)) = rev_string (strip s).
Proof.
  unfold strip. set (t := lstrip s). set (u := lstrip (rev_string t)).
  rewrite rev_string_involutive. split; [| apply lstrip_idempotent].
  destruct (lstrip_split (rev_string t)) as (ws & Hsplit & _). fold u in Hsplit.
  apply (f_equal rev_string) in Hsplit.
  rewrite rev_string_involutive, rev_string_app in Hsplit.
  destruct (rev_string u) as [|c x] eqn:Hu; [done |].
  assert (Ht : lstrip t = t) by apply lstrip_idempotent.
  rewrite Hsplit, string_app_cons in Ht. apply lstrip_fixed_cons in Ht.
  cbn [lstrip]. by rewrite Ht.
Qed.

Lemma strip_idempotent (s : string) : strip (strip s) = strip s.
Proof.
  destruct (strip_is_trimmed s) as [H1 H2].
  pose proof (strip_around "" "" (strip s) eq_refl eq_refl H1 H2) as H.
  by rewrite string_app_nil_l, string_app_nil_r in H.
Qed.

Lemma to_last_fence (body : string) : to_last 3 (body ++ "```") = body.
Proof.
  unfold to_last. rewrite rev_string_app.
  change (rev_string "```") with "```"%string.
  change (from_index 3 ("```" ++ rev_string body)) with (rev_string body).
  apply rev_string_involutive.
Qed.

(** A fenced block, with white space around it, is stripped to itself. *)
Lemma strip_fenced (lead trail opening body : string) :
  forallb is_space (list_ascii_of_string lead) = true ->
  forallb is_space (list_ascii_of_string trail) = true ->
  strip (lead ++ ("```" ++ opening ++ body ++ "```") ++ trail)
    = ("```" ++ opening ++ body ++ "```")%string.
Proof.
  intros Hl Ht. apply strip_around; [done | done | done |].
  rewrite !rev_string_app. change (rev_string "```") with "```"%string.
  by rewrite !string_app_assoc.
Qed.

End ReplyFacts.

Section ReplyClaims.
Import Replies.

(** X25. What is parsed of a reply of the language model.  Of a reply
    that is a Markdown block fenced by [```json] and [```], with white
    space around it, the text parsed is the stripped body of the block;
    likewise for a block opened by a bare [```], provided the body does
    not begin with [json] (which would be taken for the tag).  In both
    cases the body must not itself begin with a fence.  A reply that,
    once stripped, neither begins nor ends with a fence is parsed as it
    is, stripped. *)
Theorem json_str_unwraps_fenced_reply (lead trail body reply : string) :
  forallb is_space (list_ascii_of_string lead) = true ->
  forallb is_space (list_ascii_of_string trail) = true ->
  (startswith (body ++ "```") "```" = false ->
   json_str (lead ++ ("```" ++ "json" ++ body ++ "```") ++ trail) = strip body) /\
  (startswith (body ++ "```") "```" = false ->
   startswith (body ++ "```") "json" = false ->
   json_str (lead ++ ("```" ++ "" ++ body ++ "```") ++ trail) = strip body) /\
  (startswith (strip reply) "```" = false ->
   endswith (strip reply) "```" = false ->
   json_str reply = strip reply).
Proof.
  intros Hl Ht. split; [| split].
  - intros Hbody. unfold json_str. rewrite (strip_fenced lead trail "json" body Hl Ht).
    change (startswith ("```" ++ "json" ++ body ++ "```") "```json")
      with (String.prefix "" (body ++ "```")).
    rewrite prefix_nil.
    change (from_index 7 ("```" ++ "json" ++ body ++ "```")) with (body ++ "```")%string.
    rewrite Hbody.
    assert (endswith (body ++ "```") "```" = true) as ->
      by (apply endswith_iff_app; by exists body).
    by rewrite to_last_fence.
  - intros Hbody Htag. unfold json_str. rewrite (strip_fenced lead trail "" body Hl Ht).
    change (startswith ("```" ++ "" ++ body ++ "```") "```json")
      with (startswith (body ++ "```") "json").
    rewrite Htag.
    change (startswith ("```" ++ "" ++ body ++ "```") "```")
      with (String.prefix "" (body ++ "```")).
    rewrite prefix_nil.
    change (from_index 3 ("```" ++ "" ++ body ++ "```")) with (body ++ "```")%string.
    assert (endswith (body ++ "```") "```" = true) as ->
      by (apply endswith_iff_app; by exists body).
    by rewrite to_last_fence.
  - intros Hstart Hend. unfold json_str.
    assert (startswith (strip reply) "```json" = false) as ->.
    { destruct (startswith (strip reply) "```json") eqn:Hj; [| done].
      apply prefix_iff_app in Hj as [r Hr]. rewrite <- Hstart. symmetry.
      apply prefix_iff_app. exists ("json" ++ r)%string. by rewrite Hr. }
    rewrite Hstart, Hend. apply strip_idempotent.
Qed.

Lemma json_str_unwraps_fenced_reply_witness :
  let newline := String (ascii_of_N 10) EmptyString in
  let body := (newline ++ "{" ++ Json.double_quote ++ "hotels" ++ Json.double_quote
               ++ ": []}" ++ newline)%string in
  json_str (newline ++ ("```" ++ "json" ++ body ++ "```") ++ newline)
    = ("{" ++ Json.double_quote ++ "hotels" ++ Json.double_quote ++ ": []}")%string.
Proof.
  intros newline body.
  destruct (json_str_unwraps_fenced_reply newline newline body "") as (H1 & _);
    [reflexivity | reflexivity |].
  rewrite H1; reflexivity.
Defined.

Example json_str_upper_case_tag_is_kept :
  json_str ("```JSON" ++ String (ascii_of_N 10) "{}" ++ String (ascii_of_N 10) "```")
    = ("JSON" ++ String (ascii_of_N 10) "{}")%string.
Proof. reflexivity. Qed.

End ReplyClaims.
